(** * llm-tracelab: the recording pipeline, embedded and verified

    A shallow embedding of the recorder ([internal/recorder]), the proxy
    handler with its usage sniffer and instrumented response writer
    ([internal/proxy/handler.go]), the chaos manager
    ([internal/chaos/manager.go]), the replay transport ([pkg/replay]),
    the readers of the monitor ([internal/monitor]: [ParseLogFile],
    [ScanLogs]) and the URL construction of the connectivity check
    ([internal/upstream]).

    Conventions of the embedding.
    - A Go [[]byte] is a [list byte]; a Go [string] used as a map key or a
      header value is a [string]; [int]/[int64] counters are [Z] (the
      64-bit wrap-around is written out where a sum is formed from decoded
      fields, see [replay.wrap64]).
    - A Go map is a [gmap]; [http.Header] is [gmap string (list string)].
    - Pointers into a [LogInfo] (the file handle, [Count], [Usage]) are
      modelled by letting the operation that dereferences them transform
      the [LogInfo] it points into, so aliasing is preserved.
    - Functions of Go's standard library whose results the code only
      passes on (the JSON codec, [strings.TrimSpace], [strings.EqualFold],
      [http.ReadResponse], path formatting) are fields of a small
      interface class per package; the theorems are stated for all
      instances, and the worked examples run the model with the sample
      instances of Part II. *)

From Stdlib Require Import ZArith QArith Strings.String Strings.Byte Lia.
From Stdlib Require Import DecimalString.
From stdpp Require Import gmap strings list fin_maps sorting.

#[local] Set Warnings "-register-all".
#[local] Open Scope Z_scope.

(* ===================================================================== *)
(** * Part I: the model                                                   *)
(* ===================================================================== *)

(** ** Package [bytes]: the slice helpers the code calls *)

Module bytes.

Definition LF : byte := x0a.
Definition CR : byte := x0d.
Definition SP : byte := x20.
Definition LBRACE : byte := x7b.
Definition RBRACE : byte := x7d.
Definition DQUOTE : byte := x22.

#[global] Instance byte_eq_dec : EqDecision byte := Byte.byte_eq_dec.

Definition of_string (s : string) : list byte := list_byte_of_string s.

(** [bytes.HasPrefix(s, prefix)] *)
Fixpoint HasPrefix (s prefix : list byte) : bool :=
  match prefix, s with
  | [], _ => true
  | p :: ps, c :: cs => Byte.eqb p c && HasPrefix cs ps
  | _ :: _, [] => false
  end.

(** [bytes.Index(s, sep)]: first position at which [sep] occurs; Go's [-1]
    is [None]. *)
Fixpoint Index (s sep : list byte) {struct s} : option nat :=
  if HasPrefix s sep then Some 0%nat
  else match s with
       | [] => None
       | _ :: t => S <$> Index t sep
       end.

(** [bytes.LastIndex(s, sep)]: last position at which [sep] occurs. *)
Fixpoint LastIndex (s sep : list byte) {struct s} : option nat :=
  match s with
  | [] => if HasPrefix [] sep then Some 0%nat else None
  | _ :: t =>
      match LastIndex t sep with
      | Some i => Some (S i)
      | None => if HasPrefix s sep then Some 0%nat else None
      end
  end.

(** [bytes.IndexByte(s, c)] *)
Fixpoint IndexByte (s : list byte) (c : byte) : option nat :=
  match s with
  | [] => None
  | b :: t => if Byte.eqb b c then Some 0%nat else S <$> IndexByte t c
  end.

(** [bytes.Contains(s, sub)] is [Index(s, sub) != -1]. *)
Definition Contains (s sub : list byte) : bool :=
  match Index s sub with Some _ => true | None => false end.

(** [strings.TrimPrefix] *)
Definition TrimPrefix (s prefix : list byte) : list byte :=
  if HasPrefix s prefix then drop (length prefix) s else s.

(** The builtin [copy(dst, src)]: the first [min(len dst, len src)] bytes of
    [dst] are replaced; the result is the new contents of [dst]. *)
Definition copy (dst src : list byte) : list byte :=
  take (length dst) src ++ drop (length src) dst.

(** [make([]byte, n)] followed by the loop that fills it with [c]. *)
Definition filled (n : nat) (c : byte) : list byte := replicate n c.


End bytes.

(** ** Package [strings], on Go strings *)

Module strings.

Definition Contains (s sub : string) : bool :=
  bytes.Contains (bytes.of_string s) (bytes.of_string sub).

Definition HasSuffix (s suffix : string) : bool :=
  bytes.HasPrefix (reverse (bytes.of_string s)) (reverse (bytes.of_string suffix)).

(** [fmt.Sprint] of an integer. *)
Definition itoa (n : Z) : string := NilZero.string_of_int (Z.to_int n).

End strings.

(** ** Package [encoding/json]: the values of [map[string]interface{}] *)

Module json.

(** What [json.Unmarshal] stores in an [interface{}]: [nil], [bool],
    [float64] (kept by its 64 bits, the code never computes with it),
    [string], [[]interface{}] and [map[string]interface{}]. *)
Inductive value : Type :=
| Null
| Bool (b : bool)
| Number (bits : Z)
| Str (s : string)
| Array (l : list value)
| Object (m : gmap string value).

End json.

(** ** Package [os]: a file handle with its contents *)

Module os.

Inductive error : Type :=
| ErrClosed        (* use of a closed file *)
| ErrInvalid       (* negative seek offset *)
| ErrIO            (* a write the device cut short *)
| ErrNotExist
| ErrUnexpectedEOF
| ErrOther (msg : string).

(** An open [*os.File]: its bytes, the offset of the next read or write,
    whether [Close] was called, and the device's schedule for the coming
    [Write] calls: [None] lets the call through, [Some k] accepts only the
    first [k] bytes and reports an error. An empty schedule means no
    fault. *)
Record File : Type := mkFile {
  data : list byte;
  offset : nat;
  closed : bool;
  faults : list (option nat)
}.

Definition create (sched : list (option nat)) : File :=
  {| data := []; offset := 0%nat; closed := false; faults := sched |}.

(** Bytes [b] stored at position [pos]; a gap past the end reads as zero
    bytes. *)
Definition store (d : list byte) (pos : nat) (b : list byte) : list byte :=
  take pos d ++ replicate (pos - length d) x00 ++ b ++ drop (pos + length b) d.

(** [f.Write(b)]: returns the handle, [n] and [err]. *)
Definition Write (f : File) (b : list byte) : File * nat * option error :=
  if closed f then (f, 0%nat, Some ErrClosed)
  else
    match faults f with
    | Some k :: rest =>
        let w := take k b in
        ({| data := store (data f) (offset f) w;
            offset := (offset f + length w)%nat;
            closed := false;
            faults := rest |}, length w, Some ErrIO)
    | sched =>
        ({| data := store (data f) (offset f) b;
            offset := (offset f + length b)%nat;
            closed := false;
            faults := tl sched |}, length b, None)
    end.

(** [f.Seek(off, 0)] *)
Definition Seek (f : File) (off : Z) : File * option error :=
  if closed f then (f, Some ErrClosed)
  else if off <? 0 then (f, Some ErrInvalid)
  else ({| data := data f; offset := Z.to_nat off;
           closed := false; faults := faults f |}, None).

(** [f.Close()] *)
Definition Close (f : File) : File * option error :=
  if closed f then (f, Some ErrClosed)
  else ({| data := data f; offset := offset f;
           closed := true; faults := faults f |}, None).

(** [io.ReadFull(f, buf)] with [len(buf) = n]. *)
Definition ReadFull (f : File) (n : nat) : File * (list byte + error) :=
  if closed f then (f, inr ErrClosed)
  else
    let rest := drop (offset f) (data f) in
    if (length rest <? n)%nat then
      ({| data := data f; offset := length (data f);
          closed := false; faults := faults f |}, inr ErrUnexpectedEOF)
    else
      ({| data := data f; offset := (offset f + n)%nat;
          closed := false; faults := faults f |}, inl (take n rest)).

(** What a reader positioned at the handle's offset will see. *)
Definition remaining (f : File) : list byte := drop (offset f) (data f).

End os.

(** ** Package [io]: a request body *)

Module io.

(** An [io.ReadCloser] over bytes still to be read; [fails] marks a reader
    whose [Read] ends in an error other than [io.EOF]. *)
Record Reader : Type := mkReader {
  pending : list byte;
  fails : bool
}.

(** [io.ReadAll(r)]: what was read, whether an error came with it, and the
    drained reader. *)
Definition ReadAll (r : Reader) : list byte * bool * Reader :=
  (pending r, fails r, {| pending := []; fails := fails r |}).

(** [io.NopCloser(bytes.NewBuffer(b))] *)
Definition NopCloser (b : list byte) : Reader :=
  {| pending := b; fails := false |}.

End io.

(** ** Package [net/http]: headers, requests, responses, the client side *)

Module http.

(** [http.Header] is [map[string][]string]. The keys the code passes
    ([Authorization], [Content-Type], [Content-Length],
    [Transfer-Encoding], [Accept-Encoding]) are already in canonical form,
    so [CanonicalMIMEHeaderKey] is the identity on them. *)
Abbreviation Header := (gmap string (list string)).

(** [h.Get(key)]: the first value, or the empty string. *)
Definition Get (h : Header) (key : string) : string :=
  match h !! key with
  | Some (v :: _) => v
  | _ => ""%string
  end.

(** [h.Set(key, value)]: the key now holds the single value. *)
Definition Set_ (h : Header) (key value : string) : Header :=
  <[key := [value]]> h.

Definition CRLF : list byte := [bytes.CR; bytes.LF].

(** [httpguts.ValidHeaderFieldName]: a non-empty run of token bytes. *)
Definition isTokenByte (b : byte) : bool :=
  let n := Byte.to_N b in
  ((48 <=? n) && (n <=? 57) || (65 <=? n) && (n <=? 90) ||
   (97 <=? n) && (n <=? 122) ||
   existsb (Byte.eqb b) [x21; x23; x24; x25; x26; x27; x2a; x2b; x2d; x2e;
                         x5e; x5f; x60; x7c; x7e])%N.

Definition ValidHeaderFieldName (k : string) : bool :=
  match bytes.of_string k with
  | [] => false
  | bs => forallb isTokenByte bs
  end.

(** [textproto.TrimString]: ASCII space, tab, CR and LF at both ends. *)
Definition isASCIISpace (b : byte) : bool :=
  existsb (Byte.eqb b) [x20; x09; x0a; x0d].

Fixpoint trimLeft (s : list byte) : list byte :=
  match s with
  | b :: t => if isASCIISpace b then trimLeft t else s
  | [] => []
  end.

Definition TrimString (s : list byte) : list byte :=
  reverse (trimLeft (reverse (trimLeft s))).

(** [headerNewlineToSpace.Replace] *)
Definition newlineToSpace (s : list byte) : list byte :=
  (fun b => if Byte.eqb b bytes.LF || Byte.eqb b bytes.CR then bytes.SP else b) <$> s.

(** One [key: value\r\n] line as [Header.WriteSubset] prints it. *)
Definition headerLine (k v : string) : list byte :=
  bytes.of_string k ++ bytes.of_string ": "
    ++ TrimString (newlineToSpace (bytes.of_string v)) ++ CRLF.

Definition keyLe (a b : string * list string) : Prop :=
  Is_true (String.leb a.1 b.1).

#[global] Instance keyLe_dec a b : Decision (keyLe a b) := _.

(** [sortedKeyValues(exclude)] *)
Definition sortedKeyValues (h : Header) (exclude : list string)
  : list (string * list string) :=
  merge_sort keyLe
    (filter (fun kv => kv.1 ∉ exclude) (map_to_list h)).

(** [h.WriteSubset(w, exclude)] *)
Definition WriteSubset (h : Header) (exclude : list string) : list byte :=
  concat ((fun kv : string * list string =>
             if ValidHeaderFieldName kv.1
             then concat (headerLine kv.1 <$> kv.2)
             else [])
          <$> sortedKeyValues h exclude).

(** [h.Write(w)] *)
Definition Write (h : Header) : list byte := WriteSubset h [].

Record URL : Type := mkURL {
  Path : string;
  URLHost : string;
  uri : string;       (* [u.RequestURI()] *)
  text : string       (* [u.String()] *)
}.

Record Request : Type := mkRequest {
  Method : string;
  ReqURL : URL;
  RequestURI : string;
  ProtoMajor : Z;
  ProtoMinor : Z;
  Host : string;
  TransferEncoding : list string;
  ReqHeader : Header;
  Body : io.Reader;
  ContentLength : Z;
  RemoteAddr : string
}.

Definition withHeader (r : Request) (h : Header) : Request :=
  {| Method := Method r; ReqURL := ReqURL r; RequestURI := RequestURI r;
     ProtoMajor := ProtoMajor r; ProtoMinor := ProtoMinor r; Host := Host r;
     TransferEncoding := TransferEncoding r; ReqHeader := h;
     Body := Body r; ContentLength := ContentLength r;
     RemoteAddr := RemoteAddr r |}.

Definition withBody (r : Request) (b : io.Reader) : Request :=
  {| Method := Method r; ReqURL := ReqURL r; RequestURI := RequestURI r;
     ProtoMajor := ProtoMajor r; ProtoMinor := ProtoMinor r; Host := Host r;
     TransferEncoding := TransferEncoding r; ReqHeader := ReqHeader r;
     Body := b; ContentLength := ContentLength r;
     RemoteAddr := RemoteAddr r |}.

Definition withContentLength (r : Request) (n : Z) : Request :=
  {| Method := Method r; ReqURL := ReqURL r; RequestURI := RequestURI r;
     ProtoMajor := ProtoMajor r; ProtoMinor := ProtoMinor r; Host := Host r;
     TransferEncoding := TransferEncoding r; ReqHeader := ReqHeader r;
     Body := Body r; ContentLength := n;
     RemoteAddr := RemoteAddr r |}.

(** An upstream response; [RespBody] lists what the successive [Read]
    calls on the body return before [io.EOF]. [RespTransferEncoding] is
    [res.TransferEncoding]: [http.Transport] moves the transfer codings
    of the answer there, out of the header, when it reads the response. *)
Record Response : Type := mkResponse {
  Proto : string;
  Status : string;
  StatusCode : Z;
  RespTransferEncoding : list string;
  RespHeader : Header;
  RespBody : list (list byte)
}.

Definition withRespHeader (r : Response) (h : Header) : Response :=
  {| Proto := Proto r; Status := Status r; StatusCode := StatusCode r;
     RespTransferEncoding := RespTransferEncoding r;
     RespHeader := h; RespBody := RespBody r |}.

(** The server's [http.ResponseWriter] for one client: the status line
    sent (if any), the body bytes sent, the number of flushes, and how
    many more bytes the connection takes before it breaks ([None]: it
    does not break). *)
Record ResponseWriter : Type := mkResponseWriter {
  status : option Z;
  sent : list byte;
  flushes : nat;
  room : option nat
}.

Definition newResponseWriter (room : option nat) : ResponseWriter :=
  {| status := None; sent := []; flushes := 0%nat; room := room |}.

(** [w.WriteHeader(code)] for a final status code: [101], or one from
    [200] to [999]. These are the codes the handlers pass: the status of
    the response the round trip returned (the transport passes
    informational responses on by itself), [500] and [502]. On the first
    call an informational code ([1xx] other than [101]) would be sent at
    once and leave the status open, and a code outside [100..999] would
    panic; a call after the status was sent returns for every code. *)
Definition WriteHeader (w : ResponseWriter) (code : Z) : ResponseWriter :=
  match status w with
  | Some _ => w   (* superfluous WriteHeader call *)
  | None => {| status := Some code; sent := sent w;
               flushes := flushes w; room := room w |}
  end.

(** [w.Write(b)]: an implicit [WriteHeader(200)] when none was sent. *)
Definition ResponseWriter_Write (w : ResponseWriter) (b : list byte)
  : ResponseWriter * nat * bool :=
  let w := WriteHeader w 200 in
  match room w with
  | None =>
      ({| status := status w; sent := sent w ++ b;
          flushes := flushes w; room := None |}, length b, false)
  | Some k =>
      if (length b <=? k)%nat then
        ({| status := status w; sent := sent w ++ b;
            flushes := flushes w; room := Some (k - length b)%nat |},
         length b, false)
      else
        ({| status := status w; sent := sent w ++ take k b;
            flushes := flushes w; room := Some 0%nat |}, k, true)
  end.

Definition Flush (w : ResponseWriter) : ResponseWriter :=
  {| status := status w; sent := sent w;
     flushes := S (flushes w); room := room w |}.

End http.

(** ** Package [net/http/httputil]: [DumpRequest(req, false)] *)

Module httputil.

Definition valueOrDefault (value def : string) : string :=
  if String.eqb value "" then def else value.

Definition reqWriteExcludeHeaderDump : list string :=
  ["Host"; "Transfer-Encoding"; "Trailer"]%string.

Definition joinComma (l : list string) : string :=
  String.concat "," l.

(** The request line, the [Host] line, the [Transfer-Encoding] line, the
    remaining headers in key order, and the blank line. With [body=false]
    the call cannot fail. *)
Definition DumpRequest (req : http.Request) : list byte :=
  let reqURI :=
    if String.eqb (http.RequestURI req) ""
    then http.uri (http.ReqURL req) else http.RequestURI req in
  let absRequestURI :=
    String.prefix "http://" (http.RequestURI req)
    || String.prefix "https://" (http.RequestURI req) in
  let host :=
    if String.eqb (http.Host req) ""
    then http.URLHost (http.ReqURL req) else http.Host req in
  bytes.of_string
    (valueOrDefault (http.Method req) "GET" ++ " " ++ reqURI ++ " HTTP/"
       ++ strings.itoa (http.ProtoMajor req) ++ "."
       ++ strings.itoa (http.ProtoMinor req))
  ++ http.CRLF
  ++ (if absRequestURI || String.eqb host "" then []
      else bytes.of_string ("Host: " ++ host) ++ http.CRLF)
  ++ (match http.TransferEncoding req with
      | [] => []
      | te => bytes.of_string ("Transfer-Encoding: " ++ joinComma te)
                ++ http.CRLF
      end)
  ++ http.WriteSubset (http.ReqHeader req) reqWriteExcludeHeaderDump
  ++ http.CRLF.

(** [hopHeaders] of [reverseproxy.go] *)
Definition hopHeaders : list string :=
  ["Connection"; "Proxy-Connection"; "Keep-Alive"; "Proxy-Authenticate";
   "Proxy-Authorization"; "Te"; "Trailer"; "Transfer-Encoding";
   "Upgrade"]%string.

(** [strings.Split(f, ",")] *)
Fixpoint splitComma (f : list byte) : list (list byte) :=
  match f with
  | [] => [[]]
  | b :: t =>
      if Byte.eqb b x2c then [] :: splitComma t
      else match splitComma t with
           | sf :: rest => (b :: sf) :: rest
           | [] => [[b]]
           end
  end.

(** The header names that the values of [Connection] list: each value is
    split at the commas and the pieces are trimmed; empty ones are
    dropped. *)
Definition connectionNames (h : http.Header) : list string :=
  f ← default [] (h !! "Connection"%string);
  sf ← splitComma (bytes.of_string f);
  let sf := http.TrimString sf in
  if (length sf =? 0)%nat then [] else [string_of_list_byte sf].

(** [removeHopByHopHeaders(h)]: the headers named in [Connection], then
    the hop-by-hop headers. [canon] is
    [textproto.CanonicalMIMEHeaderKey], which [h.Del] applies to its
    key; the names of [hopHeaders] are in canonical form already. *)
Definition removeHopByHopHeaders (canon : string -> string) (h : http.Header)
  : http.Header :=
  let h := foldl (fun h sf => delete (canon sf) h) h (connectionNames h) in
  foldl (fun h f => delete f h) h hopHeaders.

End httputil.

(** ** Package [internal/recorder] *)

Module recorder.

(** [HeaderLen]: the fixed length of the header slot (2 KiB). *)
Definition HeaderLen : nat := 2048.

Record PromptTokenDetails : Type := mkPromptTokenDetails {
  CachedTokens : Z
}.

Record UsageInfo : Type := mkUsageInfo {
  PromptTokens : Z;
  CompletionTokens : Z;
  TotalTokens : Z;
  PromptTokenDetails_ : option PromptTokenDetails
}.

Record LayoutInfo : Type := mkLayoutInfo {
  ReqHeaderLen : Z;
  ReqBodyLen : Z;
  ResHeaderLen : Z;
  ResBodyLen : Z;
  IsStream : bool
}.

Record MetaData : Type := mkMetaData {
  RequestID : string;
  Time : Z;
  Model : string;
  URL : string;
  Method : string;
  StatusCode : Z;
  DurationMs : Z;
  TTFTMs : Z;
  ClientIP : string;
  ContentLength : Z;
  Error : string
}.

Record RecordHeader : Type := mkRecordHeader {
  Version : string;
  Meta : MetaData;
  Layout : LayoutInfo;
  Usage : UsageInfo
}.

(** [LogInfo]: [File] is the [*os.File] (possibly [nil]) together with the
    state of the file it designates. *)
Record LogInfo : Type := mkLogInfo {
  File : option os.File;
  Path : string;
  Header : RecordHeader
}.

Record Recorder : Type := mkRecorder {
  OutputDir : string;
  MaskKey : bool
}.

Definition New (outputDir : string) (maskKey : bool) : Recorder :=
  {| OutputDir := outputDir; MaskKey := maskKey |}.

(** The Go zero values. *)
Definition zeroUsage : UsageInfo :=
  {| PromptTokens := 0; CompletionTokens := 0; TotalTokens := 0;
     PromptTokenDetails_ := None |}.

Definition withFile (i : LogInfo) (f : option os.File) : LogInfo :=
  {| File := f; Path := Path i; Header := Header i |}.

Definition withLayout (i : LogInfo) (l : LayoutInfo) : LogInfo :=
  {| File := File i; Path := Path i;
     Header := {| Version := Version (Header i); Meta := Meta (Header i);
                  Layout := l; Usage := Usage (Header i) |} |}.

Definition withUsage (i : LogInfo) (u : UsageInfo) : LogInfo :=
  {| File := File i; Path := Path i;
     Header := {| Version := Version (Header i); Meta := Meta (Header i);
                  Layout := Layout (Header i); Usage := u |} |}.

Definition withMeta (i : LogInfo) (m : MetaData) : LogInfo :=
  {| File := File i; Path := Path i;
     Header := {| Version := Version (Header i); Meta := m;
                  Layout := Layout (Header i); Usage := Usage (Header i) |} |}.

(** What the package takes from Go's standard library. *)
Class Lib : Type := {
  (** [json.Unmarshal(body, &pb)] for [pb struct{Model string}]: [None] on
      error, otherwise [pb.Model]. *)
  json_Unmarshal_model : list byte -> option string;
  (** [json.Marshal(info.Header)] *)
  json_Marshal_header : RecordHeader -> list byte + os.error;
  (** [url.Parse(siteURL)]: [None] when the result is [nil], otherwise
      [u.Host]. *)
  url_Parse_host : string -> option string;
  (** [filepath.Join] of the dated directory and the file name built from
      [now]. *)
  logPath : string -> string -> string -> Z -> string
}.

(** What [PrepareLogFile] meets outside the program: the clock, and whether
    [os.MkdirAll], [os.Create] and the writes to the new file go through. *)
Record Env : Type := mkEnv {
  now : Z;                            (* [time.Now().UnixNano()] *)
  mkdirErr : option os.error;
  createErr : option os.error;
  device : list (option nat)
}.

(** The placeholder written at the start of the file. *)
Definition padding : list byte :=
  <[(HeaderLen - 1)%nat := bytes.LF]> (bytes.filled HeaderLen bytes.SP).

Definition maskedKey : string := "Bearer fake-key-logging".

(** [(r *Recorder) PrepareLogFile(req, siteURL)]; the request is returned
    as the call leaves it. A server request's [Body] is never [nil], so
    the guard [req.Body != nil] holds. *)
Definition PrepareLogFile `{Lib} (r : Recorder) (req : http.Request)
    (siteURL : string) (env : Env) : http.Request * (LogInfo + os.error) :=
  (* 1. read the body for the model name, and put it back *)
  let '(bodyBytes, _, _) := io.ReadAll (http.Body req) in
  let req := http.withBody req (io.NopCloser bodyBytes) in
  let modelName := "unknown-model"%string in
  let modelName :=
    if (0 <? length bodyBytes)%nat then
      match json_Unmarshal_model bodyBytes with
      | Some m => if String.eqb m "" then modelName else m
      | None => modelName
      end
    else modelName in
  let modelName :=
    if String.eqb modelName "unknown-model" then
      if strings.HasSuffix (http.Path (http.ReqURL req)) "/models"
      then "list_models"%string else modelName
    else modelName in
  (* 2. site host *)
  let siteHost :=
    match url_Parse_host siteURL with
    | Some h => h
    | None => "unknown"%string
    end in
  (* 3. directory and file *)
  match mkdirErr env with
  | Some e => (req, inr e)
  | None =>
  let logPath := logPath (OutputDir r) siteHost modelName (now env) in
  match createErr env with
  | Some e => (req, inr e)
  | None =>
  let f := os.create (device env) in
  (* 4. the 2 KiB placeholder *)
  match os.Write f padding with
  | (_, _, Some e) => (req, inr e)
  | (f, _, None) =>
  (* 5. the request header, with the key masked while it is dumped *)
  let originalKey := http.Get (http.ReqHeader req) "Authorization" in
  let mask := MaskKey r && negb (String.eqb originalKey "") in
  let req :=
    if mask
    then http.withHeader req
           (http.Set_ (http.ReqHeader req) "Authorization" maskedKey)
    else req in
  let reqDump := httputil.DumpRequest req in
  let req :=
    if mask
    then http.withHeader req
           (http.Set_ (http.ReqHeader req) "Authorization" originalKey)
    else req in
  match os.Write f reqDump with
  | (_, _, Some e) => (req, inr e)
  | (f, nHead, None) =>
  (* 6. the request body *)
  match os.Write f bodyBytes with
  | (_, _, Some e) => (req, inr e)
  | (f, nBody, None) =>
      (req,
       inl {| File := Some f;
              Path := logPath;
              Header :=
                {| Version := "LLM_PROXY_V2";
                   Meta := {| RequestID := strings.itoa (now env);
                              Time := now env;
                              Model := modelName;
                              URL := http.text (http.ReqURL req);
                              Method := http.Method req;
                              StatusCode := 0;
                              DurationMs := 0;
                              TTFTMs := 0;
                              ClientIP := http.RemoteAddr req;
                              ContentLength := 0;
                              Error := "" |};
                   Layout := {| ReqHeaderLen := Z.of_nat nHead;
                                ReqBodyLen := Z.of_nat nBody;
                                ResHeaderLen := 0;
                                ResBodyLen := 0;
                                IsStream := false |};
                   Usage := zeroUsage |} |})
  end end end end end.

(** The 2 KiB block [UpdateLogFile] builds from the serialized header. *)
Definition finalBlock (jsonData : list byte) : list byte :=
  let finalBlock := bytes.filled HeaderLen bytes.SP in
  let finalBlock :=
    if (HeaderLen - 1 <? length jsonData)%nat
    then bytes.copy finalBlock (take (HeaderLen - 1) jsonData)
    else bytes.copy finalBlock jsonData in
  <[(HeaderLen - 1)%nat := bytes.LF]> finalBlock.

(** [(r *Recorder) UpdateLogFile(info)]: the [LogInfo] as the call leaves
    it (the deferred [Close] included) and the returned error. *)
Definition UpdateLogFile `{Lib} (info : LogInfo) : LogInfo * option os.error :=
  match File info with
  | None => (info, None)
  | Some f =>
      let finish (f : os.File) (err : option os.error) :=
        (withFile info (Some (os.Close f).1), err) in
      match json_Marshal_header (Header info) with
      | inr e => finish f (Some e)
      | inl jsonData =>
          match os.Seek f 0 with
          | (f, Some e) => finish f (Some e)
          | (f, None) =>
              match os.Write f (finalBlock jsonData) with
              | (f, _, Some e) => finish f (Some e)
              | (f, _, None) => finish f None
              end
          end
      end
  end.

(** [WriteMetaFile]: kept for the old interface, does nothing. *)
Definition WriteMetaFile (path : string) (meta : MetaData) : option os.error :=
  None.

End recorder.

(** ** Package [internal/config] *)

Module config.

Record ChaosRule : Type := mkChaosRule {
  Model : string;
  Rate : Q;
  Action : string;
  Delay : Z;
  StatusCode : Z;
  Message : string
}.

Record Config : Type := mkConfig {
  ServerPort : string;
  MonitorPort : string;
  UpstreamBaseURL : string;
  UpstreamApiKey : string;
  DebugOutputDir : string;
  DebugMaskKey : bool;
  ChaosEnabled : bool;
  ChaosRules : list ChaosRule
}.

End config.

(** ** Package [internal/chaos] *)

Module chaos.

Class Lib : Type := {
  strings_EqualFold : string -> string -> bool
}.

Record Result : Type := mkResult {
  ShouldInject : bool;
  Action : string;
  Delay : Z;
  StatusCode : Z;
  Message : string;
  RuleDescription : string
}.

Record Manager : Type := mkManager {
  cfg : config.Config
}.

Definition New (cfg : config.Config) : Manager := {| cfg := cfg |}.

(** [Result{ShouldInject: false}] *)
Definition noInject : Result :=
  {| ShouldInject := false; Action := ""; Delay := 0; StatusCode := 0;
     Message := ""; RuleDescription := "" |}.

(** [x < y] on the rationals that stand for [float64] probabilities. *)
Definition Qltb (x y : Q) : bool :=
  (Qnum x * Z.pos (Qden y) <? Qnum y * Z.pos (Qden x))%Z.

(** The loop over the rules. [rand i] is the [i]-th value [rand.Float64()]
    returns; the index of the next draw is returned with the result. *)
Fixpoint evalRules `{Lib} (rules : list config.ChaosRule) (modelName : string)
    (rand : nat -> Q) (i : nat) : Result * nat :=
  match rules with
  | [] => (noInject, i)
  | rule :: rest =>
      if negb (String.eqb (config.Model rule) "*")
         && negb (strings_EqualFold (config.Model rule) modelName)
      then evalRules rest modelName rand i
      else if Qltb (rand i) (config.Rate rule) then
        let res :=
          {| ShouldInject := true;
             Action := config.Action rule;
             Delay := config.Delay rule;
             StatusCode := config.StatusCode rule;
             Message := config.Message rule;
             RuleDescription :=
               ("Rule[Model=" ++ config.Model rule ++ ", Action="
                  ++ config.Action rule ++ "]")%string |} in
        let res :=
          if String.eqb (Action res) "error" && (StatusCode res =? 0)
          then {| ShouldInject := ShouldInject res; Action := Action res;
                  Delay := Delay res; StatusCode := 500;
                  Message := Message res;
                  RuleDescription := RuleDescription res |}
          else res in
        let res :=
          if String.eqb (Action res) "error" && String.eqb (Message res) ""
          then {| ShouldInject := ShouldInject res; Action := Action res;
                  Delay := Delay res; StatusCode := StatusCode res;
                  Message := "Chaos Injection Error";
                  RuleDescription := RuleDescription res |}
          else res in
        (res, S i)
      else evalRules rest modelName rand (S i)
  end.

(** [(m *Manager) Evaluate(modelName)] *)
Definition Evaluate `{Lib} (m : Manager) (modelName : string)
    (rand : nat -> Q) (i : nat) : Result * nat :=
  if negb (config.ChaosEnabled (cfg m)) then (noInject, i)
  else evalRules (config.ChaosRules (cfg m)) modelName rand i.

End chaos.

(** ** Package [internal/proxy] *)

Module proxy.

(** What the package takes from Go's standard library. *)
Class Lib : Type := {
  (** [json.Unmarshal(body, &payload)] for
      [payload map[string]interface{}]: [None] on error. *)
  json_Unmarshal_payload : list byte -> option (gmap string json.value);
  (** [json.Marshal(payload)]: [None] on error. *)
  json_Marshal_payload : gmap string json.value -> option (list byte);
  (** [strings.TrimSpace] *)
  strings_TrimSpace : list byte -> list byte;
  (** [json.Unmarshal(line, &chunkObj)] for
      [chunkObj struct{Usage *UsageInfo}]: [None] on error, otherwise
      [chunkObj.Usage] ([None] for [nil]). *)
  json_Unmarshal_chunk : list byte -> option (option recorder.UsageInfo);
  (** [json.Unmarshal(jsonStr, &u)] for [u UsageInfo]: [None] on error. *)
  json_Unmarshal_usage : list byte -> option recorder.UsageInfo;
  (** [textproto.CanonicalMIMEHeaderKey] *)
  textproto_CanonicalMIMEHeaderKey : string -> string
}.

(** *** [ensureStreamOptions] *)

(** The body is put back by the deferred
    [req.Body = io.NopCloser(bytes.NewBuffer(bodyBytes))]. *)
Definition restoreBody (req : http.Request) (bodyBytes : list byte)
  : http.Request :=
  http.withBody req (io.NopCloser bodyBytes).

(** Step 5 of [ensureStreamOptions]: the payload after the injection, and
    whether it was changed. *)
Definition injectStreamOptions (payload : gmap string json.value)
  : gmap string json.value * bool :=
  match payload !! "stream_options"%string with
  | Some (json.Object opts) =>
      match opts !! "include_usage"%string with
      | Some (json.Bool true) => (payload, false)
      | _ =>
          (<["stream_options"%string :=
               json.Object (<["include_usage"%string := json.Bool true]> opts)]>
             payload, true)
      end
  | _ =>
      (<["stream_options"%string :=
           json.Object {["include_usage"%string := json.Bool true]}]> payload,
       true)
  end.

Definition ensureStreamOptions `{Lib} (req : http.Request) : http.Request :=
  (* 1. only a POST with a JSON content type *)
  if negb (String.eqb (http.Method req) "POST")
     || negb (strings.Contains
                (http.Get (http.ReqHeader req) "Content-Type")
                "application/json")
  then req
  else
    (* 2. read the body *)
    let '(bodyBytes, err, drained) := io.ReadAll (http.Body req) in
    if err then http.withBody req drained
    else
      (* 3. parse *)
      match json_Unmarshal_payload bodyBytes with
      | None => restoreBody req bodyBytes
      | Some payload =>
          (* 4. the stream field *)
          match payload !! "stream"%string with
          | Some (json.Bool true) =>
              (* 5. inject *)
              let '(payload, updated) := injectStreamOptions payload in
              (* 6. serialize again *)
              if updated then
                match json_Marshal_payload payload with
                | Some newBytes =>
                    let n := Z.of_nat (length newBytes) in
                    let req := http.withContentLength req n in
                    let req :=
                      http.withHeader req
                        (http.Set_ (http.ReqHeader req) "Content-Length"
                           (strings.itoa n)) in
                    restoreBody req newBytes
                | None => restoreBody req bodyBytes
                end
              else restoreBody req bodyBytes
          | _ => restoreBody req bodyBytes
          end
      end.

(** *** [UsageSniffer] *)

Module UsageSniffer.

(** The sniffer's own state. Its [File], [Count] and [Usage] fields point
    into the request's [LogInfo]; the methods below take and return that
    [LogInfo]. [Source] is the upstream body, whose reads the caller
    supplies. *)
Record t : Type := mk {
  IsStream : bool;
  lineBuf : list byte;
  tailBuf : list byte
}.

Definition usageKey : list byte :=
  bytes.DQUOTE :: bytes.of_string "usage" ++ [bytes.DQUOTE].

Definition dataPrefix : list byte := bytes.of_string "data:".

Definition maxLineBuf : nat := 64 * 1024.

(** The body of the [for] loop of [sniffStream] for one line. *)
Definition sniffLine `{Lib} (line : list byte) (usage : recorder.UsageInfo)
  : recorder.UsageInfo :=
  if negb (bytes.Contains line usageKey) then usage
  else if bytes.HasPrefix line dataPrefix then
    let jsonStr := strings_TrimSpace (bytes.TrimPrefix line dataPrefix) in
    match json_Unmarshal_chunk jsonStr with
    | Some (Some chunkUsage) =>
        if 0 <? recorder.TotalTokens chunkUsage then chunkUsage else usage
    | _ => usage
    end
  else usage.

(** The [for] loop of [sniffStream]; every turn removes at least the line
    feed it found, so [S (length lineBuf)] turns are enough
    (see [sniffLoop_exits]). *)
Fixpoint sniffLoop `{Lib} (fuel : nat) (lineBuf : list byte)
    (usage : recorder.UsageInfo) : list byte * recorder.UsageInfo :=
  match fuel with
  | O => (lineBuf, usage)
  | S fuel =>
      match bytes.IndexByte lineBuf bytes.LF with
      | None => (lineBuf, usage)
      | Some idx =>
          let line := take idx lineBuf in
          let lineBuf := drop (idx + 1) lineBuf in
          sniffLoop fuel lineBuf (sniffLine line usage)
      end
  end.

(** The cap on the line buffer. *)
Definition capLineBuf (lineBuf : list byte) : list byte :=
  if (maxLineBuf <? length lineBuf)%nat then
    take maxLineBuf
      (bytes.copy lineBuf (drop (length lineBuf - maxLineBuf) lineBuf))
  else lineBuf.

Definition sniffStream `{Lib} (s : t) (usage : recorder.UsageInfo)
    (chunk : list byte) : t * recorder.UsageInfo :=
  let lineBuf := capLineBuf (lineBuf s ++ chunk) in
  let '(lineBuf, usage) := sniffLoop (S (length lineBuf)) lineBuf usage in
  ({| IsStream := IsStream s; lineBuf := lineBuf; tailBuf := tailBuf s |},
   usage).

Definition sniffNonStream (s : t) (chunk : list byte) : t :=
  let maxBuf := 4096%nat in
  let tail :=
    if (maxBuf <? length (tailBuf s) + length chunk)%nat then
      let combined := tailBuf s ++ chunk in
      let start := (Z.of_nat (length combined) - Z.of_nat maxBuf)%Z in
      let start := if (start <? 0)%Z then 0%Z else start in
      drop (Z.to_nat start) combined
    else tailBuf s ++ chunk in
  {| IsStream := IsStream s; lineBuf := lineBuf s; tailBuf := tail |}.

(** The brace-matching loop of [extractUsageFromTail]. It ranges over
    runes; the two runes it looks for are single bytes that occur in no
    multi-byte sequence, and [i] is a byte index, so the loop is the same
    over bytes. *)
Fixpoint matchBrace (jsonPart : list byte) (i : nat) (depth : Z)
  : option nat :=
  match jsonPart with
  | [] => None
  | r :: rest =>
      if Byte.eqb r bytes.LBRACE then matchBrace rest (S i) (depth + 1)
      else if Byte.eqb r bytes.RBRACE then
        let depth := depth - 1 in
        if depth =? 0 then Some (i + 1)%nat
        else matchBrace rest (S i) depth
      else matchBrace rest (S i) depth
  end.

Definition extractUsageFromTail `{Lib} (data : list byte)
    (target : recorder.UsageInfo) : recorder.UsageInfo :=
  if (length data =? 0)%nat then target
  else
    match bytes.LastIndex data usageKey with
    | None => target
    | Some idx =>
        let segment := drop idx data in
        match bytes.Index segment [bytes.LBRACE] with
        | None => target
        | Some startBrace =>
            let jsonPart := drop startBrace segment in
            match matchBrace jsonPart 0 0 with
            | None => target
            | Some endBrace =>
                let jsonStr := take endBrace jsonPart in
                match json_Unmarshal_usage jsonStr with
                | Some u =>
                    if 0 <? recorder.TotalTokens u then u else target
                | None => target
                end
            end
        end
    end.

(** [(s *UsageSniffer) Read(p)] when [s.Source.Read(p)] delivered [data]
    ([n = len(data)]). *)
Definition Read `{Lib} (s : t) (info : recorder.LogInfo) (data : list byte)
  : t * recorder.LogInfo :=
  if (0 <? length data)%nat then
    (* 1. write to the log file and count *)
    let info :=
      match recorder.File info with
      | Some f =>
          let '(f, written, wErr) := os.Write f data in
          let info := recorder.withFile info (Some f) in
          match wErr with
          | None =>
              let l := recorder.Layout (recorder.Header info) in
              recorder.withLayout info
                {| recorder.ReqHeaderLen := recorder.ReqHeaderLen l;
                   recorder.ReqBodyLen := recorder.ReqBodyLen l;
                   recorder.ResHeaderLen := recorder.ResHeaderLen l;
                   recorder.ResBodyLen :=
                     recorder.ResBodyLen l + Z.of_nat written;
                   recorder.IsStream := recorder.IsStream l |}
          | Some _ => info
          end
      | None => info
      end in
    (* 2. sniff the usage *)
    if IsStream s then
      let '(s, usage) :=
        sniffStream s (recorder.Usage (recorder.Header info)) data in
      (s, recorder.withUsage info usage)
    else (sniffNonStream s data, info)
  else (s, info).

(** [(s *UsageSniffer) Close()] *)
Definition Close `{Lib} (s : t) (info : recorder.LogInfo)
  : recorder.LogInfo :=
  if negb (IsStream s)
     && (recorder.TotalTokens (recorder.Usage (recorder.Header info)) =? 0)
  then
    recorder.withUsage info
      (extractUsageFromTail (tailBuf s)
         (recorder.Usage (recorder.Header info)))
  else info.

End UsageSniffer.

(** *** [InstrumentedResponseWriter] *)

Module InstrumentedResponseWriter.

Record t : Type := mk {
  w : http.ResponseWriter;
  statusCode : Z;
  bytesWritten : Z;
  startTime : Z;
  ttft : Z;
  firstByte : bool
}.

(** [(rw) WriteHeader(code)] *)
Definition WriteHeader (rw : t) (code : Z) : t :=
  {| w := http.WriteHeader (w rw) code;
     statusCode := code;
     bytesWritten := bytesWritten rw;
     startTime := startTime rw;
     ttft := ttft rw;
     firstByte := firstByte rw |}.

(** [(rw) Write(b)]; [now] is the clock, in milliseconds, when the call is
    made. *)
Definition Write (rw : t) (now : Z) (b : list byte) : t * nat * bool :=
  let '(ttft, firstByte) :=
    if firstByte rw then (now - startTime rw, false)
    else (ttft rw, firstByte rw) in
  let '(w, n, err) := http.ResponseWriter_Write (w rw) b in
  ({| w := w;
      statusCode := statusCode rw;
      bytesWritten := bytesWritten rw + Z.of_nat n;
      startTime := startTime rw;
      ttft := ttft;
      firstByte := firstByte |}, n, err).

(** [(rw) Flush()]: the server's writer is an [http.Flusher]. *)
Definition Flush (rw : t) : t :=
  {| w := http.Flush (w rw);
     statusCode := statusCode rw;
     bytesWritten := bytesWritten rw;
     startTime := startTime rw;
     ttft := ttft rw;
     firstByte := firstByte rw |}.

(** [(rw) GetMetrics()] *)
Definition GetMetrics (rw : t) : Z * Z * Z :=
  (statusCode rw, bytesWritten rw, ttft rw).

End InstrumentedResponseWriter.

Definition NewInstrumentedResponseWriter (w : http.ResponseWriter) (now : Z)
  : InstrumentedResponseWriter.t :=
  {| InstrumentedResponseWriter.w := w;
     InstrumentedResponseWriter.statusCode := 200;
     InstrumentedResponseWriter.bytesWritten := 0;
     InstrumentedResponseWriter.startTime := now;
     InstrumentedResponseWriter.ttft := -1;
     InstrumentedResponseWriter.firstByte := true |}.

(** *** The handler *)

(** [Handler]; its [proxy] field is the [httputil.ReverseProxy] whose
    behaviour is [reverseProxy] below, [targetHost] is [targetURL.Host]. *)
Record Handler : Type := mkHandler {
  recorder_ : recorder.Recorder;
  chaosManager : chaos.Manager;
  cfg : config.Config;
  targetHost : string
}.

(** [NewHandler(cfg)]: [None] when [url.Parse] rejects the base URL. *)
Definition NewHandler `{recorder.Lib} (cfg : config.Config) : option Handler :=
  match recorder.url_Parse_host (config.UpstreamBaseURL cfg) with
  | None => None
  | Some host =>
      Some {| recorder_ := recorder.New (config.DebugOutputDir cfg)
                             (config.DebugMaskKey cfg);
              chaosManager := chaos.New cfg;
              cfg := cfg;
              targetHost := host |}
  end.

(** [rp.Director]: the header and host rewrites (the URL rewrite of
    [NewSingleHostReverseProxy] is left to the [server] of the world). *)
Definition Director (h : Handler) (req : http.Request) : http.Request :=
  let hd := http.ReqHeader req in
  let hd :=
    http.Set_ hd "Authorization"
      ("Bearer " ++ config.UpstreamApiKey (cfg h))%string in
  let hd := http.Set_ hd "Accept-Encoding" "identity" in
  {| http.Method := http.Method req; http.ReqURL := http.ReqURL req;
     http.RequestURI := http.RequestURI req;
     http.ProtoMajor := http.ProtoMajor req;
     http.ProtoMinor := http.ProtoMinor req;
     http.Host := targetHost h;
     http.TransferEncoding := http.TransferEncoding req;
     http.ReqHeader := hd; http.Body := http.Body req;
     http.ContentLength := http.ContentLength req;
     http.RemoteAddr := http.RemoteAddr req |}.

(** [logInfo.File.Write(b)] where the result may be dropped: a [nil]
    handle writes nothing. *)
Definition fileWrite (info : recorder.LogInfo) (b : list byte)
  : recorder.LogInfo * nat :=
  match recorder.File info with
  | Some f =>
      let '(f, n, _) := os.Write f b in
      (recorder.withFile info (Some f), n)
  | None => (info, 0%nat)
  end.

(** The test for a streamed response in [rp.ModifyResponse]. *)
Definition isStreamResponse (resp : http.Response) : bool :=
  strings.Contains (http.Get (http.RespHeader resp) "Content-Type")
    "text/event-stream"
  || String.eqb (http.Get (http.RespHeader resp) "Transfer-Encoding")
       "chunked".

(** [rp.ModifyResponse(resp)]; [ctx] is the [LogInfo] found in the
    request context ([None] when the lookup fails or gives [nil]). The
    result is the [LogInfo] after the call and the sniffer that now wraps
    [resp.Body]; [None] when the response is left as it is. *)
Definition ModifyResponse (resp : http.Response)
    (ctx : option recorder.LogInfo)
  : option (recorder.LogInfo * UsageSniffer.t) :=
  match ctx with
  | None => None
  | Some logInfo =>
      (* 1. the delimiter *)
      let '(logInfo, _) := fileWrite logInfo [bytes.LF] in
      (* 2. the response header *)
      let headerBuf :=
        bytes.of_string (http.Proto resp ++ " " ++ http.Status resp)
          ++ http.CRLF ++ http.Write (http.RespHeader resp) ++ http.CRLF in
      let '(logInfo, n) := fileWrite logInfo headerBuf in
      let l := recorder.Layout (recorder.Header logInfo) in
      let l :=
        {| recorder.ReqHeaderLen := recorder.ReqHeaderLen l;
           recorder.ReqBodyLen := recorder.ReqBodyLen l;
           recorder.ResHeaderLen := Z.of_nat n;
           recorder.ResBodyLen := recorder.ResBodyLen l;
           recorder.IsStream := recorder.IsStream l |} in
      (* 3. stream or not *)
      let isStream := isStreamResponse resp in
      let l :=
        if isStream then
          {| recorder.ReqHeaderLen := recorder.ReqHeaderLen l;
             recorder.ReqBodyLen := recorder.ReqBodyLen l;
             recorder.ResHeaderLen := recorder.ResHeaderLen l;
             recorder.ResBodyLen := recorder.ResBodyLen l;
             recorder.IsStream := true |}
        else l in
      (* 4. the body is now read through the sniffer *)
      Some (recorder.withLayout logInfo l,
            {| UsageSniffer.IsStream := isStream;
               UsageSniffer.lineBuf := [];
               UsageSniffer.tailBuf := [] |})
  end.

(** [http.Error(w, msg, code)] on the instrumented writer. *)
Definition httpError (rw : InstrumentedResponseWriter.t) (now : Z)
    (msg : string) (code : Z) : InstrumentedResponseWriter.t :=
  let rw := InstrumentedResponseWriter.WriteHeader rw code in
  (InstrumentedResponseWriter.Write rw now
     (bytes.of_string msg ++ [bytes.LF])).1.1.

(** [rp.ErrorHandler(w, r, err)] *)
Definition ErrorHandler (rw : InstrumentedResponseWriter.t) (now : Z)
    (ctx : option recorder.LogInfo) (err : string)
  : InstrumentedResponseWriter.t * option recorder.LogInfo :=
  let ctx :=
    match ctx with
    | Some logInfo =>
        Some (recorder.withFile logInfo
                (match recorder.File logInfo with
                 | Some f => Some (os.Close f).1
                 | None => None
                 end))
    | None => None
    end in
  (httpError rw now ("Proxy Error: " ++ err) 502, ctx).

(** What a round trip gives. *)
Inductive RoundTripResult : Type :=
| Served (resp : http.Response)
| Failed (err : string).

(** The surroundings of one request: the file system and the clock of
    [PrepareLogFile], the clock in milliseconds at the successive instants
    it is read ([0]: entry, [1]: creation of the instrumented writer, then
    one per write to the client, then the deferred finalization), the
    values [rand.Float64()] returns, and the upstream server as
    [transport.RoundTrip] reports it: for a request, a final response
    other than [101 Switching Protocols], or an error. *)
Record World : Type := mkWorld {
  fileEnv : recorder.Env;
  clock : nat -> Z;
  rand : nat -> Q;
  server : http.Request -> RoundTripResult
}.

(** The round trip as the hooks of the reverse proxy see it:
    [transport.RoundTrip(outreq)], an error going to the error handler,
    and then [removeHopByHopHeaders(res.Header)], which
    [ReverseProxy.ServeHTTP] applies before it calls [ModifyResponse]. *)
Definition upstream `{Lib} (world : World) (outreq : http.Request)
  : RoundTripResult :=
  match server world outreq with
  | Served res =>
      Served (http.withRespHeader res
                (httputil.removeHopByHopHeaders
                   textproto_CanonicalMIMEHeaderKey (http.RespHeader res)))
  | Failed err => Failed err
  end.

(** [ReverseProxy.copyResponse]: every read of the (sniffed) body is
    written to the client; a failed or short write ends the copy. *)
Fixpoint copyResponse `{Lib} (reads : list (list byte))
    (s : UsageSniffer.t) (info : recorder.LogInfo)
    (rw : InstrumentedResponseWriter.t) (clock : nat -> Z) (tick : nat)
  : UsageSniffer.t * recorder.LogInfo * InstrumentedResponseWriter.t * nat :=
  match reads with
  | [] => (s, info, rw, tick)
  | data :: rest =>
      let '(s, info) := UsageSniffer.Read s info data in
      if (0 <? length data)%nat then
        let '(rw, nw, werr) :=
          InstrumentedResponseWriter.Write rw (clock tick) data in
        if werr || negb (nw =? length data)%nat then (s, info, rw, S tick)
        else copyResponse rest s info rw clock (S tick)
      else copyResponse rest s info rw clock tick
  end.

(** The same copy when [ModifyResponse] left the body unwrapped. *)
Fixpoint copyPlain (reads : list (list byte))
    (rw : InstrumentedResponseWriter.t) (clock : nat -> Z) (tick : nat)
  : InstrumentedResponseWriter.t * nat :=
  match reads with
  | [] => (rw, tick)
  | data :: rest =>
      if (0 <? length data)%nat then
        let '(rw, nw, werr) :=
          InstrumentedResponseWriter.Write rw (clock tick) data in
        if werr || negb (nw =? length data)%nat then (rw, S tick)
        else copyPlain rest rw clock (S tick)
      else copyPlain rest rw clock tick
  end.

(** [ReverseProxy.ServeHTTP(rw, req)] with the hooks installed by
    [NewHandler]: the director, the round trip, then either the error
    handler or, on the response without its hop-by-hop headers
    ([upstream]), [ModifyResponse], the status line, the copy of the body
    and the [Close] of the body. The request is kept as the director
    leaves it: what the reverse proxy does to its header after the
    director (hop-by-hop headers, [X-Forwarded-For], [User-Agent]) and
    protocol upgrades are outside this model. *)
Definition reverseProxy `{Lib} (h : Handler)
    (rw : InstrumentedResponseWriter.t) (req : http.Request)
    (ctx : option recorder.LogInfo) (world : World) (tick : nat)
  : InstrumentedResponseWriter.t * option recorder.LogInfo
    * list http.Request * nat :=
  let outreq := Director h req in
  match upstream world outreq with
  | Failed err =>
      let '(rw, ctx) := ErrorHandler rw (clock world tick) ctx err in
      (rw, ctx, [outreq], S tick)
  | Served resp =>
      match ModifyResponse resp ctx with
      | None =>
          let rw :=
            InstrumentedResponseWriter.WriteHeader rw (http.StatusCode resp) in
          let '(rw, tick) :=
            copyPlain (http.RespBody resp) rw (clock world) tick in
          (rw, ctx, [outreq], tick)
      | Some (logInfo, sniffer) =>
          let rw :=
            InstrumentedResponseWriter.WriteHeader rw (http.StatusCode resp) in
          let '(sniffer, logInfo, rw, tick) :=
            copyResponse (http.RespBody resp) sniffer logInfo rw
              (clock world) tick in
          let logInfo := UsageSniffer.Close sniffer logInfo in
          (rw, Some logInfo, [outreq], tick)
      end
  end.

(** What [ServeHTTP] leaves behind. *)
Record Outcome : Type := mkOutcome {
  client : http.ResponseWriter;          (* what was sent to the client *)
  logInfo : option recorder.LogInfo;     (* the session, after finalization *)
  forwarded : list http.Request;         (* the requests handed on by
                                            the director, one per round
                                            trip *)
  slept : list Z;                        (* the [time.Sleep] calls *)
  updateErr : option os.error            (* the result of [UpdateLogFile] *)
}.

(** The deferred function of [ServeHTTP]. *)
Definition finalize `{recorder.Lib} (logInfo : recorder.LogInfo)
    (irw : InstrumentedResponseWriter.t) (duration : Z)
  : recorder.LogInfo * option os.error :=
  let '(code, written, ttft) := InstrumentedResponseWriter.GetMetrics irw in
  let m := recorder.Meta (recorder.Header logInfo) in
  let logInfo :=
    recorder.withMeta logInfo
      {| recorder.RequestID := recorder.RequestID m;
         recorder.Time := recorder.Time m;
         recorder.Model := recorder.Model m;
         recorder.URL := recorder.URL m;
         recorder.Method := recorder.Method m;
         recorder.StatusCode := code;
         recorder.DurationMs := duration;
         recorder.TTFTMs := ttft;
         recorder.ClientIP := recorder.ClientIP m;
         recorder.ContentLength := written;
         recorder.Error := recorder.Error m |} in
  recorder.UpdateLogFile logInfo.

(** [(h *Handler) ServeHTTP(w, r)] *)
Definition ServeHTTP `{recorder.Lib} `{chaos.Lib} `{Lib} (h : Handler)
    (w : http.ResponseWriter) (r : http.Request) (world : World) : Outcome :=
  let start := clock world 0 in
  (* step 1: inject stream_options *)
  let r := ensureStreamOptions r in
  (* step 2: prepare the log *)
  let '(r, prepared) :=
    recorder.PrepareLogFile (recorder_ h) r
      (config.UpstreamBaseURL (cfg h)) (fileEnv world) in
  match prepared with
  | inr _ =>
      let w := http.WriteHeader w 500 in
      let '(w, _, _) :=
        http.ResponseWriter_Write w
          (bytes.of_string "Internal Logging Error" ++ [bytes.LF]) in
      {| client := w; logInfo := None; forwarded := []; slept := [];
         updateErr := None |}
  | inl logInfo =>
      let irw := NewInstrumentedResponseWriter w (clock world 1) in
      (* the chaos logic: only the delay is acted upon *)
      let '(chaosRes, _) :=
        chaos.Evaluate (chaosManager h)
          (recorder.Model (recorder.Meta (recorder.Header logInfo)))
          (rand world) 0 in
      let slept :=
        if chaos.ShouldInject chaosRes then
          if String.eqb (chaos.Action chaosRes) "delay"
          then [chaos.Delay chaosRes] else []
        else [] in
      (* the request goes to the reverse proxy *)
      let '(irw, ctx, forwarded, tick) :=
        reverseProxy h irw r (Some logInfo) world 2 in
      (* the deferred finalization; [logInfo] is a pointer, so it sees
         what the proxy did to the session *)
      let logInfo := match ctx with Some i => i | None => logInfo end in
      let '(logInfo, uErr) :=
        finalize logInfo irw (clock world tick - start) in
      {| client := InstrumentedResponseWriter.w irw;
         logInfo := Some logInfo;
         forwarded := forwarded;
         slept := slept;
         updateErr := uErr |}
  end.

End proxy.

(** ** Package [pkg/replay] *)

Module replay.

(** [HeaderLen] must agree with the recorder's. *)
Definition HeaderLen : nat := 2048.

(** [fileHeader]: only the layout is needed. *)
Record fileHeader : Type := mkFileHeader {
  Version : string;
  ReqHeaderLen : Z;
  ReqBodyLen : Z;
  ResHeaderLen : Z;
  ResBodyLen : Z
}.

Class Lib : Type := {
  (** [json.Unmarshal(data, &meta)] for [meta fileHeader]: [None] on error. *)
  json_Unmarshal_fileHeader : list byte -> option fileHeader;
  (** [http.ReadResponse(bufio.NewReader(f), req)] on the bytes the reader
      will see: [None] on error. *)
  http_ReadResponse : list byte -> option http.Response
}.

Record Transport : Type := mkTransport {
  Filename : string
}.

Definition NewTransport (filename : string) : Transport :=
  {| Filename := filename |}.

(** The errors [RoundTrip] returns, by the step that failed. *)
Inductive error : Type :=
| ErrOpen
| ErrReadHeaderBlock
| ErrNoNewline
| ErrHeaderJSON
| ErrSeek
| ErrParseResponse.

(** [int64] arithmetic wraps around. *)
Definition wrap64 (z : Z) : Z := (z + 2 ^ 63) mod 2 ^ 64 - 2 ^ 63.

(** [(t *Transport) RoundTrip(req)]; [fs] maps the paths of the files that
    exist to their contents. *)
Definition RoundTrip `{Lib} (t : Transport) (fs : gmap string (list byte))
  : http.Response + error :=
  (* 1. open the record file *)
  match fs !! Filename t with
  | None => inr ErrOpen
  | Some content =>
      let f := {| os.data := content; os.offset := 0%nat;
                  os.closed := false; os.faults := [] |} in
      (* 2. read and parse the header block *)
      match os.ReadFull f HeaderLen with
      | (_, inr _) => inr ErrReadHeaderBlock
      | (f, inl headerData) =>
          match bytes.IndexByte headerData bytes.LF with
          | None => inr ErrNoNewline
          | Some idx =>
              match json_Unmarshal_fileHeader (take idx headerData) with
              | None => inr ErrHeaderJSON
              | Some meta =>
                  (* 3. where the response starts *)
                  let respOffset :=
                    wrap64 (wrap64 (wrap64 (Z.of_nat HeaderLen
                                            + ReqHeaderLen meta)
                                    + ReqBodyLen meta) + 1) in
                  (* 4. seek *)
                  match os.Seek f respOffset with
                  | (_, Some _) => inr ErrSeek
                  | (f, None) =>
                      (* 5. parse the response *)
                      match http_ReadResponse (os.remaining f) with
                      | None => inr ErrParseResponse
                      | Some resp => inl resp
                      end
                  end
              end
          end
      end
  end.

End replay.

(** ** Package [internal/monitor]

    Go strings and byte slices are both byte sequences here. *)

Module monitor.

Record ToolCall : Type := mkToolCall {
  ID : list byte;
  Type_ : list byte;
  FunctionName : list byte;
  Arguments : list byte
}.

Record ChatMessage : Type := mkChatMessage {
  Role : list byte;
  Content : list byte;
  ToolCalls : list ToolCall;
  ToolCallID : list byte;
  Name : list byte
}.

(** [chatRequest]; [Input] is an [interface{}], [json.Null] for [nil]. *)
Record chatRequest : Type := mkChatRequest {
  Messages : list ChatMessage;
  Input : json.value;
  Query : list byte;
  Documents : list (list byte)
}.

Record ParsedData : Type := mkParsedData {
  Header : recorder.RecordHeader;
  ReqFull : list byte;
  ResFull : list byte;
  ChatMessages : list ChatMessage;
  AIContent : list byte;
  AIReasoning : list byte
}.

Record LogStats : Type := mkLogStats {
  TotalRequest : Z;
  AvgTTFT : Z;
  TotalTokens : Z;
  SuccessRequest : Z;
  FailedRequest : Z;
  SuccessRate : Q
}.

Record LogEntry : Type := mkLogEntry {
  RecordHeader : recorder.RecordHeader;
  LogPath : string
}.

Record ListData : Type := mkListData {
  Logs : list LogEntry;
  Stats : LogStats
}.

(** What the package takes from Go's standard library. *)
Class Lib : Type := {
  (** [json.Unmarshal(line, &header)] for [header recorder.RecordHeader]:
      [None] on error. *)
  json_Unmarshal_header : list byte -> option recorder.RecordHeader;
  (** [json.Unmarshal(body, &reqRaw)] for [reqRaw chatRequest]. *)
  json_Unmarshal_chatRequest : list byte -> option chatRequest;
  (** [json.Unmarshal(data, &resp)] for the completion: [None] on error,
      otherwise [Message.Content] and [Message.ReasoningContent] of each
      choice. *)
  json_Unmarshal_completion : list byte -> option (list (list byte * list byte));
  (** [json.Unmarshal(jsonStr, &chunk)] for a streamed chunk: [None] on
      error, otherwise [Delta.Content] and [Delta.ReasoningContent] of each
      choice ([None] for a [nil] pointer). *)
  json_Unmarshal_delta :
    list byte -> option (list (option (list byte) * option (list byte)));
  (** [strings.TrimSpace] *)
  strings_TrimSpace : list byte -> list byte;
  (** [json.MarshalIndent(input, "", "  ")], empty on error. *)
  json_MarshalIndent : json.value -> list byte;
  (** [sort.Slice(entries, less)] *)
  sort_Slice : (LogEntry -> LogEntry -> bool) -> list LogEntry -> list LogEntry
}.

(** [int64] and, on a 64-bit platform, [int] arithmetic wraps around. *)
Definition wrap64 (z : Z) : Z := (z + 2 ^ 63) mod 2 ^ 64 - 2 ^ 63.

(** The outcome of a call that can return an error or panic. *)
Inductive error : Type :=
| ErrHeaderLine     (* failed to read header line *)
| ErrHeaderJSON.    (* invalid header json *)

Inductive outcome (A : Type) : Type :=
| Ok (a : A)
| Err (e : error)
| Panic.            (* slice bounds out of range *)

Arguments Ok {A} a.
Arguments Err {A} e.
Arguments Panic {A}.

(** The slice expression [s[lo:hi]] with [hi <= len(s)] (so that the
    capacity of [s] plays no part): [None] is the run-time panic. *)
Definition slice (s : list byte) (lo hi : Z) : option (list byte) :=
  if (0 <=? lo) && (lo <=? hi) && (hi <=? Z.of_nat (length s))
  then Some (take (Z.to_nat (hi - lo)) (drop (Z.to_nat lo) s))
  else None.

(** [strings.Join] *)
Fixpoint Join (elems : list (list byte)) (sep : list byte) : list byte :=
  match elems with
  | [] => []
  | [e] => e
  | e :: rest => e ++ sep ++ Join rest sep
  end.

(** [formatInput(input)] *)
Definition formatInput `{Lib} (input : json.value) : list byte :=
  match input with
  | json.Str v => bytes.of_string v
  | json.Array v =>
      let parts :=
        omap (fun item =>
                match item with
                | json.Str s => Some (bytes.of_string "- " ++ bytes.of_string s)
                | _ => None
                end) v in
      Join parts [bytes.LF]
  | _ => json_MarshalIndent input
  end.

(** The three emoji of the titles, in UTF-8. *)
Definition abacus : list byte := [xf0; x9f; xa7; xae].
Definition magnifier : list byte := [xf0; x9f; x94; x8d].
Definition page : list byte := [xf0; x9f; x93; x84].

(** Step 4 of [ParseLogFile]: the messages shown for the request body. *)
Definition requestMessages `{Lib} (reqBodyBytes : list byte)
  : list ChatMessage :=
  match json_Unmarshal_chatRequest reqBodyBytes with
  | Some reqRaw =>
      if (0 <? length (Messages reqRaw))%nat then Messages reqRaw
      else
        match Input reqRaw with
        | json.Null =>
            if negb (length (Query reqRaw) =? 0)%nat then
              let docList :=
                Join (Documents reqRaw) (bytes.LF :: bytes.of_string "- ") in
              let content :=
                magnifier ++ bytes.of_string " **Rerank Query**: "
                  ++ Query reqRaw ++ [bytes.LF; bytes.LF]
                  ++ page ++ bytes.of_string " **Documents**:"
                  ++ [bytes.LF] ++ bytes.of_string "- " ++ docList in
              [{| Role := bytes.of_string "user"; Content := content;
                  ToolCalls := []; ToolCallID := []; Name := [] |}]
            else []
        | input =>
            let contentStr := formatInput input in
            [{| Role := bytes.of_string "user";
                Content :=
                  abacus ++ bytes.of_string " **Embedding Input**:"
                    ++ [bytes.LF] ++ contentStr;
                ToolCalls := []; ToolCallID := []; Name := [] |}]
        end
  | None => []
  end.

(** [bufio.Scanner] with [ScanLines] and a buffer of [1024*1024] bytes
    over a [bytes.Reader]: the lines without their end-of-line marker; a
    line that does not fit the buffer ends the scan. *)
Definition maxTokenSize : Z := 1024 * 1024.

Definition dropCR (data : list byte) : list byte :=
  match last data with
  | Some b => if Byte.eqb b bytes.CR then take (length data - 1) data
              else data
  | None => data
  end.

Fixpoint scanLines (fuel : nat) (data : list byte) : list (list byte) :=
  match fuel with
  | O => []
  | S fuel =>
      match data with
      | [] => []
      | _ =>
          match bytes.IndexByte data bytes.LF with
          | Some i =>
              if Z.of_nat i <? maxTokenSize
              then dropCR (take i data) :: scanLines fuel (drop (i + 1) data)
              else []
          | None =>
              if Z.of_nat (length data) <? maxTokenSize
              then [dropCR data] else []
          end
      end
  end.

(** The body of the scanning loop of [parseAIContent] for one line. *)
Definition streamLine `{Lib} (acc : list byte * list byte)
    (text : list byte) : list byte * list byte :=
  let line := strings_TrimSpace text in
  if negb (bytes.HasPrefix line (bytes.of_string "data:")) then acc
  else
    let jsonStr := bytes.TrimPrefix line (bytes.of_string "data:") in
    if bool_decide (strings_TrimSpace jsonStr = bytes.of_string "[DONE]")
    then acc
    else
      match json_Unmarshal_delta jsonStr with
      | Some (choice :: _) =>
          let content :=
            match choice.1 with Some c => acc.1 ++ c | None => acc.1 end in
          let reasoning :=
            match choice.2 with Some r => acc.2 ++ r | None => acc.2 end in
          (content, reasoning)
      | _ => acc
      end.

(** [parseAIContent(data, isStream)] *)
Definition parseAIContent `{Lib} (data : list byte) (isStream : bool)
  : list byte * list byte :=
  if (length data =? 0)%nat then ([], [])
  else if negb isStream then
    match json_Unmarshal_completion data with
    | Some (choice :: _) => choice
    | _ => ([], [])
    end
  else foldl streamLine ([], []) (scanLines (S (length data)) data).

(** [ParseLogFile(content)] *)
Definition ParseLogFile `{Lib} (content : list byte) : outcome ParsedData :=
  (* 1. the first line is the header *)
  match bytes.IndexByte content bytes.LF with
  | None => Err ErrHeaderLine
  | Some i =>
      let line1 := take (i + 1) content in
      match json_Unmarshal_header line1 with
      | None => Err ErrHeaderJSON
      | Some header =>
          let len := Z.of_nat (length content) in
          let l := recorder.Layout header in
          (* 2. the request *)
          let baseOffset := Z.of_nat recorder.HeaderLen in
          let reqEndOffset :=
            wrap64 (wrap64 (baseOffset + recorder.ReqHeaderLen l)
                    + recorder.ReqBodyLen l) in
          let reqEndOffset :=
            if len <? reqEndOffset then len else reqEndOffset in
          let reqBodyStart := wrap64 (baseOffset + recorder.ReqHeaderLen l) in
          match slice content reqBodyStart reqEndOffset with
          | None => Panic
          | Some reqBodyBytes =>
              (* 3. the response *)
              let resStartOffset := wrap64 (reqEndOffset + 1) in
              let resBody :=
                if resStartOffset <? len then
                  let resBodyStart :=
                    wrap64 (resStartOffset + recorder.ResHeaderLen l) in
                  if resBodyStart <? len
                  then slice content resBodyStart len
                  else Some []
                else Some [] in
              match resBody with
              | None => Panic
              | Some resBodyBytes =>
                  (* 4. the request messages *)
                  let messages := requestMessages reqBodyBytes in
                  (* 5. the answer *)
                  let '(contentStr, reasoningStr) :=
                    parseAIContent resBodyBytes (recorder.IsStream l) in
                  match slice content 0 reqEndOffset,
                        slice content resStartOffset len with
                  | Some reqFull, Some resFull =>
                      Ok {| Header := header;
                            ReqFull := reqFull;
                            ResFull := resFull;
                            ChatMessages := messages;
                            AIContent := contentStr;
                            AIReasoning := reasoningStr |}
                  | _, _ => Panic
                  end
              end
          end
      end
  end.

(** What [filepath.Walk] hands to the callback of [ScanLogs], in the
    order of the walk: the path, [info.Name()], [info.IsDir()], whether
    [err] is set, and the contents [os.Open] gives access to ([None] when
    the file cannot be opened). *)
Record WalkItem : Type := mkWalkItem {
  path : string;
  name : string;
  isDir : bool;
  walkErr : bool;
  file : option (list byte)
}.

(** [r.ReadString('\n')] with its error dropped: the first line with its
    line feed, or everything when there is no line feed. *)
Definition firstLine (content : list byte) : list byte :=
  match bytes.IndexByte content bytes.LF with
  | Some i => take (i + 1) content
  | None => content
  end.

(** The callback of the walk. *)
Definition visit `{Lib} (entries : list LogEntry) (item : WalkItem)
  : list LogEntry :=
  if negb (walkErr item) && negb (isDir item)
     && strings.HasSuffix (name item) ".http"
  then
    match file item with
    | Some content =>
        match json_Unmarshal_header (firstLine content) with
        | Some header =>
            entries ++ [{| RecordHeader := header; LogPath := path item |}]
        | None => entries
        end
    | None => entries
    end
  else entries.

(** The loop over the entries: [success], [failed], [totalToken],
    [totalTTFT]. *)
Definition count (acc : Z * Z * Z * Z) (e : LogEntry) : Z * Z * Z * Z :=
  let '(success, failed, totalToken, totalTTFT) := acc in
  let code := recorder.StatusCode (recorder.Meta (RecordHeader e)) in
  if (199 <? code) && (code <? 300) then
    (wrap64 (success + 1), failed,
     wrap64 (totalToken
             + recorder.TotalTokens (recorder.Usage (RecordHeader e))),
     wrap64 (totalTTFT + recorder.TTFTMs (recorder.Meta (RecordHeader e))))
  else (success, wrap64 (failed + 1), totalToken, totalTTFT).

(** [ScanLogs(root)] on the items of the walk; the success rate is the
    rational that the [float64] division rounds. *)
Definition ScanLogs `{Lib} (items : list WalkItem) : ListData :=
  let entries := foldl visit [] items in
  let totalRequests := Z.of_nat (length entries) in
  let '(success, failed, totalToken, totalTTFT) :=
    foldl count (0, 0, 0, 0) entries in
  let successRate :=
    if 0 <? wrap64 (success + failed)
    then Qmake success (Z.to_pos (wrap64 (success + failed)))
    else 0%Q in
  let avgTTFT :=
    if (0 <? totalTTFT) && (0 <? success)
    then Z.quot totalTTFT success else 0 in
  let stats :=
    {| TotalRequest := totalRequests;
       SuccessRequest := success;
       FailedRequest := failed;
       SuccessRate := successRate;
       AvgTTFT := avgTTFT;
       TotalTokens := totalToken |} in
  let entries :=
    sort_Slice
      (fun a b =>
         recorder.Time (recorder.Meta (RecordHeader b))
         <? recorder.Time (recorder.Meta (RecordHeader a)))
      entries in
  let entries :=
    if (500 <? length entries)%nat then take 500 entries else entries in
  {| Logs := entries; Stats := stats |}.

End monitor.

(** ** Package [internal/upstream]: the URL of the connectivity check

    Go strings are byte sequences here. *)

Module upstream.

(** [strings.HasSuffix] *)
Definition HasSuffix (s suffix : list byte) : bool :=
  (length suffix <=? length s)%nat
  && bool_decide (drop (length s - length suffix) s = suffix).

(** [strings.TrimSuffix] *)
Definition TrimSuffix (s suffix : list byte) : list byte :=
  if HasSuffix s suffix then take (length s - length suffix) s else s.

(** The test URL that [CheckConnectivity(baseURL, apiKey)] builds before
    it sends its request. *)
Definition targetURL (baseURL : list byte) : list byte :=
  let targetURL := baseURL ++ bytes.of_string "/v1/models" in
  let targetURL :=
    if HasSuffix baseURL (bytes.of_string "/")
    then baseURL ++ bytes.of_string "v1/models" else targetURL in
  let targetURL :=
    if HasSuffix baseURL (bytes.of_string "/v1")
       || HasSuffix baseURL (bytes.of_string "/v1/")
    then
      let base :=
        TrimSuffix (TrimSuffix baseURL (bytes.of_string "/"))
          (bytes.of_string "/v1") in
      base ++ bytes.of_string "/v1/models"
    else targetURL in
  targetURL.

End upstream.

(* ===================================================================== *)
(** * Part II: vocabulary of the statements, and a sample library         *)
(* ===================================================================== *)

(** ** Files *)

(** The device lets every coming write through. *)
Definition reliable (sched : list (option nat)) : Prop :=
  Forall (fun o => o = None) sched.

(** An open handle positioned at the end of its file, on a device without
    faults: what the recorder holds between [PrepareLogFile] and
    [UpdateLogFile]. *)
Definition appending (f : os.File) : Prop :=
  os.closed f = false /\ os.offset f = length (os.data f)
  /\ reliable (os.faults f).

(** ** The header block *)

(** The block for an arbitrary slot length [S n], so that no proof unfolds
    the 2048 of [HeaderLen]. *)
Definition blockOf (n : nat) (jsonData : list byte) : list byte :=
  <[n := bytes.LF]>
    (if (n <? length jsonData)%nat
     then bytes.copy (bytes.filled (S n) bytes.SP) (take n jsonData)
     else bytes.copy (bytes.filled (S n) bytes.SP) jsonData).

(** ** A sample library

    Small stand-ins for the standard-library functions, used only to run
    the model on the worked examples below. Each agrees with Go on the
    inputs of those examples; no theorem depends on them. *)

Module sample.

Definition quoted (s : string) : list byte :=
  bytes.DQUOTE :: bytes.of_string s ++ [bytes.DQUOTE].

Definition field (k : string) (v : list byte) : list byte :=
  quoted k ++ bytes.of_string ":" ++ v.

Definition num (z : Z) : list byte := bytes.of_string (strings.itoa z).

Definition object (fields : list (list byte)) : list byte :=
  bytes.LBRACE
    :: concat (imap (fun i f => if (i =? 0)%nat then f
                                else bytes.of_string "," ++ f) fields)
    ++ [bytes.RBRACE].

(** The usage object as Go prints it (no cached-token details). *)
Definition marshalUsage (u : recorder.UsageInfo) : list byte :=
  object [field "prompt_tokens" (num (recorder.PromptTokens u));
          field "completion_tokens" (num (recorder.CompletionTokens u));
          field "total_tokens" (num (recorder.TotalTokens u))].

(** The header in the shape of [json.Marshal]: field order of the structs,
    no escaping in strings, the time stamp left out. *)
Definition marshalHeader (h : recorder.RecordHeader) : list byte :=
  let m := recorder.Meta h in
  let l := recorder.Layout h in
  object
    [field "version" (quoted (recorder.Version h));
     field "meta"
       (object [field "request_id" (quoted (recorder.RequestID m));
                field "model" (quoted (recorder.Model m));
                field "url" (quoted (recorder.URL m));
                field "method" (quoted (recorder.Method m));
                field "status_code" (num (recorder.StatusCode m));
                field "duration_ms" (num (recorder.DurationMs m));
                field "ttft_ms" (num (recorder.TTFTMs m));
                field "client_ip" (quoted (recorder.ClientIP m));
                field "content_length" (num (recorder.ContentLength m))]);
     field "layout"
       (object [field "req_header_len" (num (recorder.ReqHeaderLen l));
                field "req_body_len" (num (recorder.ReqBodyLen l));
                field "res_header_len" (num (recorder.ResHeaderLen l));
                field "res_body_len" (num (recorder.ResBodyLen l));
                field "is_stream"
                  (bytes.of_string
                     (if recorder.IsStream l then "true" else "false"))]);
     field "usage" (marshalUsage (recorder.Usage h))].

(** The body of the basic chat scenario, without and with [stream]. *)
Definition chatBody : list byte :=
  object [field "model" (quoted "qwen3-max");
          field "stream" (bytes.of_string "false")].

Definition streamBody : list byte :=
  object [field "model" (quoted "qwen3-max");
          field "stream" (bytes.of_string "true")].

Definition injectedBody : list byte :=
  object [field "model" (quoted "qwen3-max");
          field "stream" (bytes.of_string "true");
          field "stream_options"
            (object [field "include_usage" (bytes.of_string "true")])].

Definition isBody (b : list byte) (l : list (list byte)) : bool :=
  existsb (fun x => bool_decide (b = x)) l.

#[global] Instance recorderLib : recorder.Lib := {|
  recorder.json_Unmarshal_model b :=
    if isBody b [chatBody; streamBody; injectedBody]
    then Some "qwen3-max"%string else None;
  recorder.json_Marshal_header h := inl (marshalHeader h);
  recorder.url_Parse_host _ := Some "api.example.com"%string;
  recorder.logPath dir host model now :=
    (dir ++ "/" ++ host ++ "/" ++ model ++ "/" ++ strings.itoa now
       ++ ".http")%string
|}.

(** A session as [PrepareLogFile] leaves it for a body-less request. *)
Definition requestLine : list byte :=
  bytes.of_string "GET /v1/models HTTP/1.1" ++ http.CRLF ++ http.CRLF.

Definition openFile : os.File :=
  {| os.data := recorder.padding ++ requestLine;
     os.offset := (recorder.HeaderLen + length requestLine)%nat;
     os.closed := false;
     os.faults := [] |}.

Definition session : recorder.LogInfo :=
  {| recorder.File := Some openFile;
     recorder.Path := "logs/api.example.com/list_models/1.http";
     recorder.Header :=
       {| recorder.Version := "LLM_PROXY_V2";
          recorder.Meta :=
            {| recorder.RequestID := "1"; recorder.Time := 1;
               recorder.Model := "list_models";
               recorder.URL := "/v1/models"; recorder.Method := "GET";
               recorder.StatusCode := 200; recorder.DurationMs := 12;
               recorder.TTFTMs := 3; recorder.ClientIP := "127.0.0.1:5000";
               recorder.ContentLength := 0; recorder.Error := "" |};
          recorder.Layout :=
            {| recorder.ReqHeaderLen := Z.of_nat (length requestLine);
               recorder.ReqBodyLen := 0; recorder.ResHeaderLen := 0;
               recorder.ResBodyLen := 0; recorder.IsStream := false |};
          recorder.Usage := recorder.zeroUsage |} |}.

End sample.

(** ** The regions of a record file *)

(** The bytes of [f] are the six regions in order, and the layout of the
    session gives the length of each of the four it describes. *)
Definition regions (info : recorder.LogInfo) (f : os.File)
    (slot dump body delim resHead resBody : list byte) : Prop :=
  let l := recorder.Layout (recorder.Header info) in
  os.data f = slot ++ dump ++ body ++ delim ++ resHead ++ resBody
  /\ length slot = 2048%nat
  /\ Z.of_nat (length dump) = recorder.ReqHeaderLen l
  /\ Z.of_nat (length body) = recorder.ReqBodyLen l
  /\ Z.of_nat (length resHead) = recorder.ResHeaderLen l
  /\ Z.of_nat (length resBody) = recorder.ResBodyLen l.

(** A session whose handle is appending to a file made of these regions. *)
Definition recording (info : recorder.LogInfo)
    (slot dump body delim resHead resBody : list byte) : Prop :=
  exists f, recorder.File info = Some f /\ appending f
            /\ regions info f slot dump body delim resHead resBody.


(** ** The sample library, continued: [chaos], [proxy], and the chat
    scenarios of the specification *)

Module scenario.

Import sample.

Definition lowerByte (b : byte) : byte :=
  let n := Byte.to_N b in
  if ((65 <=? n) && (n <=? 90))%N
  then match Byte.of_N (n + 32) with Some c => c | None => b end
  else b.

(** [strings.EqualFold] on ASCII strings. *)
#[global] Instance chaosLib : chaos.Lib := {|
  chaos.strings_EqualFold a b :=
    bool_decide (lowerByte <$> bytes.of_string a
                 = lowerByte <$> bytes.of_string b)
|}.

Definition usage (p c t : Z) : recorder.UsageInfo :=
  {| recorder.PromptTokens := p; recorder.CompletionTokens := c;
     recorder.TotalTokens := t; recorder.PromptTokenDetails_ := None |}.

(** The usage objects that occur in the examples. *)
Definition knownUsages : list recorder.UsageInfo :=
  [usage 9 3 12; usage 9 5 14; usage 4 3 7; usage 0 0 0].

(** A streamed chunk that carries a usage, and one whose usage is [null]. *)
Definition usageChunk (u : recorder.UsageInfo) : list byte :=
  object [field "choices" (bytes.of_string "[]");
          field "usage" (marshalUsage u)].

Definition deltaChunk : list byte :=
  object [field "choices" (bytes.of_string "[{}]");
          field "usage" (bytes.of_string "null")].

(** A chunk with a long string field in front of the usage. *)
Definition paddedChunk (n : nat) (u : recorder.UsageInfo) : list byte :=
  object [field "pad"
            (bytes.DQUOTE :: replicate n x78 ++ [bytes.DQUOTE]);
          field "usage" (marshalUsage u)].

(** A non-streamed completion. *)
Definition completion (u : recorder.UsageInfo) : list byte :=
  object [field "id" (quoted "chatcmpl-1");
          field "usage" (marshalUsage u)].

Definition firstSome {A B} (f : A -> option B) (l : list A) : option B :=
  list_find (fun x => is_Some (f x)) l ≫= fun p => f p.2.

Definition decodeChunk (b : list byte) : option (option recorder.UsageInfo) :=
  if bool_decide (b = deltaChunk) then Some None
  else
    match list_find (fun u => b = usageChunk u
                              \/ b = paddedChunk (70 * 1000) u) knownUsages with
    | Some (_, u) => Some (Some u)
    | None => None
    end.

Definition decodeUsage (b : list byte) : option recorder.UsageInfo :=
  snd <$> list_find (fun u => b = marshalUsage u) knownUsages.

Definition modelOnly (stream : bool) : gmap string json.value :=
  {[ "model"%string := json.Str "qwen3-max";
     "stream"%string := json.Bool stream ]}.

Definition decodePayload (b : list byte) : option (gmap string json.value) :=
  if bool_decide (b = chatBody) then Some (modelOnly false)
  else if bool_decide (b = streamBody) then Some (modelOnly true)
  else if bool_decide (b = injectedBody) then
    Some (<["stream_options"%string :=
              json.Object {["include_usage"%string := json.Bool true]}]>
            (modelOnly true))
  else None.

(** Serializes the one payload the examples serialize: the streamed chat
    request after the injection. *)
Definition encodePayload (p : gmap string json.value) : option (list byte) :=
  match p !! "model"%string, p !! "stream"%string,
        p !! "stream_options"%string with
  | Some (json.Str "qwen3-max"), Some (json.Bool true), Some (json.Object o) =>
      match o !! "include_usage"%string with
      | Some (json.Bool true) =>
          if (size p =? 3)%nat && (size o =? 1)%nat
          then Some injectedBody else None
      | _ => None
      end
  | _, _, _ => None
  end.

#[global] Instance proxyLib : proxy.Lib := {|
  proxy.json_Unmarshal_payload := decodePayload;
  proxy.json_Marshal_payload := encodePayload;
  proxy.strings_TrimSpace := http.TrimString;
  proxy.json_Unmarshal_chunk := decodeChunk;
  proxy.json_Unmarshal_usage := decodeUsage;
  proxy.textproto_CanonicalMIMEHeaderKey := fun key => key
|}.

(** The basic chat scenario: a POST with a JSON body and a bearer key. *)
Definition chatRequest (body : list byte) : http.Request :=
  {| http.Method := "POST";
     http.ReqURL := {| http.Path := "/v1/chat/completions";
                       http.URLHost := "";
                       http.uri := "/v1/chat/completions";
                       http.text := "/v1/chat/completions" |};
     http.RequestURI := "/v1/chat/completions";
     http.ProtoMajor := 1; http.ProtoMinor := 1;
     http.Host := "localhost:8080";
     http.TransferEncoding := [];
     http.ReqHeader :=
       {[ "Authorization"%string := ["Bearer sk-secret"%string];
          "Content-Type"%string := ["application/json"%string] ]};
     http.Body := io.NopCloser body;
     http.ContentLength := Z.of_nat (length body);
     http.RemoteAddr := "127.0.0.1:5000" |}.


Definition okResponse : http.Response :=
  {| http.Proto := "HTTP/1.1"; http.Status := "200 OK";
     http.StatusCode := 200;
     http.RespTransferEncoding := [];
     http.RespHeader :=
       {[ "Content-Type"%string := ["application/json"%string] ]};
     http.RespBody := [completion (usage 9 3 12)] |}.

(** A JSON answer sent in chunks, as [http.Transport] returns it, and as
    a round tripper that leaves the header as it was sent would. *)
Definition chunkedResponse : http.Response :=
  {| http.Proto := "HTTP/1.1"; http.Status := "200 OK";
     http.StatusCode := 200;
     http.RespTransferEncoding := ["chunked"%string];
     http.RespHeader :=
       {[ "Content-Type"%string := ["application/json"%string] ]};
     http.RespBody := [completion (usage 9 3 12)] |}.

Definition chunkedResponseAsSent : http.Response :=
  http.withRespHeader chunkedResponse
    (<["Transfer-Encoding"%string := ["chunked"%string]]>
       (http.RespHeader chunkedResponse)).

Definition sseLine (payload : list byte) : list byte :=
  bytes.of_string "data: " ++ payload ++ [bytes.LF; bytes.LF].

Definition streamResponse : http.Response :=
  {| http.Proto := "HTTP/1.1"; http.Status := "200 OK";
     http.StatusCode := 200;
     http.RespTransferEncoding := ["chunked"%string];
     http.RespHeader :=
       {[ "Content-Type"%string := ["text/event-stream"%string] ]};
     http.RespBody :=
       [sseLine deltaChunk;
        sseLine (usageChunk (usage 9 5 14))
          ++ sseLine (bytes.of_string "[DONE]")] |}.

Definition configOf (rules : list config.ChaosRule) : config.Config :=
  {| config.ServerPort := "8080"; config.MonitorPort := "";
     config.UpstreamBaseURL := "https://api.example.com";
     config.UpstreamApiKey := "sk-upstream";
     config.DebugOutputDir := "logs"; config.DebugMaskKey := true;
     config.ChaosEnabled := true; config.ChaosRules := rules |}.

Definition handlerOf (rules : list config.ChaosRule) : proxy.Handler :=
  {| proxy.recorder_ := recorder.New "logs" true;
     proxy.chaosManager := chaos.New (configOf rules);
     proxy.cfg := configOf rules;
     proxy.targetHost := "api.example.com" |}.

Definition worldOf (resp : http.Response) : proxy.World :=
  {| proxy.fileEnv := {| recorder.now := 1700000000;
                         recorder.mkdirErr := None;
                         recorder.createErr := None;
                         recorder.device := [] |};
     proxy.clock := fun k => 10 * Z.of_nat k;
     proxy.rand := fun _ => 0%Q;
     proxy.server := fun _ => proxy.Served resp |}.

Definition client : http.ResponseWriter := http.newResponseWriter None.

End scenario.

(** ** Calls on the instrumented response writer *)

(** A call a handler can make on the writer; [now] is the clock at a
    [Write]. *)
Inductive call : Type :=
| CallWriteHeader (code : Z)
| CallWrite (now : Z) (b : list byte)
| CallFlush.

Definition isWrite (c : call) : bool :=
  match c with CallWrite _ _ => true | _ => false end.

Definition isWriteHeader (c : call) : bool :=
  match c with CallWriteHeader _ => true | _ => false end.

Definition perform (rw : proxy.InstrumentedResponseWriter.t) (c : call)
  : proxy.InstrumentedResponseWriter.t :=
  match c with
  | CallWriteHeader code => proxy.InstrumentedResponseWriter.WriteHeader rw code
  | CallWrite now b => (proxy.InstrumentedResponseWriter.Write rw now b).1.1
  | CallFlush => proxy.InstrumentedResponseWriter.Flush rw
  end.

(** The writer after a sequence of calls. *)
Definition performAll (rw : proxy.InstrumentedResponseWriter.t)
    (calls : list call) : proxy.InstrumentedResponseWriter.t :=
  foldl perform rw calls.

(** ** Vocabulary for [ensureStreamOptions] *)

(** The first test of [ensureStreamOptions]: the request is left alone. *)
Definition notJSONPost (req : http.Request) : bool :=
  negb (String.eqb (http.Method req) "POST")
  || negb (strings.Contains
             (http.Get (http.ReqHeader req) "Content-Type")
             "application/json").

(** A body on which [ensureStreamOptions] changes nothing: it does not
    parse, or it is not a stream request, or the options are already
    there, or the payload cannot be serialized again. *)
Definition settled `{proxy.Lib} (b : list byte) : Prop :=
  match proxy.json_Unmarshal_payload b with
  | None => True
  | Some p =>
      match p !! "stream"%string with
      | Some (json.Bool true) =>
          (proxy.injectStreamOptions p).2 = false
          \/ proxy.json_Marshal_payload (proxy.injectStreamOptions p).1 = None
      | _ => True
      end
  end.

(** ** The sample library, continued: [replay] *)

Module recorded.

(** A response as it stands on the wire and in a record file. *)
Definition wire (resp : http.Response) : list byte :=
  bytes.of_string (http.Proto resp ++ " " ++ http.Status resp)
    ++ http.CRLF ++ http.Write (http.RespHeader resp) ++ http.CRLF
    ++ concat (http.RespBody resp).

(** The session and the file the basic chat scenario leaves behind. *)
Definition recordedSession : recorder.LogInfo :=
  match proxy.logInfo
          (proxy.ServeHTTP (scenario.handlerOf []) scenario.client
             (scenario.chatRequest sample.chatBody)
             (scenario.worldOf scenario.okResponse)) with
  | Some info => info
  | None => sample.session
  end.

Definition recordedFile : list byte :=
  match recorder.File recordedSession with
  | Some f => os.data f
  | None => []
  end.

Definition layoutOf (h : recorder.RecordHeader) : replay.fileHeader :=
  let l := recorder.Layout h in
  {| replay.Version := recorder.Version h;
     replay.ReqHeaderLen := recorder.ReqHeaderLen l;
     replay.ReqBodyLen := recorder.ReqBodyLen l;
     replay.ResHeaderLen := recorder.ResHeaderLen l;
     replay.ResBodyLen := recorder.ResBodyLen l |}.

(** Reads back the header of the recorded session (after the padding is
    skipped, as [json.Unmarshal] skips trailing white space), and the
    response of the scenario. *)
#[global] Instance replayLib : replay.Lib := {|
  replay.json_Unmarshal_fileHeader b :=
    if bool_decide
         (reverse (http.trimLeft (reverse b))
          = sample.marshalHeader (recorder.Header recordedSession))
    then Some (layoutOf (recorder.Header recordedSession)) else None;
  replay.http_ReadResponse b :=
    if bool_decide (b = wire scenario.okResponse)
    then Some scenario.okResponse else None
|}.

End recorded.

(** ** The chaos scenario of the specification *)

(** [{model: "*", rate: 1.0, action: "error", status_code: 429}] *)
Definition rule429 : config.ChaosRule :=
  {| config.Model := "*"; config.Rate := 1%Q; config.Action := "error";
     config.Delay := 0; config.StatusCode := 429; config.Message := "" |}.

(** ** Lines of a stream, and the usage a line carries *)

(** The complete lines of [s] (each was ended by a line feed, which is
    dropped) and what follows the last line feed. *)
Fixpoint splitLines (s : list byte) : list (list byte) * list byte :=
  match s with
  | [] => ([], [])
  | b :: t =>
      let '(ls, rest) := splitLines t in
      if Byte.eqb b bytes.LF then ([] :: ls, rest)
      else match ls with
           | l :: ls' => ((b :: l) :: ls', rest)
           | [] => ([], b :: rest)
           end
  end.

Definition linesOf (s : list byte) : list (list byte) := (splitLines s).1.

Definition pendingOf (s : list byte) : list byte := (splitLines s).2.

(** The usage of an SSE [data:] line: the payload after the prefix,
    trimmed, decodes to an object whose [usage] is not [nil] and has
    [total_tokens > 0]. *)
Definition lineUsage `{proxy.Lib} (line : list byte)
  : option recorder.UsageInfo :=
  if bytes.HasPrefix line proxy.UsageSniffer.dataPrefix then
    match proxy.json_Unmarshal_chunk
            (proxy.strings_TrimSpace
               (bytes.TrimPrefix line proxy.UsageSniffer.dataPrefix)) with
    | Some (Some u) => if 0 <? recorder.TotalTokens u then Some u else None
    | _ => None
    end
  else None.

(** The usage of the last line that carries one. *)
Definition lastUsage `{proxy.Lib} (lines : list (list byte))
  : option recorder.UsageInfo :=
  last (omap lineUsage lines).

(** The body is read through the sniffer, one [Read] per element. *)
Definition readAll `{proxy.Lib} (s : proxy.UsageSniffer.t)
    (info : recorder.LogInfo) (reads : list (list byte))
  : proxy.UsageSniffer.t * recorder.LogInfo :=
  foldl (fun st data => proxy.UsageSniffer.Read st.1 st.2 data) (s, info)
    reads.

(** The usage in the header once the body is read and closed. *)
Definition finalUsage `{proxy.Lib} (s : proxy.UsageSniffer.t)
    (info : recorder.LogInfo) (reads : list (list byte))
  : recorder.UsageInfo :=
  let st := readAll s info reads in
  recorder.Usage (recorder.Header (proxy.UsageSniffer.Close st.1 st.2)).

(** No read makes the line buffer exceed its cap: the unfinished line
    kept from before, with the new bytes, is at most 64 KiB. *)
Fixpoint fits (pending : list byte) (reads : list (list byte)) : Prop :=
  match reads with
  | [] => True
  | data :: rest =>
      (length (pending ++ data) <= proxy.UsageSniffer.maxLineBuf)%nat
      /\ fits (pendingOf (pending ++ data)) rest
  end.

(** The sniffer [ModifyResponse] installs for a streamed response. *)
Definition streamSniffer : proxy.UsageSniffer.t :=
  {| proxy.UsageSniffer.IsStream := true;
     proxy.UsageSniffer.lineBuf := [];
     proxy.UsageSniffer.tailBuf := [] |}.

(** An SSE line of more than 64 KiB that ends in a usage, as the proxy's
    32 KiB reads deliver it. *)
Definition longLine : list byte :=
  scenario.sseLine (scenario.paddedChunk (70 * 1000) (scenario.usage 9 5 14)).

Definition longLineReads : list (list byte) :=
  let k := (32 * 1024)%nat in
  [take k longLine; take k (drop k longLine); drop (k + k) longLine].

(** ** Vocabulary for the tail parser *)

(** The sniffer [ModifyResponse] installs for a response that is not
    streamed. *)
Definition tailSniffer : proxy.UsageSniffer.t :=
  {| proxy.UsageSniffer.IsStream := false;
     proxy.UsageSniffer.lineBuf := [];
     proxy.UsageSniffer.tailBuf := [] |}.

(** The last [n] bytes of [s] (all of it when it is shorter). *)
Definition lastBytes (n : nat) (s : list byte) : list byte :=
  drop (length s - n) s.

(** ** Vocabulary for the chaos rules *)

(** The rule applies to the model: its pattern is ["*"] or equals the
    model name up to case. *)
Definition appliesTo `{chaos.Lib} (rule : config.ChaosRule)
    (modelName : string) : bool :=
  String.eqb (config.Model rule) "*"
  || chaos.strings_EqualFold (config.Model rule) modelName.

(** What [Evaluate] returns when [rule] fires. *)
Definition firing (rule : config.ChaosRule) : chaos.Result :=
  let isError := String.eqb (config.Action rule) "error" in
  {| chaos.ShouldInject := true;
     chaos.Action := config.Action rule;
     chaos.Delay := config.Delay rule;
     chaos.StatusCode :=
       if isError && (config.StatusCode rule =? 0)
       then 500 else config.StatusCode rule;
     chaos.Message :=
       if isError && String.eqb (config.Message rule) ""
       then "Chaos Injection Error"%string else config.Message rule;
     chaos.RuleDescription :=
       ("Rule[Model=" ++ config.Model rule ++ ", Action="
          ++ config.Action rule ++ "]")%string |}.

(** ** Vocabulary for the request pipeline *)

(** The log file cannot be set up: the directory or the file cannot be
    created, or the device cuts one of the three writes of
    [PrepareLogFile] short. *)
Definition setupFails (env : recorder.Env) : Prop :=
  recorder.mkdirErr env <> None \/ recorder.createErr env <> None
  \/ exists i k, (i < 3)%nat /\ recorder.device env !! i = Some (Some k).

(** Nothing goes wrong on the disk for the whole request. *)
Definition workingDisk (env : recorder.Env) : Prop :=
  recorder.mkdirErr env = None /\ recorder.createErr env = None
  /\ reliable (recorder.device env).

(** The request as [PrepareLogFile] dumps it. *)
Definition loggedRequest (r : recorder.Recorder) (req : http.Request)
  : http.Request :=
  if recorder.MaskKey r
     && negb (String.eqb (http.Get (http.ReqHeader req) "Authorization") "")
  then http.withHeader req
         (http.Set_ (http.ReqHeader req) "Authorization" recorder.maskedKey)
  else req.

(** The status line and the header of a response as [ModifyResponse]
    writes them. *)
Definition responseHead (resp : http.Response) : list byte :=
  bytes.of_string (http.Proto resp ++ " " ++ http.Status resp)
    ++ http.CRLF ++ http.Write (http.RespHeader resp) ++ http.CRLF.


Definition proxyErrorBody (err : string) : list byte :=
  bytes.of_string ("Proxy Error: " ++ err) ++ [bytes.LF].


Definition unreachable : proxy.World :=
  {| proxy.fileEnv :=
       {| recorder.now := 1700000000;
          recorder.mkdirErr := None;
          recorder.createErr := None;
          recorder.device := [] |};
     proxy.clock := fun k => 10 * Z.of_nat k;
     proxy.rand := fun _ => 0%Q;
     proxy.server := fun _ => proxy.Failed "connection refused" |}.

(** ** The sample library, continued: [monitor] *)

Module shown.

(** The body of the basic chat scenario has no messages, input or query. *)
Definition emptyRequest : monitor.chatRequest :=
  {| monitor.Messages := []; monitor.Input := json.Null;
     monitor.Query := []; monitor.Documents := [] |}.

Definition less_dec (less : monitor.LogEntry -> monitor.LogEntry -> bool)
    (a b : monitor.LogEntry) : Decision (Is_true (less a b)) := _.

(** Reads back the header of the recorded session, skipping the padding
    as [json.Unmarshal] skips white space. *)
#[global] Instance monitorLib : monitor.Lib := {|
  monitor.json_Unmarshal_header b :=
    if bool_decide
         (reverse (http.trimLeft (reverse b))
          = sample.marshalHeader (recorder.Header recorded.recordedSession))
    then Some (recorder.Header recorded.recordedSession) else None;
  monitor.json_Unmarshal_chatRequest b :=
    if sample.isBody b [sample.chatBody; sample.streamBody;
                        sample.injectedBody]
    then Some emptyRequest else None;
  monitor.json_Unmarshal_completion b :=
    if bool_decide (b = scenario.completion (scenario.usage 9 3 12))
    then Some [] else None;
  monitor.json_Unmarshal_delta _ := None;
  monitor.strings_TrimSpace := http.TrimString;
  monitor.json_MarshalIndent _ := [];
  monitor.sort_Slice less l :=
    @merge_sort _ (fun a b => Is_true (less a b)) (less_dec less) l
|}.

End shown.

(** ** Vocabulary for the monitor's statistics *)

(** The entry counts as a success. *)
Definition succeeded (e : monitor.LogEntry) : bool :=
  let code :=
    recorder.StatusCode (recorder.Meta (monitor.RecordHeader e)) in
  (199 <? code) && (code <? 300).

(** The entries [ScanLogs] collects from the walk. *)
Definition collected `{monitor.Lib} (items : list monitor.WalkItem)
  : list monitor.LogEntry :=
  foldl monitor.visit [] items.

(** A record file as the walk meets it. *)
Definition recordItem (path : string) (content : list byte)
  : monitor.WalkItem :=
  {| monitor.path := path; monitor.name := path; monitor.isDir := false;
     monitor.walkErr := false; monitor.file := Some content |}.

(* ===================================================================== *)
(** * Part III: properties                                                 *)
(* ===================================================================== *)

(** ** Files *)

Section FileFacts.



Lemma reliable_tl sched : reliable sched -> reliable (tl sched).
Proof. destruct 1; simpl; [constructor | assumption]. Qed.

Lemma store_at_end (d b : list byte) : os.store d (length d) b = d ++ b.
Proof.
  unfold os.store.
  rewrite firstn_all, Nat.sub_diag, skipn_all2 by lia.
  simpl. now rewrite app_nil_r.
Qed.

Lemma store_at_start (d b : list byte) :
  os.store d 0 b = b ++ drop (length b) d.
Proof. unfold os.store. now rewrite take_0. Qed.

(** A write on a reliable open handle stores all of [b] at the offset. *)
Lemma Write_reliable (f : os.File) (b : list byte) :
  os.closed f = false -> reliable (os.faults f) ->
  os.Write f b =
    ({| os.data := os.store (os.data f) (os.offset f) b;
        os.offset := (os.offset f + length b)%nat;
        os.closed := false;
        os.faults := tl (os.faults f) |}, length b, None).
Proof.
  intros Hc Hr. unfold os.Write. rewrite Hc.
  destruct Hr as [|o sched Ho Hr]; [reflexivity|]. now subst o.
Qed.

(** Appending keeps the handle appending. *)
Lemma Write_appending (f : os.File) (b : list byte) :
  appending f ->
  exists f', os.Write f b = (f', length b, None)
             /\ os.data f' = os.data f ++ b /\ appending f'.
Proof.
  intros (Hc & Ho & Hr). eexists. split; [now apply Write_reliable|].
  simpl. rewrite Ho, store_at_end. split; [reflexivity|].
  repeat split; simpl.
  - now rewrite length_app.
  - now apply reliable_tl.
Qed.

Lemma Write_closed (f : os.File) (b : list byte) :
  os.closed f = true -> os.Write f b = (f, 0%nat, Some os.ErrClosed).
Proof. intros Hc. unfold os.Write. now rewrite Hc. Qed.

Lemma Seek_closed (f : os.File) (off : Z) :
  os.closed f = true -> os.Seek f off = (f, Some os.ErrClosed).
Proof. intros Hc. unfold os.Seek. now rewrite Hc. Qed.

Lemma Seek_start (f : os.File) :
  os.closed f = false ->
  os.Seek f 0 =
    ({| os.data := os.data f; os.offset := 0%nat;
        os.closed := false; os.faults := os.faults f |}, None).
Proof. intros Hc. unfold os.Seek. now rewrite Hc. Qed.

Lemma Close_closed (f : os.File) :
  os.closed f = true -> os.Close f = (f, Some os.ErrClosed).
Proof. intros Hc. unfold os.Close. now rewrite Hc. Qed.

End FileFacts.

(** ** The header block *)

Section HeaderBlock.


Lemma finalBlock_blockOf jsonData :
  recorder.finalBlock jsonData = blockOf 2047 jsonData.
Proof. reflexivity. Qed.

Lemma blockOf_short n (js : list byte) :
  (length js <= n)%nat ->
  blockOf n js = js ++ replicate (n - length js) bytes.SP ++ [bytes.LF].
Proof.
  intros Hle. unfold blockOf.
  destruct (Nat.ltb_spec n (length js)) as [Hlt|_]; [lia|].
  unfold bytes.copy, bytes.filled.
  rewrite length_replicate, take_ge by lia.
  rewrite drop_replicate.
  replace (S n - length js)%nat with (S (n - length js)) by lia.
  rewrite replicate_S_end, app_assoc.
  rewrite insert_app_r_alt by (rewrite length_app, length_replicate; lia).
  rewrite length_app, length_replicate.
  replace (n - (length js + (n - length js)))%nat with 0%nat by lia.
  simpl. now rewrite <- app_assoc.
Qed.

Lemma blockOf_long n (js : list byte) :
  (n < length js)%nat -> blockOf n js = take n js ++ [bytes.LF].
Proof.
  intros Hlt. unfold blockOf.
  destruct (Nat.ltb_spec n (length js)) as [_|Hge]; [|lia].
  unfold bytes.copy, bytes.filled.
  rewrite length_replicate, length_take, drop_replicate.
  rewrite (take_ge (take n js)) by (rewrite length_take; lia).
  replace (S n - n `min` length js)%nat with 1%nat by lia.
  simpl.
  rewrite insert_app_r_alt by (rewrite length_take; lia).
  rewrite length_take.
  replace (n - n `min` length js)%nat with 0%nat by lia.
  reflexivity.
Qed.

Lemma blockOf_length n js : length (blockOf n js) = S n.
Proof.
  destruct (Nat.le_gt_cases (length js) n) as [H|H].
  - rewrite blockOf_short by assumption.
    rewrite !length_app, length_replicate. simpl. lia.
  - rewrite blockOf_long by assumption.
    rewrite length_app, length_take. simpl. lia.
Qed.

Lemma blockOf_last n js : blockOf n js !! n = Some bytes.LF.
Proof.
  unfold blockOf. apply list_lookup_insert_eq.
  unfold bytes.copy, bytes.filled.
  destruct (n <? length js)%nat;
    rewrite length_app, length_take, length_drop, length_replicate;
    try rewrite length_take; lia.
Qed.

End HeaderBlock.

(** ** [UpdateLogFile] *)

Section UpdateLogFile.

Context `{recorder.Lib}.

Lemma withFile_withFile (info : recorder.LogInfo) (a b : option os.File) :
  recorder.withFile (recorder.withFile info a) b = recorder.withFile info b.
Proof. reflexivity. Qed.

Lemma withFile_id (info : recorder.LogInfo) (f : os.File) :
  recorder.File info = Some f -> recorder.withFile info (Some f) = info.
Proof. destruct info; simpl; now intros ->. Qed.

(** What the call does on an open handle of a reliable device, once the
    header is serialized. *)
Lemma UpdateLogFile_open (info : recorder.LogInfo) (f : os.File)
    (js : list byte) :
  recorder.File info = Some f ->
  os.closed f = false -> reliable (os.faults f) ->
  recorder.json_Marshal_header (recorder.Header info) = inl js ->
  recorder.UpdateLogFile info =
    (recorder.withFile info
       (Some {| os.data :=
                  recorder.finalBlock js
                    ++ drop (length (recorder.finalBlock js)) (os.data f);
                os.offset := length (recorder.finalBlock js);
                os.closed := true;
                os.faults := tl (os.faults f) |}), None).
Proof.
  intros Hf Hc Hr Hjs. unfold recorder.UpdateLogFile.
  rewrite Hf, Hjs, Seek_start by assumption.
  rewrite Write_reliable by (first [reflexivity | assumption]).
  cbn [os.data os.offset os.closed os.faults os.Close fst snd Nat.add].
  now rewrite store_at_start.
Qed.

(** On a handle that is already closed the call fails at the seek and
    changes nothing. *)
Lemma UpdateLogFile_closed (info : recorder.LogInfo) (f : os.File) :
  recorder.File info = Some f -> os.closed f = true ->
  exists e, recorder.UpdateLogFile info = (info, Some e).
Proof.
  intros Hf Hc. unfold recorder.UpdateLogFile. rewrite Hf.
  destruct (recorder.json_Marshal_header _) as [js|e].
  - rewrite Seek_closed, Close_closed by assumption. simpl.
    rewrite withFile_id by assumption. now exists os.ErrClosed.
  - rewrite Close_closed by assumption. simpl.
    rewrite withFile_id by assumption. now exists e.
Qed.

(** C4. [UpdateLogFile] puts at offset 0 a block of exactly 2048 bytes
    that ends in a line feed and leaves the rest of the file as it was:
    a serialized header of at most 2047 bytes is stored as it is and
    padded with spaces; of a longer one exactly the first 2047 bytes are
    stored. *)
Theorem UpdateLogFile_header_block (info : recorder.LogInfo) (f : os.File)
    (js : list byte) :
  recorder.File info = Some f ->
  os.closed f = false -> reliable (os.faults f) ->
  recorder.json_Marshal_header (recorder.Header info) = inl js ->
  exists f',
    recorder.UpdateLogFile info = (recorder.withFile info (Some f'), None)
    /\ os.data f' = recorder.finalBlock js ++ drop 2048 (os.data f)
    /\ length (recorder.finalBlock js) = 2048%nat
    /\ recorder.finalBlock js !! 2047%nat = Some bytes.LF
    /\ ((length js <= 2047)%nat ->
        recorder.finalBlock js
        = js ++ replicate (2047 - length js) bytes.SP ++ [bytes.LF])
    /\ ((2047 < length js)%nat ->
        recorder.finalBlock js = take 2047 js ++ [bytes.LF]).
Proof.
  intros Hf Hc Hr Hjs.
  eexists. split; [eapply UpdateLogFile_open; eassumption|].
  rewrite finalBlock_blockOf. cbn [os.data].
  rewrite blockOf_length.
  split; [reflexivity|]. split; [reflexivity|].
  split; [apply blockOf_last|].
  split; [apply blockOf_short | apply blockOf_long].
Qed.

(** C7, as the code has it. A second call after a successful first one
    leaves the session and the file contents as they are; it returns
    [nil] only when there is no file ([File] is [nil]). When there is one,
    the handle is closed but not [nil], the seek fails and the call
    returns that error. *)
Theorem UpdateLogFile_second_call (info info1 : recorder.LogInfo) :
  recorder.UpdateLogFile info = (info1, None) ->
  match recorder.File info with
  | None => recorder.UpdateLogFile info1 = (info1, None)
  | Some _ => recorder.UpdateLogFile info1 = (info1, Some os.ErrClosed)
  end.
Proof.
  intros H1. destruct (recorder.File info) as [f|] eqn:Hf.
  - unfold recorder.UpdateLogFile in H1. rewrite Hf in H1.
    destruct (recorder.json_Marshal_header (recorder.Header info))
      as [js|e] eqn:Hjs; [|discriminate].
    destruct (os.Seek f 0) as [f1 [e|]] eqn:Hs; [discriminate|].
    destruct (os.Write f1 (recorder.finalBlock js)) as [[f2 n] [e|]] eqn:Hw;
      [discriminate|].
    injection H1 as <-.
    assert (Hc2 : os.closed f2 = false).
    { unfold os.Write in Hw. destruct (os.closed f1); [discriminate|].
      destruct (os.faults f1) as [|[k|] rest]; inversion Hw; reflexivity. }
    assert (Hc3 : os.closed (os.Close f2).1 = true).
    { unfold os.Close. now rewrite Hc2. }
    set (f3 := (os.Close f2).1) in *.
    unfold recorder.UpdateLogFile.
    cbn [recorder.File recorder.withFile recorder.Header].
    rewrite Hjs, (Seek_closed f3 0 Hc3), (Close_closed f3 Hc3). reflexivity.
  - unfold recorder.UpdateLogFile in H1. rewrite Hf in H1.
    injection H1 as <-. unfold recorder.UpdateLogFile. now rewrite Hf.
Qed.

End UpdateLogFile.

Lemma UpdateLogFile_header_block_witness :
  exists f',
    recorder.UpdateLogFile sample.session
      = (recorder.withFile sample.session (Some f'), None)
    /\ os.data f'
       = recorder.finalBlock (sample.marshalHeader
                                (recorder.Header sample.session))
         ++ drop 2048 (os.data sample.openFile)
    /\ length (recorder.finalBlock
                 (sample.marshalHeader (recorder.Header sample.session)))
       = 2048%nat
    /\ recorder.finalBlock
         (sample.marshalHeader (recorder.Header sample.session))
         !! 2047%nat = Some bytes.LF
    /\ ((length (sample.marshalHeader (recorder.Header sample.session))
         <= 2047)%nat ->
        recorder.finalBlock
          (sample.marshalHeader (recorder.Header sample.session))
        = sample.marshalHeader (recorder.Header sample.session)
          ++ replicate
               (2047 - length (sample.marshalHeader
                                 (recorder.Header sample.session)))
               bytes.SP
          ++ [bytes.LF])
    /\ ((2047 < length (sample.marshalHeader
                          (recorder.Header sample.session)))%nat ->
        recorder.finalBlock
          (sample.marshalHeader (recorder.Header sample.session))
        = take 2047 (sample.marshalHeader (recorder.Header sample.session))
          ++ [bytes.LF]).
Proof.
  apply (UpdateLogFile_header_block sample.session sample.openFile).
  - reflexivity.
  - reflexivity.
  - constructor.
  - reflexivity.
Defined.

(** The second call is not silent: after a successful first call on the
    sample session it returns the error of the seek. *)
Lemma UpdateLogFile_second_call_not_silent :
  (recorder.UpdateLogFile sample.session).2 = None
  /\ (recorder.UpdateLogFile (recorder.UpdateLogFile sample.session).1).2
     = Some os.ErrClosed.
Proof. split; vm_compute; reflexivity. Qed.

Lemma UpdateLogFile_second_call_witness :
  recorder.UpdateLogFile (recorder.UpdateLogFile sample.session).1
  = ((recorder.UpdateLogFile sample.session).1, Some os.ErrClosed).
Proof.
  apply (UpdateLogFile_second_call sample.session
           (recorder.UpdateLogFile sample.session).1).
  vm_compute. reflexivity.
Defined.

(** ** The recording pipeline *)

Section Pipeline.

Context `{recorder.Lib} `{chaos.Lib} `{proxy.Lib}.

#[local] Opaque recorder.padding.

Lemma padding_length : length recorder.padding = 2048%nat.
Proof. vm_compute. reflexivity. Qed.



Lemma fileWrite_recording (info : recorder.LogInfo) (f : os.File)
    (b : list byte) :
  recorder.File info = Some f -> appending f ->
  exists f', proxy.fileWrite info b
             = (recorder.withFile info (Some f'), length b)
             /\ os.data f' = os.data f ++ b /\ appending f'.
Proof.
  intros Hf Ha. unfold proxy.fileWrite. rewrite Hf.
  destruct (Write_appending f b Ha) as (f' & -> & Hd & Ha').
  exists f'. split; [reflexivity|]. split; assumption.
Qed.


(** Every [Read] appends what it was given and counts it. *)
Lemma Read_recording (s : proxy.UsageSniffer.t) (info : recorder.LogInfo)
    (data slot dump body delim resHead resBody : list byte) :
  recording info slot dump body delim resHead resBody ->
  recording (proxy.UsageSniffer.Read s info data).2
    slot dump body delim resHead (resBody ++ data).
Proof.
  intros (f & Hf & Ha & Hd & Hs & Hdump & Hbody & Hrh & Hrb).
  unfold proxy.UsageSniffer.Read.
  destruct (Nat.ltb_spec 0 (length data)) as [Hpos|Hzero].
  - rewrite Hf.
    destruct (Write_appending f data Ha) as (f' & -> & Hd' & Ha').
    cbv beta iota zeta.
    assert (Hrec : forall u,
      recording
        (recorder.withUsage
           (recorder.withLayout (recorder.withFile info (Some f'))
              {| recorder.ReqHeaderLen :=
                   recorder.ReqHeaderLen (recorder.Layout (recorder.Header info));
                 recorder.ReqBodyLen :=
                   recorder.ReqBodyLen (recorder.Layout (recorder.Header info));
                 recorder.ResHeaderLen :=
                   recorder.ResHeaderLen (recorder.Layout (recorder.Header info));
                 recorder.ResBodyLen :=
                   recorder.ResBodyLen (recorder.Layout (recorder.Header info))
                   + Z.of_nat (length data);
                 recorder.IsStream :=
                   recorder.IsStream (recorder.Layout (recorder.Header info)) |})
           u)
        slot dump body delim resHead (resBody ++ data)).
    { intros u. exists f'. split; [reflexivity|]. split; [assumption|].
      unfold regions.
      cbn [recorder.withUsage recorder.withLayout recorder.withFile
           recorder.Header recorder.Layout recorder.ReqHeaderLen
           recorder.ReqBodyLen recorder.ResHeaderLen recorder.ResBodyLen].
      rewrite Hd', Hd, <- !app_assoc, length_app.
      repeat split; try assumption. lia. }
    destruct (proxy.UsageSniffer.IsStream s).
    + destruct (proxy.UsageSniffer.sniffStream _ _ _) as [s' u].
      apply Hrec.
    + specialize (Hrec (recorder.Usage (recorder.Header info))).
      exact Hrec.
  - assert (data = []) as -> by (destruct data; [reflexivity|simpl in Hzero; lia]).
    rewrite app_nil_r. exists f. unfold regions. cbn [snd].
    split; [assumption|]. split; [assumption|].
    repeat split; assumption.
Qed.

Lemma recording_withUsage info u slot dump body delim resHead resBody :
  recording info slot dump body delim resHead resBody ->
  recording (recorder.withUsage info u) slot dump body delim resHead resBody.
Proof.
  intros (f & Hf & Ha & Hr). exists f.
  split; [assumption|]. split; [assumption|exact Hr].
Qed.

Lemma recording_withMeta info m slot dump body delim resHead resBody :
  recording info slot dump body delim resHead resBody ->
  recording (recorder.withMeta info m) slot dump body delim resHead resBody.
Proof.
  intros (f & Hf & Ha & Hr). exists f.
  split; [assumption|]. split; [assumption|exact Hr].
Qed.

Lemma Close_recording s info slot dump body delim resHead resBody :
  recording info slot dump body delim resHead resBody ->
  recording (proxy.UsageSniffer.Close s info)
    slot dump body delim resHead resBody.
Proof.
  intros Hr. unfold proxy.UsageSniffer.Close.
  destruct (_ && _); [now apply recording_withUsage | assumption].
Qed.


End Pipeline.

Section RecordedFile.

Context `{recorder.Lib} `{chaos.Lib} `{proxy.Lib}.




End RecordedFile.


(** ** [ModifyResponse]: stream detection *)

Section StreamDetection.

(** The header after the deletion of the keys [g x], for [x] in [l]. *)
Lemma foldl_delete_lookup {A} (g : A -> string) (l : list A)
    (h : http.Header) (k : string) :
  foldl (fun h x => delete (g x) h) h l !! k
  = if decide (k ∈ g <$> l) then None else h !! k.
Proof.
  revert h. induction l as [|x l IH]; intros h; cbn [foldl fmap list_fmap].
  - destruct (decide _) as [Hin|_]; [|reflexivity].
    now apply elem_of_nil in Hin.
  - rewrite IH. destruct (decide (k ∈ g <$> l)) as [Hin|Hout].
    + rewrite decide_True; [reflexivity|]. now apply list_elem_of_further.
    + destruct (decide (k = g x)) as [->|Hne].
      * rewrite decide_True; [|apply list_elem_of_here].
        apply lookup_delete_eq.
      * rewrite decide_False.
        -- now apply lookup_delete_ne.
        -- intros Hin. apply elem_of_cons in Hin as [?|?]; tauto.
Qed.

(** A hop-by-hop header is not in the header the hooks see. *)
Lemma removeHopByHopHeaders_hop (canon : string -> string)
    (h : http.Header) (k : string) :
  k ∈ httputil.hopHeaders ->
  httputil.removeHopByHopHeaders canon h !! k = None.
Proof.
  intros Hin. unfold httputil.removeHopByHopHeaders. cbv zeta.
  rewrite (foldl_delete_lookup (fun f => f)), list_fmap_id.
  now rewrite decide_True.
Qed.

(** Another header is kept unless [Connection] names it. *)
Lemma removeHopByHopHeaders_other (canon : string -> string)
    (h : http.Header) (k : string) :
  k ∉ httputil.hopHeaders ->
  Forall (fun sf => canon sf <> k) (httputil.connectionNames h) ->
  httputil.removeHopByHopHeaders canon h !! k = h !! k.
Proof.
  intros Hout Hnames. unfold httputil.removeHopByHopHeaders. cbv zeta.
  rewrite (foldl_delete_lookup (fun f => f)), list_fmap_id.
  rewrite decide_False by exact Hout.
  rewrite (foldl_delete_lookup canon), decide_False; [reflexivity|].
  intros Hin. apply list_elem_of_fmap in Hin as (sf & -> & Hsf).
  rewrite Forall_forall in Hnames. now apply (Hnames sf).
Qed.

(** C9. The response of the upstream server reaches [ModifyResponse]
    without its hop-by-hop headers, so without [Transfer-Encoding]. On a
    session whose [is_stream] is still [false] (as [PrepareLogFile]
    creates it), [ModifyResponse] sets [layout.is_stream] to [true], and
    hands the body to a sniffer that uses the SSE stream parser, exactly
    when the [Content-Type] of the response it is given contains
    [text/event-stream]; this is the [Content-Type] of the response the
    round trip returned, unless the [Connection] header of that response
    names it. Otherwise [is_stream] stays [false] and the sniffer uses
    the tail parser. *)
Theorem ModifyResponse_is_stream `{proxy.Lib} (world : proxy.World)
    (outreq : http.Request) (answer : http.Response)
    (info : recorder.LogInfo) :
  proxy.server world outreq = proxy.Served answer ->
  recorder.IsStream (recorder.Layout (recorder.Header info)) = false ->
  exists resp info' sniffer,
    proxy.upstream world outreq = proxy.Served resp
    /\ http.Get (http.RespHeader resp) "Transfer-Encoding" = ""%string
    /\ (Forall (fun sf => proxy.textproto_CanonicalMIMEHeaderKey sf
                          <> "Content-Type"%string)
          (httputil.connectionNames (http.RespHeader answer)) ->
        http.Get (http.RespHeader resp) "Content-Type"
        = http.Get (http.RespHeader answer) "Content-Type")
    /\ proxy.ModifyResponse resp (Some info) = Some (info', sniffer)
    /\ recorder.IsStream (recorder.Layout (recorder.Header info'))
       = proxy.UsageSniffer.IsStream sniffer
    /\ (proxy.UsageSniffer.IsStream sniffer = true <->
        strings.Contains (http.Get (http.RespHeader resp) "Content-Type")
          "text/event-stream" = true)
    /\ (forall i data, (0 < length data)%nat ->
        exists i',
          proxy.UsageSniffer.Read sniffer i data
          = if proxy.UsageSniffer.IsStream sniffer
            then ((proxy.UsageSniffer.sniffStream sniffer
                     (recorder.Usage (recorder.Header i')) data).1,
                  recorder.withUsage i'
                    (proxy.UsageSniffer.sniffStream sniffer
                       (recorder.Usage (recorder.Header i')) data).2)
            else (proxy.UsageSniffer.sniffNonStream sniffer data, i')).
Proof.
  intros Hserver Hfalse.
  unfold proxy.upstream. rewrite Hserver.
  set (resp := http.withRespHeader answer _).
  assert (Hte : http.Get (http.RespHeader resp) "Transfer-Encoding"
                = ""%string).
  { unfold http.Get. subst resp. cbn [http.withRespHeader http.RespHeader].
    rewrite removeHopByHopHeaders_hop; [reflexivity|].
    apply (bool_decide_unpack _). vm_compute. exact I. }
  exists resp. unfold proxy.ModifyResponse.
  destruct (proxy.fileWrite info [bytes.LF]) as [info1 n1] eqn:H1.
  destruct (proxy.fileWrite info1 _) as [info2 n2] eqn:H2.
  assert (Hl : recorder.Layout (recorder.Header info2)
               = recorder.Layout (recorder.Header info)).
  { unfold proxy.fileWrite in H1, H2.
    destruct (recorder.File info) as [f|];
      [destruct (os.Write f _) as [[? ?] ?]|]; injection H1 as <- <-;
      cbn [recorder.withFile recorder.File] in H2;
      [|destruct (recorder.File info) as [f1|];
        [destruct (os.Write f1 _) as [[? ?] ?]|]];
      try destruct (os.Write _ _) as [[? ?] ?];
      injection H2 as <- <-; reflexivity. }
  eexists _, _. split; [reflexivity|].
  split; [exact Hte|].
  split.
  { intros Hnames. unfold http.Get. subst resp.
    cbn [http.withRespHeader http.RespHeader].
    rewrite removeHopByHopHeaders_other; [reflexivity| |exact Hnames].
    apply (bool_decide_unpack _). vm_compute. exact I. }
  split; [reflexivity|].
  cbn [proxy.UsageSniffer.IsStream].
  split.
  { destruct (proxy.isStreamResponse resp);
      cbn [recorder.withLayout recorder.Header recorder.Layout
           recorder.IsStream]; [reflexivity|].
    now rewrite Hl. }
  split.
  { unfold proxy.isStreamResponse. rewrite Hte.
    change (String.eqb "" "chunked") with false.
    now rewrite orb_false_r. }
  intros i data Hpos. unfold proxy.UsageSniffer.Read.
  destruct (Nat.ltb_spec 0 (length data)) as [_|Hle]; [|lia].
  cbn [proxy.UsageSniffer.IsStream]. cbv zeta.
  match goal with
  | |- context [recorder.Usage (recorder.Header ?x)] => exists x
  end.
  destruct (proxy.isStreamResponse resp).
  - destruct (proxy.UsageSniffer.sniffStream _ _ _) as [s' u'] eqn:Hs.
    cbn [fst snd]. reflexivity.
  - reflexivity.
Qed.

End StreamDetection.

(** An SSE answer is recorded as a stream and read by the stream
    parser. *)
Lemma ModifyResponse_is_stream_witness :
  exists resp info' sniffer,
    proxy.upstream (scenario.worldOf scenario.streamResponse)
      (scenario.chatRequest sample.streamBody) = proxy.Served resp
    /\ proxy.ModifyResponse resp (Some sample.session)
       = Some (info', sniffer)
    /\ recorder.IsStream (recorder.Layout (recorder.Header info')) = true
    /\ proxy.UsageSniffer.IsStream sniffer = true.
Proof.
  destruct (ModifyResponse_is_stream
              (scenario.worldOf scenario.streamResponse)
              (scenario.chatRequest sample.streamBody)
              scenario.streamResponse sample.session eq_refl eq_refl)
    as (resp & info' & sniffer & Hup & _ & Hct & HM & Hlay & Hiff & _).
  exists resp, info', sniffer. split; [exact Hup|]. split; [exact HM|].
  assert (Hs : proxy.UsageSniffer.IsStream sniffer = true).
  { apply Hiff. rewrite Hct; [vm_compute; reflexivity|].
    vm_compute. constructor. }
  split; [now rewrite Hlay | exact Hs].
Defined.

(** A chunked answer that is no SSE stream is not treated as one. The
    server answers a JSON body with [Transfer-Encoding: chunked]: whether
    the round trip returns it with the coding moved out of the header, as
    [http.Transport] does, or with the header as it was sent, the record
    says [is_stream = false] and the usage is the one the tail parser
    finds in the body. *)
Lemma chunked_json_is_not_a_stream :
  let recorded answer :=
    recorder.Header <$>
      proxy.logInfo
        (proxy.ServeHTTP (scenario.handlerOf []) scenario.client
           (scenario.chatRequest sample.chatBody)
           (scenario.worldOf answer)) in
  http.RespTransferEncoding scenario.chunkedResponse = ["chunked"%string]
  /\ http.Get (http.RespHeader scenario.chunkedResponseAsSent)
       "Transfer-Encoding" = "chunked"%string
  /\ (exists header,
        recorded scenario.chunkedResponse = Some header
        /\ recorder.IsStream (recorder.Layout header) = false
        /\ recorder.Usage header = scenario.usage 9 3 12)
  /\ (exists header,
        recorded scenario.chunkedResponseAsSent = Some header
        /\ recorder.IsStream (recorder.Layout header) = false
        /\ recorder.Usage header = scenario.usage 9 3 12).
Proof.
  intros recorded. split; [reflexivity|].
  split; [vm_compute; reflexivity|].
  split.
  - destruct (recorded scenario.chunkedResponse) as [header|] eqn:Hrec;
      [|vm_compute in Hrec; discriminate].
    exists header. split; [reflexivity|].
    vm_compute in Hrec. injection Hrec as <-. split; reflexivity.
  - destruct (recorded scenario.chunkedResponseAsSent) as [header|]
      eqn:Hrec; [|vm_compute in Hrec; discriminate].
    exists header. split; [reflexivity|].
    vm_compute in Hrec. injection Hrec as <-. split; reflexivity.
Qed.

(** ** The instrumented response writer *)

Section Instrumented.

Lemma performAll_snoc rw calls c :
  performAll rw (calls ++ [c]) = perform (performAll rw calls) c.
Proof. unfold performAll. now rewrite foldl_app. Qed.

(** C10. As long as [Write] was never called the TTFT handed to the
    finalization by [GetMetrics] is [-1], and as long as [WriteHeader]
    was never called the status code it hands over is [200]. *)
Theorem GetMetrics_defaults (w : http.ResponseWriter) (start : Z)
    (calls : list call) :
  let rw := performAll (proxy.NewInstrumentedResponseWriter w start) calls in
  (Forall (fun c => isWrite c = false) calls ->
   (proxy.InstrumentedResponseWriter.GetMetrics rw).2 = -1)
  /\ (Forall (fun c => isWriteHeader c = false) calls ->
      (proxy.InstrumentedResponseWriter.GetMetrics rw).1.1 = 200).
Proof.
  cbv zeta. unfold proxy.InstrumentedResponseWriter.GetMetrics. cbn [fst snd].
  induction calls as [|c calls IH] using rev_ind.
  - split; reflexivity.
  - rewrite performAll_snoc. destruct IH as [IHt IHs].
    split; intros Hall; rewrite Forall_app, Forall_singleton in Hall;
      destruct Hall as [Hcalls Hc].
    + specialize (IHt Hcalls).
      destruct c; cbn in Hc; try discriminate; cbn [perform]; exact IHt.
    + specialize (IHs Hcalls).
      destruct c as [code|now b|]; cbn in Hc; try discriminate;
        cbn [perform]; [|exact IHs].
      unfold proxy.InstrumentedResponseWriter.Write.
      destruct (proxy.InstrumentedResponseWriter.firstByte _);
        destruct (http.ResponseWriter_Write _ _) as [[? ?] ?]; exact IHs.
Qed.

End Instrumented.

Lemma GetMetrics_defaults_witness :
  (proxy.InstrumentedResponseWriter.GetMetrics
     (performAll (proxy.NewInstrumentedResponseWriter scenario.client 5)
        [CallFlush])).2 = -1
  /\ (proxy.InstrumentedResponseWriter.GetMetrics
        (performAll (proxy.NewInstrumentedResponseWriter scenario.client 5)
           [CallWrite 9 (bytes.of_string "ok"); CallFlush])).1.1 = 200.
Proof.
  split.
  - apply (GetMetrics_defaults scenario.client 5 [CallFlush]).
    repeat constructor.
  - apply (GetMetrics_defaults scenario.client 5
             [CallWrite 9 (bytes.of_string "ok"); CallFlush]).
    repeat constructor.
Defined.

(** ** [PrepareLogFile]: the masked key *)

Section MaskKey.

Context `{recorder.Lib}.

#[local] Opaque recorder.padding.










End MaskKey.



(** ** [ensureStreamOptions] *)

Section StreamOptions.

Context `{proxy.Lib}.

Lemma withBody_same (req : http.Request) :
  http.withBody req (http.Body req) = req.
Proof. now destruct req. Qed.

(** Once the options are injected, a second injection changes nothing. *)
Lemma injectStreamOptions_fixed (p p' : gmap string json.value) :
  proxy.injectStreamOptions p = (p', true) ->
  proxy.injectStreamOptions p' = (p', false)
  /\ p' !! "stream"%string = p !! "stream"%string.
Proof.
  unfold proxy.injectStreamOptions at 1.
  destruct (p !! "stream_options"%string) as [[| | | | |opts]|] eqn:Hso;
    try (intros [= <-]; unfold proxy.injectStreamOptions;
         rewrite lookup_insert_eq, lookup_singleton_eq;
         split; [reflexivity | now apply lookup_insert_ne]).
  destruct (opts !! "include_usage"%string) as [[|[|]| | | |]|] eqn:Hiu;
    try discriminate;
    intros [= <-]; unfold proxy.injectStreamOptions;
    rewrite !lookup_insert_eq;
    (split; [reflexivity | now apply lookup_insert_ne]).
Qed.

(** A settled body is put back as it was read. *)
Lemma ensureStreamOptions_settled (req : http.Request) (b : list byte) :
  notJSONPost req = false -> http.Body req = io.NopCloser b -> settled b ->
  proxy.ensureStreamOptions req = req.
Proof.
  intros Hg Hb Hs. unfold proxy.ensureStreamOptions.
  fold (notJSONPost req). rewrite Hg, Hb.
  unfold io.ReadAll, io.NopCloser, proxy.restoreBody. cbv beta iota zeta.
  cbn [io.pending io.fails].
  assert (Hsame : http.withBody req (io.NopCloser b) = req).
  { rewrite <- Hb. apply withBody_same. }
  unfold settled in Hs.
  destruct (proxy.json_Unmarshal_payload b) as [p|]; [|exact Hsame].
  destruct (p !! "stream"%string) as [[|[|]| | | |]|]; try exact Hsame.
  destruct (proxy.injectStreamOptions p) as [p' updated].
  cbn [fst snd] in Hs. destruct Hs as [->| ->]; [exact Hsame|].
  destruct updated; exact Hsame.
Qed.

(** A reader that failed keeps failing, and the request stays as it is. *)
Lemma ensureStreamOptions_failed (req : http.Request) :
  http.Body req = {| io.pending := []; io.fails := true |} ->
  proxy.ensureStreamOptions req = req.
Proof.
  intros Hb. unfold proxy.ensureStreamOptions.
  destruct (_ || _); [reflexivity|].
  rewrite Hb. unfold io.ReadAll. cbv beta iota zeta. cbn [io.pending io.fails].
  rewrite <- Hb. apply withBody_same.
Qed.

(** What a first application leaves behind. *)
Lemma ensureStreamOptions_shape (req : http.Request) :
  (forall p b,
     proxy.json_Unmarshal_payload (io.pending (http.Body req)) = Some p ->
     proxy.json_Marshal_payload (proxy.injectStreamOptions p).1 = Some b ->
     proxy.json_Unmarshal_payload b = Some (proxy.injectStreamOptions p).1) ->
  let req1 := proxy.ensureStreamOptions req in
  (notJSONPost req = true /\ req1 = req)
  \/ (notJSONPost req1 = false
      /\ (http.Body req1 = {| io.pending := []; io.fails := true |}
          \/ exists b, http.Body req1 = io.NopCloser b /\ settled b)).
Proof.
  intros Hrt. cbv zeta. unfold proxy.ensureStreamOptions.
  fold (notJSONPost req).
  destruct (notJSONPost req) eqn:Hg; [left; now split|]. right.
  unfold io.ReadAll. cbv beta iota zeta.
  destruct (io.fails (http.Body req)) eqn:Hfails.
  { split; [exact Hg|]. left. reflexivity. }
  set (body := io.pending (http.Body req)) in *.
  assert (Hkeep : forall b, settled b ->
    notJSONPost (proxy.restoreBody req b) = false
    /\ (http.Body (proxy.restoreBody req b)
          = {| io.pending := []; io.fails := true |}
        \/ exists b', http.Body (proxy.restoreBody req b) = io.NopCloser b'
                      /\ settled b')).
  { intros b Hb. split; [exact Hg|]. right. now exists b. }
  destruct (proxy.json_Unmarshal_payload body) as [p|] eqn:Hp.
  2:{ apply Hkeep. unfold settled. now rewrite Hp. }
  destruct (p !! "stream"%string) as [[|[|]| | | |]|] eqn:Hstream;
    try (apply Hkeep; unfold settled; now rewrite Hp, Hstream).
  destruct (proxy.injectStreamOptions p) as [p' updated] eqn:Hinj.
  destruct updated.
  2:{ apply Hkeep. unfold settled. rewrite Hp, Hstream, Hinj. now left. }
  destruct (proxy.json_Marshal_payload p') as [newBytes|] eqn:Hm.
  2:{ apply Hkeep. unfold settled. rewrite Hp, Hstream, Hinj.
      right. exact Hm. }
  split.
  - unfold notJSONPost, proxy.restoreBody in *.
    cbn [http.withBody http.withHeader http.withContentLength
         http.Method http.ReqHeader].
    unfold http.Set_, http.Get in *.
    now rewrite lookup_insert_ne.
  - right. exists newBytes. split; [reflexivity|].
    specialize (Hrt p newBytes eq_refl). rewrite Hinj in Hrt.
    specialize (Hrt Hm). cbn [fst] in Hrt.
    destruct (injectStreamOptions_fixed p p' Hinj) as [Hfix Hs'].
    unfold settled. rewrite Hrt, Hs', Hstream, Hfix. now left.
Qed.

(** C6. Applying [ensureStreamOptions] twice gives the same request (the
    same body bytes, [Content-Length] field and header) as applying it
    once, provided the JSON codec reads back what it wrote for the
    payload of this request; and a body that already carries
    [stream_options.include_usage == true] is put back as it was read. *)
Theorem ensureStreamOptions_idempotent (req : http.Request) :
  (forall p b,
     proxy.json_Unmarshal_payload (io.pending (http.Body req)) = Some p ->
     proxy.json_Marshal_payload (proxy.injectStreamOptions p).1 = Some b ->
     proxy.json_Unmarshal_payload b = Some (proxy.injectStreamOptions p).1) ->
  proxy.ensureStreamOptions (proxy.ensureStreamOptions req)
  = proxy.ensureStreamOptions req
  /\ (forall p opts,
        io.fails (http.Body req) = false ->
        proxy.json_Unmarshal_payload (io.pending (http.Body req)) = Some p ->
        p !! "stream_options"%string = Some (json.Object opts) ->
        opts !! "include_usage"%string = Some (json.Bool true) ->
        proxy.ensureStreamOptions req = req).
Proof.
  intros Hrt. split.
  - destruct (ensureStreamOptions_shape req Hrt)
      as [[Hg Heq]|[Hg [Hfailed|(b & Hb & Hs)]]].
    + now rewrite !Heq.
    + now apply ensureStreamOptions_failed.
    + now apply (ensureStreamOptions_settled _ b).
  - intros p opts Hfails Hp Hso Hiu.
    destruct (notJSONPost req) eqn:Hg.
    + unfold proxy.ensureStreamOptions. fold (notJSONPost req).
      now rewrite Hg.
    + apply (ensureStreamOptions_settled _ (io.pending (http.Body req)));
        [exact Hg| |].
      * destruct (http.Body req) as [pend fl]. cbn in *. now subst fl.
      * unfold settled. rewrite Hp.
        destruct (p !! "stream"%string) as [[|[|]| | | |]|]; trivial.
        left. unfold proxy.injectStreamOptions. now rewrite Hso, Hiu.
Qed.

End StreamOptions.

Lemma sample_codec_reads_back (body : list byte)
    (p0 : gmap string json.value) :
  proxy.json_Unmarshal_payload body = Some p0 ->
  proxy.json_Marshal_payload (proxy.injectStreamOptions p0).1
    = Some sample.injectedBody ->
  proxy.json_Unmarshal_payload sample.injectedBody
    = Some (proxy.injectStreamOptions p0).1 ->
  forall p b,
    proxy.json_Unmarshal_payload body = Some p ->
    proxy.json_Marshal_payload (proxy.injectStreamOptions p).1 = Some b ->
    proxy.json_Unmarshal_payload b = Some (proxy.injectStreamOptions p).1.
Proof.
  intros Hp0 Hm0 Hu0 p b Hp Hm.
  rewrite Hp0 in Hp. injection Hp as <-.
  rewrite Hm0 in Hm. injection Hm as <-. exact Hu0.
Qed.

Lemma sample_reads_back_streamBody :
  forall p b,
    proxy.json_Unmarshal_payload sample.streamBody = Some p ->
    proxy.json_Marshal_payload (proxy.injectStreamOptions p).1 = Some b ->
    proxy.json_Unmarshal_payload b = Some (proxy.injectStreamOptions p).1.
Proof.
  assert (H1 : proxy.json_Unmarshal_payload sample.streamBody
               = Some (scenario.modelOnly true))
    by (vm_compute; reflexivity).
  assert (H2 : proxy.json_Marshal_payload
                 (proxy.injectStreamOptions (scenario.modelOnly true)).1
               = Some sample.injectedBody)
    by (vm_compute; reflexivity).
  assert (H3 : proxy.json_Unmarshal_payload sample.injectedBody
               = Some (proxy.injectStreamOptions (scenario.modelOnly true)).1)
    by (vm_compute; reflexivity).
  exact (sample_codec_reads_back _ _ H1 H2 H3).
Qed.

Lemma ensureStreamOptions_idempotent_witness :
  let req := scenario.chatRequest sample.streamBody in
  proxy.ensureStreamOptions (proxy.ensureStreamOptions req)
  = proxy.ensureStreamOptions req
  /\ io.pending (http.Body (proxy.ensureStreamOptions req))
     = sample.injectedBody.
Proof.
  intros req. split.
  - exact (proj1 (ensureStreamOptions_idempotent req
                    sample_reads_back_streamBody)).
  - vm_compute. reflexivity.
Defined.

(** ** The replay transport *)

Section Replay.

Context `{replay.Lib}.

Lemma wrap64_small (z : Z) :
  - 2 ^ 63 <= z < 2 ^ 63 -> replay.wrap64 z = z.
Proof.
  intros Hz. unfold replay.wrap64.
  change (2 ^ 64) with (2 * 2 ^ 63) in *.
  rewrite Z.mod_small by lia. lia.
Qed.

(** The offset of the response, for layout fields that are byte counts. *)
Lemma respOffset_exact (a b : Z) :
  0 <= a -> 0 <= b -> 2048 + a + b + 1 < 2 ^ 63 ->
  replay.wrap64 (replay.wrap64 (replay.wrap64 (2048 + a) + b) + 1)
  = 2048 + a + b + 1.
Proof.
  intros Ha Hb Hsum.
  assert (0 < 2 ^ 63) by reflexivity.
  rewrite (wrap64_small (2048 + a)) by lia.
  rewrite (wrap64_small (2048 + a + b)) by lia.
  apply wrap64_small. lia.
Qed.

(** C2. On a record file (at least the 2048 bytes of the slot), a replay
    round trip decides on the first 2048 bytes and nothing else: without
    a line feed among them it fails; if the bytes before the first line
    feed are no header JSON it fails; otherwise it seeks to the [int64]
    sum [2048 + req_header_len + req_body_len + 1] of the parsed fields,
    which is that number whenever the fields are byte counts, and
    returns what [http.ReadResponse] makes of the file from that offset
    on (the seek itself fails on a negative offset). *)
Theorem RoundTrip_header_then_offset (t : replay.Transport)
    (fs : gmap string (list byte)) (content : list byte) :
  fs !! replay.Filename t = Some content ->
  (2048 <= length content)%nat ->
  let headerData := take 2048 content in
  match bytes.IndexByte headerData bytes.LF with
  | None => replay.RoundTrip t fs = inr replay.ErrNoNewline
  | Some idx =>
      match replay.json_Unmarshal_fileHeader (take idx headerData) with
      | None => replay.RoundTrip t fs = inr replay.ErrHeaderJSON
      | Some meta =>
          let a := replay.ReqHeaderLen meta in
          let b := replay.ReqBodyLen meta in
          let respOffset :=
            replay.wrap64 (replay.wrap64 (replay.wrap64 (2048 + a) + b) + 1) in
          (0 <= a -> 0 <= b -> 2048 + a + b + 1 < 2 ^ 63 ->
           respOffset = 2048 + a + b + 1)
          /\ replay.RoundTrip t fs
             = if respOffset <? 0 then inr replay.ErrSeek
               else match replay.http_ReadResponse
                            (drop (Z.to_nat respOffset) content) with
                    | Some resp => inl resp
                    | None => inr replay.ErrParseResponse
                    end
      end
  end.
Proof.
  intros Hfile Hlen. cbv zeta.
  unfold replay.RoundTrip. rewrite Hfile.
  unfold os.ReadFull. cbn [os.closed os.offset os.data].
  rewrite drop_0.
  change replay.HeaderLen with 2048%nat.
  destruct (Nat.ltb_spec (length content) 2048) as [Hlt|_]; [lia|].
  destruct (bytes.IndexByte (take 2048 content) bytes.LF) as [idx|];
    [|reflexivity].
  destruct (replay.json_Unmarshal_fileHeader _) as [meta|]; [|reflexivity].
  split; [apply respOffset_exact|].
  change (Z.of_nat 2048) with 2048.
  unfold os.Seek. cbn [os.closed os.offset os.data].
  destruct (_ <? 0); reflexivity.
Qed.

End Replay.

Lemma RoundTrip_header_then_offset_witness :
  replay.RoundTrip (replay.NewTransport "testdata/non-stream.http")
    {[ "testdata/non-stream.http"%string := recorded.recordedFile ]}
  = inl scenario.okResponse.
Proof.
  pose proof (RoundTrip_header_then_offset
                (replay.NewTransport "testdata/non-stream.http")
                {[ "testdata/non-stream.http"%string := recorded.recordedFile ]}
                recorded.recordedFile) as Hspec.
  cbv zeta in Hspec.
  assert (E1 : bytes.IndexByte (take 2048 recorded.recordedFile) bytes.LF
               = Some 2047%nat) by (vm_compute; reflexivity).
  assert (E2 : replay.json_Unmarshal_fileHeader
                 (take 2047 (take 2048 recorded.recordedFile))
               = Some (recorded.layoutOf
                         (recorder.Header recorded.recordedSession)))
    by (vm_compute; reflexivity).
  rewrite E1, E2 in Hspec.
  destruct Hspec as [_ ->].
  - apply lookup_singleton_eq.
  - apply Nat.leb_le. vm_compute. reflexivity.
  - vm_compute. reflexivity.
Defined.

(** ** Chaos *)

Section Chaos.

Context `{recorder.Lib} `{chaos.Lib} `{proxy.Lib}.

(** [Evaluate] does its part: when the first rule matches the model, its
    draw is below the rate and its action is [error], the result asks for
    an injection with the rule's status code and message, [500] and
    [Chaos Injection Error] standing in for an unset one. *)
Lemma Evaluate_error_rule (m : chaos.Manager) (rule : config.ChaosRule)
    (rest : list config.ChaosRule) (modelName : string) (rand : nat -> Q)
    (i : nat) :
  config.ChaosEnabled (chaos.cfg m) = true ->
  config.ChaosRules (chaos.cfg m) = rule :: rest ->
  (config.Model rule = "*"%string
   \/ chaos.strings_EqualFold (config.Model rule) modelName = true) ->
  chaos.Qltb (rand i) (config.Rate rule) = true ->
  config.Action rule = "error"%string ->
  let res := (chaos.Evaluate m modelName rand i).1 in
  chaos.ShouldInject res = true
  /\ chaos.Action res = "error"%string
  /\ chaos.StatusCode res
     = (if config.StatusCode rule =? 0 then 500 else config.StatusCode rule)
  /\ chaos.Message res
     = (if String.eqb (config.Message rule) ""
        then "Chaos Injection Error"%string else config.Message rule).
Proof.
  intros Hen Hrules Hmatch Hdraw Hact. cbv zeta.
  unfold chaos.Evaluate. rewrite Hen, Hrules. cbn [negb chaos.evalRules].
  assert (Hskip : negb (String.eqb (config.Model rule) "*")
                  && negb (chaos.strings_EqualFold (config.Model rule)
                             modelName) = false).
  { destruct Hmatch as [-> | ->]; [reflexivity|].
    now rewrite andb_false_r. }
  rewrite Hskip, Hdraw.
  cbn [chaos.Action chaos.StatusCode chaos.Message].
  rewrite Hact. cbn [String.eqb Ascii.eqb Bool.eqb andb].
  destruct (config.StatusCode rule =? 0);
    cbn [chaos.Action chaos.StatusCode chaos.Message
         String.eqb Ascii.eqb Bool.eqb andb];
    destruct (String.eqb (config.Message rule) ""); cbn; auto.
Qed.

(** Whatever [Evaluate] returned, a request whose log file could be
    prepared goes to the reverse proxy and is sent upstream once. *)
Lemma ServeHTTP_forwards (h : proxy.Handler) (w : http.ResponseWriter)
    (r : http.Request) (world : proxy.World) (info : recorder.LogInfo) :
  proxy.logInfo (proxy.ServeHTTP h w r world) = Some info ->
  exists outreq, proxy.forwarded (proxy.ServeHTTP h w r world) = [outreq].
Proof.
  unfold proxy.ServeHTTP. cbv zeta.
  destruct (recorder.PrepareLogFile _ _ _ _) as [r' [info0|e]];
    [|destruct (http.ResponseWriter_Write _ _) as [[? ?] ?]; discriminate].
  destruct (chaos.Evaluate _ _ _ _) as [chaosRes i].
  destruct (proxy.reverseProxy _ _ _ _ _ _) as [[[irw ctx] fwd] tick] eqn:HRP.
  destruct (proxy.finalize _ _ _) as [info' uErr].
  cbn [proxy.logInfo proxy.forwarded]. intros _.
  unfold proxy.reverseProxy in HRP.
  destruct (proxy.upstream world _) as [resp|err].
  - destruct (proxy.ModifyResponse resp _) as [[i1 s1]|].
    + destruct (proxy.copyResponse _ _ _ _ _ _) as [[[? ?] ?] ?].
      injection HRP as _ _ <- _. eauto.
    + destruct (proxy.copyPlain _ _ _ _) as [? ?].
      injection HRP as _ _ <- _. eauto.
  - destruct (proxy.ErrorHandler _ _ _ _) as [? ?].
    injection HRP as _ _ <- _. eauto.
Qed.

End Chaos.

(** C3, at the scenario of the specification: chaos is enabled with the
    rule [{model: "*", rate: 1.0, action: "error", status_code: 429}] and
    the upstream would answer [200]. [Evaluate] asks for the injection of
    a [429], yet [ServeHTTP] acts on the [delay] action only: the request
    is sent upstream, the client receives the upstream's [200], and the
    header of the record file says [200]. *)
Theorem chaos_error_is_not_injected :
  let h := scenario.handlerOf [rule429] in
  let out :=
    proxy.ServeHTTP h scenario.client (scenario.chatRequest sample.chatBody)
      (scenario.worldOf scenario.okResponse) in
  (chaos.Evaluate (proxy.chaosManager h) "qwen3-max" (fun _ => 0%Q) 0).1
  = {| chaos.ShouldInject := true; chaos.Action := "error";
       chaos.Delay := 0; chaos.StatusCode := 429;
       chaos.Message := "Chaos Injection Error";
       chaos.RuleDescription := "Rule[Model=*, Action=error]" |}
  /\ length (proxy.forwarded out) = 1%nat
  /\ http.status (proxy.client out) = Some 200
  /\ (recorder.StatusCode ∘ recorder.Meta ∘ recorder.Header)
       <$> proxy.logInfo out = Some 200.
Proof. vm_compute. repeat split. Qed.

(** ** The stream parser *)

Section StreamParser.

Context `{proxy.Lib}.

#[local] Opaque proxy.UsageSniffer.maxLineBuf.

Lemma IndexByte_lt (s : list byte) (c : byte) (idx : nat) :
  bytes.IndexByte s c = Some idx -> (idx < length s)%nat.
Proof.
  revert idx. induction s as [|b t IH]; intros idx; cbn; [discriminate|].
  destruct (Byte.eqb b c).
  - intros [= <-]. lia.
  - destruct (bytes.IndexByte t c) as [i|]; [|discriminate].
    intros [= <-]. specialize (IH i eq_refl). lia.
Qed.

(** The loop's view of a buffer agrees with [splitLines]. *)
Lemma splitLines_IndexByte (s : list byte) :
  match bytes.IndexByte s bytes.LF with
  | None => splitLines s = ([], s)
  | Some idx =>
      splitLines s
      = (take idx s :: linesOf (drop (idx + 1) s),
         pendingOf (drop (idx + 1) s))
  end.
Proof.
  induction s as [|b t IH]; [reflexivity|].
  cbn [bytes.IndexByte splitLines].
  destruct (Byte.eqb b bytes.LF).
  - change (drop (0 + 1) (b :: t)) with t.
    change (take 0 (b :: t)) with (@nil byte).
    unfold linesOf, pendingOf. now destruct (splitLines t).
  - destruct (bytes.IndexByte t bytes.LF) as [i|]; simpl (S <$> _).
    + rewrite IH.
      change (drop (S i + 1) (b :: t)) with (drop (i + 1) t).
      reflexivity.
    + rewrite IH. reflexivity.
Qed.

Lemma splitLines_noLF (s : list byte) :
  bytes.IndexByte s bytes.LF = None -> splitLines s = ([], s).
Proof.
  intros Hn. pose proof (splitLines_IndexByte s) as Hs. now rewrite Hn in Hs.
Qed.

Lemma pendingOf_noLF (s : list byte) :
  bytes.IndexByte (pendingOf s) bytes.LF = None.
Proof.
  unfold pendingOf. induction s as [|b t IH]; [reflexivity|].
  cbn [splitLines]. destruct (splitLines t) as [ls rest]. cbn [snd] in *.
  destruct (Byte.eqb b bytes.LF) eqn:Hb; [exact IH|].
  destruct ls; cbn [snd]; [|exact IH].
  cbn [bytes.IndexByte]. now rewrite Hb, IH.
Qed.

(** Lines of a concatenation: the unfinished line of the first part is
    continued by the second. *)
Lemma splitLines_app (a b : list byte) :
  splitLines (a ++ b)
  = (linesOf a ++ linesOf (pendingOf a ++ b), pendingOf (pendingOf a ++ b)).
Proof.
  unfold linesOf, pendingOf. induction a as [|x a IH]; cbn [app splitLines].
  - cbn [fst snd app]. now destruct (splitLines b).
  - rewrite IH. destruct (splitLines a) as [la ra]. cbn [fst snd].
    destruct (Byte.eqb x bytes.LF) eqn:Hx; cbn [fst snd app].
    + reflexivity.
    + destruct la as [|l la']; cbn [fst snd app].
      * cbn [splitLines]. rewrite Hx.
        destruct (splitLines (ra ++ b)) as [lb rb]. now destruct lb.
      * reflexivity.
Qed.

(** The loop processes the complete lines in order and keeps the
    unfinished one; with [S (length lineBuf)] turns it always ends by
    finding no line feed. *)
Lemma sniffLoop_splitLines (fuel : nat) :
  forall (buf : list byte) (u : recorder.UsageInfo),
  (length buf < fuel)%nat ->
  proxy.UsageSniffer.sniffLoop fuel buf u
  = (pendingOf buf,
     foldl (fun u line => proxy.UsageSniffer.sniffLine line u) u (linesOf buf)).
Proof.
  induction fuel as [|fuel IH]; intros buf u Hlen; [lia|].
  cbn [proxy.UsageSniffer.sniffLoop].
  pose proof (splitLines_IndexByte buf) as Hs.
  unfold linesOf, pendingOf in *.
  destruct (bytes.IndexByte buf bytes.LF) as [idx|] eqn:Hidx.
  - apply IndexByte_lt in Hidx.
    rewrite IH by (rewrite length_drop; lia).
    now rewrite Hs.
  - now rewrite Hs.
Qed.

Lemma sniffLoop_exits (buf : list byte) (u : recorder.UsageInfo) :
  bytes.IndexByte
    (proxy.UsageSniffer.sniffLoop (S (length buf)) buf u).1 bytes.LF = None.
Proof. rewrite sniffLoop_splitLines by lia. apply pendingOf_noLF. Qed.

Lemma capLineBuf_fits (buf : list byte) :
  (length buf <= proxy.UsageSniffer.maxLineBuf)%nat ->
  proxy.UsageSniffer.capLineBuf buf = buf.
Proof.
  intros Hle. unfold proxy.UsageSniffer.capLineBuf.
  destruct (Nat.ltb_spec proxy.UsageSniffer.maxLineBuf (length buf));
    [lia|reflexivity].
Qed.

(** Over the cap, the buffer keeps its last 64 KiB. *)
Lemma capLineBuf_over (buf : list byte) :
  (proxy.UsageSniffer.maxLineBuf < length buf)%nat ->
  proxy.UsageSniffer.capLineBuf buf
  = drop (length buf - proxy.UsageSniffer.maxLineBuf) buf.
Proof.
  intros Hlt. unfold proxy.UsageSniffer.capLineBuf, bytes.copy.
  destruct (Nat.ltb_spec proxy.UsageSniffer.maxLineBuf (length buf));
    [|lia].
  rewrite length_drop.
  rewrite (take_ge (drop _ buf)) by (rewrite length_drop; lia).
  rewrite take_app_length'; [reflexivity|].
  rewrite length_drop. lia.
Qed.

Lemma sniffStream_fits (s : proxy.UsageSniffer.t) (u : recorder.UsageInfo)
    (chunk : list byte) :
  (length (proxy.UsageSniffer.lineBuf s ++ chunk)
   <= proxy.UsageSniffer.maxLineBuf)%nat ->
  proxy.UsageSniffer.sniffStream s u chunk
  = ({| proxy.UsageSniffer.IsStream := proxy.UsageSniffer.IsStream s;
        proxy.UsageSniffer.lineBuf :=
          pendingOf (proxy.UsageSniffer.lineBuf s ++ chunk);
        proxy.UsageSniffer.tailBuf := proxy.UsageSniffer.tailBuf s |},
     foldl (fun u line => proxy.UsageSniffer.sniffLine line u) u
       (linesOf (proxy.UsageSniffer.lineBuf s ++ chunk))).
Proof.
  intros Hle. unfold proxy.UsageSniffer.sniffStream.
  rewrite (capLineBuf_fits _ Hle), sniffLoop_splitLines by lia.
  reflexivity.
Qed.

(** A [Read] on a stream sniffer leaves the usage [sniffStream] computes
    from the usage that was there. *)
Lemma Read_stream (s : proxy.UsageSniffer.t) (info : recorder.LogInfo)
    (data : list byte) :
  proxy.UsageSniffer.IsStream s = true -> (0 < length data)%nat ->
  (proxy.UsageSniffer.Read s info data).1
  = (proxy.UsageSniffer.sniffStream s
       (recorder.Usage (recorder.Header info)) data).1
  /\ recorder.Usage (recorder.Header (proxy.UsageSniffer.Read s info data).2)
     = (proxy.UsageSniffer.sniffStream s
          (recorder.Usage (recorder.Header info)) data).2.
Proof.
  intros Hs Hpos. unfold proxy.UsageSniffer.Read.
  destruct (Nat.ltb_spec 0 (length data)) as [_|]; [|lia].
  rewrite Hs. cbv zeta.
  match goal with
  | |- context [recorder.Usage (recorder.Header ?i)] =>
      assert (Hu : recorder.Usage (recorder.Header i)
                   = recorder.Usage (recorder.Header info));
      [|rewrite Hu]
  end.
  { destruct (recorder.File info) as [f|]; [|reflexivity].
    destruct (os.Write f data) as [[f' n] [e|]]; reflexivity. }
  destruct (proxy.UsageSniffer.sniffStream s _ data) as [s' u'].
  split; reflexivity.
Qed.

(** Lines whose usage is absent, or not positive, leave the destination
    as it is; the others overwrite it, if they pass the fast filter. *)
Lemma sniffLine_lineUsage (line : list byte) (u : recorder.UsageInfo) :
  (is_Some (lineUsage line) ->
   bytes.Contains line proxy.UsageSniffer.usageKey = true) ->
  proxy.UsageSniffer.sniffLine line u = default u (lineUsage line).
Proof.
  intros Hfilter. unfold proxy.UsageSniffer.sniffLine, lineUsage in *.
  destruct (bytes.Contains line proxy.UsageSniffer.usageKey).
  - cbn [negb].
    destruct (bytes.HasPrefix line proxy.UsageSniffer.dataPrefix);
      [|reflexivity].
    destruct (proxy.json_Unmarshal_chunk _) as [[cu|]|]; try reflexivity.
    now destruct (0 <? recorder.TotalTokens cu).
  - cbn [negb].
    destruct (bytes.HasPrefix line proxy.UsageSniffer.dataPrefix);
      [|reflexivity].
    destruct (proxy.json_Unmarshal_chunk _) as [[cu|]|]; try reflexivity.
    destruct (0 <? recorder.TotalTokens cu); [|reflexivity].
    specialize (Hfilter (ex_intro _ _ eq_refl)). discriminate.
Qed.

Lemma sniffLine_no_usage (line : list byte) (u : recorder.UsageInfo) :
  lineUsage line = None -> proxy.UsageSniffer.sniffLine line u = u.
Proof.
  intros Hn. rewrite sniffLine_lineUsage; rewrite Hn; [reflexivity|].
  intros [? [=]].
Qed.

Lemma foldl_sniffLine (lines : list (list byte)) :
  forall u,
  (forall line, line ∈ lines -> is_Some (lineUsage line) ->
     bytes.Contains line proxy.UsageSniffer.usageKey = true) ->
  foldl (fun u line => proxy.UsageSniffer.sniffLine line u) u lines
  = default u (lastUsage lines).
Proof.
  unfold lastUsage.
  induction lines as [|line lines IH]; intros u Hf; [reflexivity|].
  cbn [foldl omap list_omap].
  rewrite IH by (intros l Hl; apply Hf; now right).
  rewrite sniffLine_lineUsage by (apply Hf; now left).
  destruct (lineUsage line) as [x|]; [|reflexivity].
  cbn [default]. rewrite last_cons.
  now destruct (last (omap lineUsage lines)).
Qed.

(** Reading a streamed body whose unfinished line never overflows the
    buffer: the sniffer holds the unfinished line, and the usage went
    through every complete line in order. *)
Lemma readAll_stream (reads : list (list byte)) :
  forall (s : proxy.UsageSniffer.t) (info : recorder.LogInfo),
  proxy.UsageSniffer.IsStream s = true ->
  bytes.IndexByte (proxy.UsageSniffer.lineBuf s) bytes.LF = None ->
  fits (proxy.UsageSniffer.lineBuf s) reads ->
  proxy.UsageSniffer.IsStream (readAll s info reads).1 = true
  /\ recorder.Usage (recorder.Header (readAll s info reads).2)
     = foldl (fun u line => proxy.UsageSniffer.sniffLine line u)
         (recorder.Usage (recorder.Header info))
         (linesOf (proxy.UsageSniffer.lineBuf s ++ concat reads)).
Proof.
  unfold readAll.
  induction reads as [|data rest IH]; intros s info Hs Hno Hfits.
  - cbn [foldl concat fst snd]. rewrite app_nil_r.
    unfold linesOf. rewrite (splitLines_noLF _ Hno). now split.
  - cbn [foldl fst snd concat]. destruct Hfits as [Hle Hrest].
    destruct (Nat.ltb_spec 0 (length data)) as [Hpos|Hzero].
    + destruct (Read_stream s info data Hs Hpos) as [H1 H2].
      rewrite (sniffStream_fits s _ data Hle) in H1, H2. cbn [fst snd] in H1, H2.
      destruct (proxy.UsageSniffer.Read s info data) as [s1 info1].
      cbn [fst snd] in *.
      specialize (IH s1 info1). rewrite H1 in IH at 1 2 3.
      cbn [proxy.UsageSniffer.lineBuf proxy.UsageSniffer.IsStream] in IH.
      specialize (IH Hs (pendingOf_noLF _) Hrest).
      rewrite H1 in IH at 3. cbn [proxy.UsageSniffer.lineBuf] in IH.
      destruct IH as [IH1 IH2]. split; [exact IH1|].
      rewrite IH2, H2, app_assoc.
      unfold linesOf at 3. rewrite splitLines_app. cbn [fst].
      now rewrite foldl_app.
    + assert (data = []) as -> by (destruct data; [reflexivity|cbn in Hzero; lia]).
      rewrite app_nil_r in Hrest.
      unfold pendingOf in Hrest. rewrite (splitLines_noLF _ Hno) in Hrest.
      cbn [snd app] in *.
      unfold proxy.UsageSniffer.Read. cbn [length Nat.ltb Nat.leb fst snd].
      now apply IH.
Qed.

(** C5, as the code has it. For a streamed response whose unfinished
    line never makes the line buffer exceed 64 KiB, and whose
    usage-carrying [data:] lines contain the text ["usage"] that the fast
    filter looks for, the usage in the final header is, in its entirety,
    the usage object of the last [data:] line that decodes to a non-nil
    usage with [total_tokens > 0] (and the initial usage when there is no
    such line). A line whose usage is absent or has [total_tokens <= 0]
    never modifies the destination. *)
Theorem stream_usage_is_last (info : recorder.LogInfo)
    (reads : list (list byte)) :
  fits [] reads ->
  (forall line, line ∈ linesOf (concat reads) -> is_Some (lineUsage line) ->
     bytes.Contains line proxy.UsageSniffer.usageKey = true) ->
  finalUsage streamSniffer info reads
  = default (recorder.Usage (recorder.Header info))
      (lastUsage (linesOf (concat reads)))
  /\ (forall line u,
        lineUsage line = None -> proxy.UsageSniffer.sniffLine line u = u).
Proof.
  intros Hfits Hfilter. split; [|apply sniffLine_no_usage].
  unfold finalUsage. cbv zeta.
  destruct (readAll_stream reads streamSniffer info eq_refl eq_refl Hfits)
    as [Hs Hu].
  unfold proxy.UsageSniffer.Close. rewrite Hs. cbn [negb andb].
  rewrite Hu. cbn [streamSniffer proxy.UsageSniffer.lineBuf app].
  now apply foldl_sniffLine.
Qed.

End StreamParser.

(** The fast filter lets every usage-carrying line of [lines] through:
    checked by evaluation. *)
Lemma filter_checked `{proxy.Lib} (lines : list (list byte)) :
  forallb (fun line =>
             match lineUsage line with
             | Some _ => bytes.Contains line proxy.UsageSniffer.usageKey
             | None => true
             end) lines = true ->
  forall line, line ∈ lines -> is_Some (lineUsage line) ->
    bytes.Contains line proxy.UsageSniffer.usageKey = true.
Proof.
  intros Hall line Hin [u Hu].
  rewrite forallb_forall in Hall.
  specialize (Hall line (proj1 (list_elem_of_In _ _) Hin)).
  now rewrite Hu in Hall.
Qed.

Lemma stream_usage_is_last_witness :
  finalUsage streamSniffer sample.session
    (http.RespBody scenario.streamResponse)
  = scenario.usage 9 5 14.
Proof.
  destruct (stream_usage_is_last sample.session
              (http.RespBody scenario.streamResponse)) as [Hfinal _].
  - cbn [fits http.RespBody scenario.streamResponse].
    split; [apply Nat.leb_le; vm_compute; reflexivity|].
    split; [apply Nat.leb_le; vm_compute; reflexivity|exact I].
  - apply filter_checked. vm_compute. reflexivity.
  - rewrite Hfinal. vm_compute. reflexivity.
Defined.

(** The last usage is not always the one recorded: a [data:] line of
    more than 64 KiB that decodes to a usage with [total_tokens = 14], delivered in reads
    of at most 32 KiB, is the last usage-carrying line of the stream, and
    the usage in the header stays at zero, because the cap on the line
    buffer dropped the beginning of the line and with it the [data:]
    prefix. *)
Lemma long_line_usage_is_lost :
  forallb (fun data => (length data <=? 32 * 1024)%nat) longLineReads = true
  /\ lastUsage (linesOf (concat longLineReads)) = Some (scenario.usage 9 5 14)
  /\ finalUsage streamSniffer sample.session longLineReads
     = recorder.zeroUsage
  /\ recorder.zeroUsage <> scenario.usage 9 5 14.
Proof.
  split; [vm_compute; reflexivity|].
  split; [vm_compute; reflexivity|].
  split; [vm_compute; reflexivity|].
  discriminate.
Qed.

(** ** The copy loop and the reads *)

Section CopyLoop.

Context `{proxy.Lib}.

(** While the client takes every byte, the copy loop hands each read of
    the body to the sniffer, so the session it leaves is the one
    [readAll] computes. *)
Lemma copyResponse_readAll (reads : list (list byte)) :
  forall (s : proxy.UsageSniffer.t) (info : recorder.LogInfo)
         (rw : proxy.InstrumentedResponseWriter.t) (clock : nat -> Z)
         (tick : nat),
  http.room (proxy.InstrumentedResponseWriter.w rw) = None ->
  (proxy.copyResponse reads s info rw clock tick).1.1 = readAll s info reads.
Proof.
  unfold readAll.
  induction reads as [|data rest IH]; intros s info rw clock tick Hroom;
    [reflexivity|].
  cbn [proxy.copyResponse foldl fst snd].
  destruct (proxy.UsageSniffer.Read s info data) as [s1 info1].
  destruct (0 <? length data)%nat; [|now apply IH].
  unfold proxy.InstrumentedResponseWriter.Write, http.ResponseWriter_Write.
  destruct (proxy.InstrumentedResponseWriter.firstByte rw);
    assert (Hr : http.room (http.WriteHeader
                              (proxy.InstrumentedResponseWriter.w rw) 200)
                 = None)
      by (unfold http.WriteHeader;
          destruct (http.status _); exact Hroom);
    rewrite Hr; cbv beta iota zeta; rewrite Nat.eqb_refl;
    cbn [orb negb]; now apply IH.
Qed.

End CopyLoop.

(** ** Replay of a file that is too short *)

Lemma RoundTrip_short_file `{replay.Lib} (t : replay.Transport)
    (fs : gmap string (list byte)) (content : list byte) :
  fs !! replay.Filename t = Some content ->
  (length content < 2048)%nat ->
  replay.RoundTrip t fs = inr replay.ErrReadHeaderBlock.
Proof.
  intros Hfile Hlen. unfold replay.RoundTrip. rewrite Hfile.
  unfold os.ReadFull. cbn [os.closed os.offset os.data].
  rewrite drop_0. change replay.HeaderLen with 2048%nat.
  destruct (Nat.ltb_spec (length content) 2048); [reflexivity|lia].
Qed.

(* ===================================================================== *)
(** * Part IV: further properties of the code                              *)
(* ===================================================================== *)

(** ** The sniffer's buffers *)

Section SnifferBuffers.

Context `{proxy.Lib}.

#[local] Opaque proxy.UsageSniffer.maxLineBuf.

Lemma pendingOf_length (s : list byte) :
  (length (pendingOf s) <= length s)%nat.
Proof.
  unfold pendingOf. induction s as [|b t IH]; [reflexivity|].
  cbn [splitLines]. destruct (splitLines t) as [ls rest]. cbn [snd] in *.
  destruct (Byte.eqb b bytes.LF); [cbn [snd length]; lia|].
  destruct ls; cbn [snd length]; lia.
Qed.

Lemma capLineBuf_length (buf : list byte) :
  (length (proxy.UsageSniffer.capLineBuf buf)
   <= proxy.UsageSniffer.maxLineBuf)%nat.
Proof.
  destruct (Nat.le_gt_cases (length buf) proxy.UsageSniffer.maxLineBuf)
    as [Hle|Hgt].
  - now rewrite capLineBuf_fits.
  - rewrite capLineBuf_over by assumption. rewrite length_drop. lia.
Qed.

(** Whatever the buffer and the chunk, [sniffStream] leaves at most
    64 KiB in the line buffer, and no complete line. *)
Lemma sniffStream_bounded (s : proxy.UsageSniffer.t)
    (u : recorder.UsageInfo) (chunk : list byte) :
  let s' := (proxy.UsageSniffer.sniffStream s u chunk).1 in
  (length (proxy.UsageSniffer.lineBuf s')
   <= proxy.UsageSniffer.maxLineBuf)%nat
  /\ bytes.IndexByte (proxy.UsageSniffer.lineBuf s') bytes.LF = None
  /\ proxy.UsageSniffer.IsStream s' = proxy.UsageSniffer.IsStream s.
Proof.
  cbv zeta. unfold proxy.UsageSniffer.sniffStream.
  rewrite sniffLoop_splitLines by lia.
  cbn [fst proxy.UsageSniffer.lineBuf proxy.UsageSniffer.IsStream].
  split; [|split; [apply pendingOf_noLF|reflexivity]].
  etransitivity; [apply pendingOf_length|apply capLineBuf_length].
Qed.

(** X1. However the body of a streamed response arrives, and however
    long its lines are, the line buffer of the sniffer never holds more
    than 64 KiB after a read, and never a complete line. *)
Theorem lineBuf_bounded (info : recorder.LogInfo) (reads : list (list byte)) :
  (length (proxy.UsageSniffer.lineBuf (readAll streamSniffer info reads).1)
   <= proxy.UsageSniffer.maxLineBuf)%nat
  /\ bytes.IndexByte
       (proxy.UsageSniffer.lineBuf (readAll streamSniffer info reads).1)
       bytes.LF = None.
Proof.
  assert (Hgen : forall s i,
    proxy.UsageSniffer.IsStream s = true ->
    (length (proxy.UsageSniffer.lineBuf s)
     <= proxy.UsageSniffer.maxLineBuf)%nat ->
    bytes.IndexByte (proxy.UsageSniffer.lineBuf s) bytes.LF = None ->
    (length (proxy.UsageSniffer.lineBuf (readAll s i reads).1)
     <= proxy.UsageSniffer.maxLineBuf)%nat
    /\ bytes.IndexByte
         (proxy.UsageSniffer.lineBuf (readAll s i reads).1) bytes.LF = None).
  { unfold readAll. induction reads as [|data rest IH]; intros s i Hs Hlen Hno.
    - now split.
    - cbn [foldl fst snd].
      destruct (Nat.ltb_spec 0 (length data)) as [Hpos|Hzero].
      + destruct (Read_stream s i data Hs Hpos) as [H1 _].
        destruct (sniffStream_bounded s
                    (recorder.Usage (recorder.Header i)) data)
          as (Hb1 & Hb2 & Hb3).
        rewrite <- H1 in Hb1, Hb2, Hb3.
        destruct (proxy.UsageSniffer.Read s i data) as [s1 i1].
        cbn [fst snd] in *. apply IH; [congruence|assumption|assumption].
      + unfold proxy.UsageSniffer.Read.
        destruct (Nat.ltb_spec 0 (length data)); [lia|].
        cbn [fst snd]. now apply IH. }
  apply Hgen; [reflexivity| |reflexivity].
  cbn [streamSniffer proxy.UsageSniffer.lineBuf length]. lia.
Qed.

(** The tail buffer after one more chunk. *)
Lemma sniffNonStream_tail (s : proxy.UsageSniffer.t) (all chunk : list byte) :
  proxy.UsageSniffer.tailBuf s = lastBytes 4096 all ->
  proxy.UsageSniffer.tailBuf (proxy.UsageSniffer.sniffNonStream s chunk)
  = lastBytes 4096 (all ++ chunk).
Proof.
  unfold proxy.UsageSniffer.sniffNonStream, lastBytes.
  cbn [proxy.UsageSniffer.tailBuf]. cbv zeta.
  generalize 4096%nat as n. intros n Ht. rewrite Ht.
  set (k := (length all - n)%nat).
  assert (Hk : (k <= length all)%nat) by lia.
  rewrite length_drop, length_app.
  destruct (Nat.ltb_spec n (length all - k + length chunk)) as [Hover|Hfit].
  - rewrite length_app, length_drop.
    destruct (Z.ltb_spec
                (Z.of_nat (length all - k + length chunk) - Z.of_nat n) 0);
      [lia|].
    replace (Z.to_nat (Z.of_nat (length all - k + length chunk) - Z.of_nat n))
      with (length all - k + length chunk - n)%nat by lia.
    set (m := (length all - k + length chunk - n)%nat).
    transitivity
      (drop (length (take k all) + m) (take k all ++ (drop k all ++ chunk))).
    + now rewrite drop_app_add.
    + rewrite app_assoc, take_drop. f_equal. rewrite length_take. lia.
  - destruct (Nat.le_gt_cases (length all) n) as [Hsmall|Hbig].
    + replace k with 0%nat by lia. rewrite ?length_app.
      replace (length all + length chunk - n)%nat with 0%nat by lia.
      reflexivity.
    + assert (chunk = []) as -> by (destruct chunk; [reflexivity|cbn in Hfit; lia]).
      rewrite !app_nil_r. reflexivity.
Qed.

Lemma readAll_tail (reads : list (list byte)) :
  forall (s : proxy.UsageSniffer.t) (i : recorder.LogInfo) (all : list byte),
  proxy.UsageSniffer.IsStream s = false ->
  proxy.UsageSniffer.tailBuf s = lastBytes 4096 all ->
  proxy.UsageSniffer.IsStream (readAll s i reads).1 = false
  /\ proxy.UsageSniffer.tailBuf (readAll s i reads).1
     = lastBytes 4096 (all ++ concat reads)
  /\ recorder.Usage (recorder.Header (readAll s i reads).2)
     = recorder.Usage (recorder.Header i).
Proof.
  unfold readAll. induction reads as [|data rest IH]; intros s i all Hs Ht.
  - cbn [foldl concat fst snd]. now rewrite app_nil_r.
  - cbn [foldl concat fst snd]. rewrite app_assoc.
    unfold proxy.UsageSniffer.Read at 2 4 6.
    destruct (Nat.ltb_spec 0 (length data)) as [Hpos|Hzero].
    + rewrite Hs. cbv zeta. cbn [fst snd].
      match goal with
      | |- context [foldl _ (_, ?j) rest] =>
          assert (Hu : recorder.Usage (recorder.Header j)
                       = recorder.Usage (recorder.Header i))
      end.
      { destruct (recorder.File i) as [f|]; [|reflexivity].
        destruct (os.Write f data) as [[f' n] [e|]]; reflexivity. }
      rewrite <- Hu. apply IH; [exact Hs|].
      now apply sniffNonStream_tail.
    + assert (data = []) as -> by (destruct data; [reflexivity|cbn in Hzero; lia]).
      rewrite app_nil_r. cbn [fst snd]. now apply IH.
Qed.

(** X2. While a response that is not streamed is read, the tail buffer
    holds the last 4096 bytes of everything read so far: the whole body
    while it is shorter than that. *)
Theorem tailBuf_is_last_4096 (info : recorder.LogInfo)
    (reads : list (list byte)) :
  proxy.UsageSniffer.tailBuf (readAll tailSniffer info reads).1
  = lastBytes 4096 (concat reads)
  /\ ((length (concat reads) <= 4096)%nat ->
      proxy.UsageSniffer.tailBuf (readAll tailSniffer info reads).1
      = concat reads).
Proof.
  destruct (readAll_tail reads tailSniffer info [] eq_refl eq_refl)
    as (_ & Ht & _).
  cbn [app] in Ht. split; [exact Ht|].
  intros Hle. rewrite Ht. unfold lastBytes.
  now replace (length (concat reads) - 4096)%nat with 0%nat by lia.
Qed.

(** X3. The usage a streamed response leaves in the header does not
    depend on how the body was cut into reads, as long as no read makes
    the line buffer overflow. *)
Theorem stream_usage_independent_of_reads (info : recorder.LogInfo)
    (reads1 reads2 : list (list byte)) :
  fits [] reads1 -> fits [] reads2 -> concat reads1 = concat reads2 ->
  finalUsage streamSniffer info reads1 = finalUsage streamSniffer info reads2.
Proof.
  intros H1 H2 Hsame. unfold finalUsage. cbv zeta.
  destruct (readAll_stream reads1 streamSniffer info eq_refl eq_refl H1)
    as [Hs1 Hu1].
  destruct (readAll_stream reads2 streamSniffer info eq_refl eq_refl H2)
    as [Hs2 Hu2].
  unfold proxy.UsageSniffer.Close. rewrite Hs1, Hs2. cbn [negb andb].
  now rewrite Hu1, Hu2, Hsame.
Qed.

End SnifferBuffers.

Lemma tailBuf_is_last_4096_witness :
  proxy.UsageSniffer.tailBuf
    (readAll tailSniffer sample.session
       (http.RespBody scenario.okResponse)).1
  = concat (http.RespBody scenario.okResponse).
Proof.
  apply (tailBuf_is_last_4096 sample.session
           (http.RespBody scenario.okResponse)).
  apply Nat.leb_le. vm_compute. reflexivity.
Defined.

Lemma stream_usage_independent_of_reads_witness :
  finalUsage streamSniffer sample.session
    (http.RespBody scenario.streamResponse)
  = finalUsage streamSniffer sample.session
      [concat (http.RespBody scenario.streamResponse)].
Proof.
  apply (stream_usage_independent_of_reads sample.session
           (http.RespBody scenario.streamResponse)
           [concat (http.RespBody scenario.streamResponse)]).
  - cbn [fits http.RespBody scenario.streamResponse].
    split; [apply Nat.leb_le; vm_compute; reflexivity|].
    split; [apply Nat.leb_le; vm_compute; reflexivity|exact I].
  - cbn [fits]. split; [apply Nat.leb_le; vm_compute; reflexivity|exact I].
  - cbn [concat]. now rewrite app_nil_r.
Defined.

(** ** The tail parser *)

Section TailParser.

Context `{proxy.Lib}.

Lemma LastIndex_absent (s sep : list byte) :
  bytes.Index s sep = None -> bytes.LastIndex s sep = None.
Proof.
  induction s as [|b t IH]; cbn [bytes.Index bytes.LastIndex].
  - now destruct (bytes.HasPrefix [] sep).
  - destruct (bytes.HasPrefix (b :: t) sep); [discriminate|].
    destruct (bytes.Index t sep); [discriminate|].
    intros _. now rewrite IH.
Qed.

Lemma Index_single (s : list byte) (c : byte) :
  bytes.Index s [c] = bytes.IndexByte s c.
Proof.
  induction s as [|b t IH]; [reflexivity|].
  cbn [bytes.Index bytes.IndexByte bytes.HasPrefix].
  replace (bytes.HasPrefix t []) with true by (now destruct t).
  rewrite andb_true_r.
  replace (Byte.eqb c b) with (Byte.eqb b c).
  - destruct (Byte.eqb b c); [reflexivity|now rewrite IH].
  - destruct (Byte.eqb b c) eqn:E1, (Byte.eqb c b) eqn:E2; try reflexivity.
    + apply Byte.byte_dec_bl in E1. subst.
      now rewrite (Byte.byte_dec_lb eq_refl) in E2.
    + apply Byte.byte_dec_bl in E2. subst.
      now rewrite (Byte.byte_dec_lb eq_refl) in E1.
Qed.

Lemma IndexByte_app_absent (a b : list byte) (c : byte) :
  bytes.IndexByte a c = None ->
  bytes.IndexByte (a ++ b) c
  = (fun i => (length a + i)%nat) <$> bytes.IndexByte b c.
Proof.
  induction a as [|x a IH]; cbn [app bytes.IndexByte length].
  - intros _. now destruct (bytes.IndexByte b c).
  - destruct (Byte.eqb x c); [discriminate|].
    destruct (bytes.IndexByte a c) eqn:Ha; [discriminate|].
    intros _. rewrite IH by reflexivity.
    now destruct (bytes.IndexByte b c).
Qed.

Lemma IndexByte_head (b : list byte) (c : byte) :
  bytes.IndexByte (c :: b) c = Some 0%nat.
Proof. cbn. now rewrite (Byte.byte_dec_lb eq_refl). Qed.

(** Brace matching over a run without braces, at depth one. *)
Lemma matchBrace_plain (inner post : list byte) :
  forall i,
  bytes.IndexByte inner bytes.LBRACE = None ->
  bytes.IndexByte inner bytes.RBRACE = None ->
  proxy.UsageSniffer.matchBrace (inner ++ bytes.RBRACE :: post) i 1
  = Some (i + length inner + 1)%nat.
Proof.
  induction inner as [|x inner IH]; intros i HL HR;
    cbn [app proxy.UsageSniffer.matchBrace length].
  - cbn. f_equal. lia.
  - cbn [bytes.IndexByte] in HL, HR.
    destruct (Byte.eqb x bytes.LBRACE); [discriminate|].
    destruct (Byte.eqb x bytes.RBRACE); [discriminate|].
    destruct (bytes.IndexByte inner bytes.LBRACE); [discriminate|].
    destruct (bytes.IndexByte inner bytes.RBRACE); [discriminate|].
    rewrite IH by reflexivity. f_equal. lia.
Qed.

(** The result is the target or a decoded usage with a positive total,
    and the target when the key does not occur. *)
Lemma extractUsageFromTail_conservative (data : list byte)
    (target : recorder.UsageInfo) :
  (bytes.Contains data proxy.UsageSniffer.usageKey = false ->
   proxy.UsageSniffer.extractUsageFromTail data target = target)
  /\ (proxy.UsageSniffer.extractUsageFromTail data target = target
      \/ 0 < recorder.TotalTokens
               (proxy.UsageSniffer.extractUsageFromTail data target)).
Proof.
  unfold proxy.UsageSniffer.extractUsageFromTail, bytes.Contains.
  destruct (length data =? 0)%nat; [split; auto|].
  split.
  - destruct (bytes.Index data proxy.UsageSniffer.usageKey) eqn:Hi;
      [discriminate|].
    intros _. now rewrite (LastIndex_absent _ _ Hi).
  - destruct (bytes.LastIndex data proxy.UsageSniffer.usageKey); [|now left].
    destruct (bytes.Index _ [bytes.LBRACE]); [|now left].
    destruct (proxy.UsageSniffer.matchBrace _ 0 0); [|now left].
    destruct (proxy.json_Unmarshal_usage _) as [u|]; [|now left].
    destruct (Z.ltb_spec 0 (recorder.TotalTokens u)); [now right|now left].
Qed.

(** A flat object after the last occurrence of the key is decoded. *)
Lemma extractUsageFromTail_flat (pre mid inner post : list byte)
    (target u : recorder.UsageInfo) :
  let data :=
    pre ++ proxy.UsageSniffer.usageKey ++ mid
        ++ bytes.LBRACE :: inner ++ bytes.RBRACE :: post in
  bytes.LastIndex data proxy.UsageSniffer.usageKey = Some (length pre) ->
  bytes.IndexByte mid bytes.LBRACE = None ->
  bytes.IndexByte inner bytes.LBRACE = None ->
  bytes.IndexByte inner bytes.RBRACE = None ->
  proxy.json_Unmarshal_usage (bytes.LBRACE :: inner ++ [bytes.RBRACE])
  = Some u ->
  0 < recorder.TotalTokens u ->
  proxy.UsageSniffer.extractUsageFromTail data target = u.
Proof.
  intros data Hlast Hmid HL HR Hdec Hpos.
  unfold proxy.UsageSniffer.extractUsageFromTail.
  assert (Hlen : (length data =? 0)%nat = false).
  { apply Nat.eqb_neq. unfold data. rewrite !length_app. cbn. lia. }
  rewrite Hlen, Hlast. unfold data. rewrite drop_app_length.
  rewrite Index_single.
  rewrite IndexByte_app_absent by (vm_compute; reflexivity).
  rewrite IndexByte_app_absent by assumption.
  rewrite IndexByte_head. cbn [fmap option_fmap option_map].
  rewrite Nat.add_0_r, app_assoc.
  rewrite <- length_app, drop_app_length.
  cbn [proxy.UsageSniffer.matchBrace].
  change (Byte.eqb bytes.LBRACE bytes.LBRACE) with true. cbv iota.
  change (0 + 1) with 1.
  rewrite matchBrace_plain by assumption.
  replace (1 + length inner + 1)%nat with (S (length inner + 1)) by lia.
  cbn [take].
  replace (length inner + 1)%nat with (length (inner ++ [bytes.RBRACE]))
    by (rewrite length_app; reflexivity).
  change (inner ++ bytes.RBRACE :: post)
    with (inner ++ [bytes.RBRACE] ++ post).
  rewrite app_assoc, take_app_length, Hdec.
  destruct (Z.ltb_spec 0 (recorder.TotalTokens u)); [reflexivity|lia].
Qed.

(** X4. After a response that is not streamed, the usage in the header is
    either what it was or an object decoded from the body with
    [total_tokens > 0]; it is what it was whenever the text ["usage"]
    does not occur in the last 4096 bytes of the body, wherever else it
    may occur. *)
Theorem tail_usage_conservative (info : recorder.LogInfo)
    (reads : list (list byte)) :
  (bytes.Contains (lastBytes 4096 (concat reads))
     proxy.UsageSniffer.usageKey = false ->
   finalUsage tailSniffer info reads = recorder.Usage (recorder.Header info))
  /\ (finalUsage tailSniffer info reads
      = recorder.Usage (recorder.Header info)
      \/ 0 < recorder.TotalTokens (finalUsage tailSniffer info reads)).
Proof.
  unfold finalUsage. cbv zeta.
  destruct (readAll_tail reads tailSniffer info [] eq_refl eq_refl)
    as (Hs & Ht & Hu).
  cbn [app] in Ht. unfold proxy.UsageSniffer.Close.
  rewrite Hs, Ht, Hu. cbn [negb andb].
  destruct (recorder.TotalTokens (recorder.Usage (recorder.Header info)) =? 0);
    [|split; auto].
  cbn [recorder.withUsage recorder.Header recorder.Usage].
  apply extractUsageFromTail_conservative.
Qed.

(** X5. After a response that is not streamed, if the session had no
    usage yet and the last 4096 bytes of the body have their last
    ["usage"] followed, after some bytes without a brace, by a brace-free
    object that decodes to a usage with [total_tokens > 0], then that
    usage is the one in the header. *)
Theorem tail_usage_extracted (info : recorder.LogInfo)
    (reads : list (list byte)) (pre mid inner post : list byte)
    (u : recorder.UsageInfo) :
  recorder.TotalTokens (recorder.Usage (recorder.Header info)) = 0 ->
  lastBytes 4096 (concat reads)
  = pre ++ proxy.UsageSniffer.usageKey ++ mid
        ++ bytes.LBRACE :: inner ++ bytes.RBRACE :: post ->
  bytes.LastIndex (lastBytes 4096 (concat reads)) proxy.UsageSniffer.usageKey
  = Some (length pre) ->
  bytes.IndexByte mid bytes.LBRACE = None ->
  bytes.IndexByte inner bytes.LBRACE = None ->
  bytes.IndexByte inner bytes.RBRACE = None ->
  proxy.json_Unmarshal_usage (bytes.LBRACE :: inner ++ [bytes.RBRACE])
  = Some u ->
  0 < recorder.TotalTokens u ->
  finalUsage tailSniffer info reads = u.
Proof.
  intros Hzero Hshape Hlast Hmid HL HR Hdec Hpos.
  unfold finalUsage. cbv zeta.
  destruct (readAll_tail reads tailSniffer info [] eq_refl eq_refl)
    as (Hs & Ht & Hu).
  cbn [app] in Ht. unfold proxy.UsageSniffer.Close.
  rewrite Hs, Ht, Hu, Hzero. cbn [negb andb Z.eqb].
  cbn [recorder.withUsage recorder.Header recorder.Usage].
  rewrite Hshape in Hlast |- *.
  now apply extractUsageFromTail_flat.
Qed.

End TailParser.

Lemma tail_usage_conservative_witness :
  finalUsage tailSniffer sample.session [bytes.of_string "{}"]
  = recorder.Usage (recorder.Header sample.session).
Proof.
  apply (tail_usage_conservative sample.session [bytes.of_string "{}"]).
  vm_compute. reflexivity.
Defined.

Lemma tail_usage_extracted_witness :
  finalUsage tailSniffer sample.session (http.RespBody scenario.okResponse)
  = scenario.usage 9 3 12.
Proof.
  apply (tail_usage_extracted sample.session
           (http.RespBody scenario.okResponse)
           (bytes.LBRACE :: sample.field "id" (sample.quoted "chatcmpl-1")
              ++ bytes.of_string ",")
           (bytes.of_string ":")
           (sample.field "prompt_tokens" (sample.num 9)
              ++ bytes.of_string ","
              ++ sample.field "completion_tokens" (sample.num 3)
              ++ bytes.of_string ","
              ++ sample.field "total_tokens" (sample.num 12))
           [bytes.RBRACE]);
    vm_compute; reflexivity.
Defined.

(** ** The instrumented writer, continued *)

Section InstrumentedMore.




Lemma performAll_app rw calls1 calls2 :
  performAll rw (calls1 ++ calls2) = performAll (performAll rw calls1) calls2.
Proof. unfold performAll. apply foldl_app. Qed.

(** Before the first [Write] the writer still waits for the first byte. *)
Lemma performAll_no_write (rw : proxy.InstrumentedResponseWriter.t)
    (calls : list call) :
  Forall (fun c => isWrite c = false) calls ->
  proxy.InstrumentedResponseWriter.firstByte (performAll rw calls)
  = proxy.InstrumentedResponseWriter.firstByte rw
  /\ proxy.InstrumentedResponseWriter.startTime (performAll rw calls)
     = proxy.InstrumentedResponseWriter.startTime rw.
Proof.
  induction calls as [|c calls IH] using rev_ind; [now split|].
  rewrite Forall_app, Forall_singleton. intros [Hcalls Hc].
  rewrite performAll_snoc. specialize (IH Hcalls).
  destruct c; cbn in Hc; try discriminate; cbn [perform]; exact IH.
Qed.

(** After the first byte the TTFT does not move. *)
Lemma performAll_ttft_fixed (rw : proxy.InstrumentedResponseWriter.t)
    (calls : list call) :
  proxy.InstrumentedResponseWriter.firstByte rw = false ->
  proxy.InstrumentedResponseWriter.firstByte (performAll rw calls) = false
  /\ proxy.InstrumentedResponseWriter.ttft (performAll rw calls)
     = proxy.InstrumentedResponseWriter.ttft rw.
Proof.
  intros Hf. induction calls as [|c calls IH] using rev_ind; [now split|].
  rewrite performAll_snoc. destruct IH as [IHf IHt].
  destruct c as [code|now b|]; cbn [perform]; try (now split).
  unfold proxy.InstrumentedResponseWriter.Write. rewrite IHf.
  destruct (http.ResponseWriter_Write _ b) as [[w' n] err].
  now split.
Qed.

(** X7. The TTFT handed to the finalization is the clock at the first
    [Write] minus the clock at the creation of the writer, whatever is
    called before that [Write] (no [Write]) and after it. *)
Theorem ttft_is_first_write (w : http.ResponseWriter) (start now : Z)
    (before after : list call) (b : list byte) :
  Forall (fun c => isWrite c = false) before ->
  (proxy.InstrumentedResponseWriter.GetMetrics
     (performAll (proxy.NewInstrumentedResponseWriter w start)
        (before ++ CallWrite now b :: after))).2
  = now - start.
Proof.
  intros Hbefore. unfold proxy.InstrumentedResponseWriter.GetMetrics.
  cbn [snd].
  change (CallWrite now b :: after) with ([CallWrite now b] ++ after).
  rewrite app_assoc, performAll_app, performAll_snoc.
  destruct (performAll_no_write
              (proxy.NewInstrumentedResponseWriter w start) before Hbefore)
    as [Hf Hs].
  set (rw0 := performAll (proxy.NewInstrumentedResponseWriter w start) before)
    in *.
  assert (Hw : proxy.InstrumentedResponseWriter.firstByte
                 (perform rw0 (CallWrite now b)) = false
               /\ proxy.InstrumentedResponseWriter.ttft
                    (perform rw0 (CallWrite now b)) = now - start).
  { cbn [perform]. unfold proxy.InstrumentedResponseWriter.Write.
    rewrite Hf, Hs. cbn [proxy.NewInstrumentedResponseWriter
      proxy.InstrumentedResponseWriter.firstByte
      proxy.InstrumentedResponseWriter.startTime].
    destruct (http.ResponseWriter_Write _ b) as [[w' n] err]. now split. }
  destruct Hw as [Hwf Hwt].
  destruct (performAll_ttft_fixed _ after Hwf) as [_ ->]. exact Hwt.
Qed.

(** X8. On a client that was not yet sent a status line, when the first
    [WriteHeader] carries a final status code ([101], or one from [200]
    to [999]: an informational one would leave the status open), the
    status the client sees is the one of the first [WriteHeader], the
    status the writer reports is the one of the last: a later
    [WriteHeader] changes what is recorded, not what was sent. *)
Theorem status_recorded_is_last (room : option nat) (start : Z)
    (first last : Z) (between after : list call) :
  first = 101 \/ 200 <= first <= 999 ->
  Forall (fun c => isWriteHeader c = false) after ->
  let rw :=
    performAll (proxy.NewInstrumentedResponseWriter
                  (http.newResponseWriter room) start)
      (CallWriteHeader first :: between ++ CallWriteHeader last :: after) in
  http.status (proxy.InstrumentedResponseWriter.w rw) = Some first
  /\ (proxy.InstrumentedResponseWriter.GetMetrics rw).1.1 = last.
Proof.
  intros _ Hafter. cbv zeta.
  unfold proxy.InstrumentedResponseWriter.GetMetrics. cbn [fst snd].
  split.
  - assert (Hkeep : forall calls rw c,
      http.status (proxy.InstrumentedResponseWriter.w rw) = Some c ->
      http.status (proxy.InstrumentedResponseWriter.w (performAll rw calls))
      = Some c).
    { induction calls as [|x calls IH] using rev_ind; intros rw c Hc;
        [exact Hc|].
      rewrite performAll_snoc. specialize (IH rw c Hc).
      destruct x as [code|now b|]; cbn [perform].
      - cbn. unfold http.WriteHeader. now rewrite IH.
      - unfold proxy.InstrumentedResponseWriter.Write,
          http.ResponseWriter_Write, http.WriteHeader.
        rewrite IH.
        destruct (proxy.InstrumentedResponseWriter.firstByte _);
          destruct (http.room _) as [k|];
          try destruct (length b <=? k)%nat; exact IH.
      - exact IH. }
    change (CallWriteHeader first :: between ++ CallWriteHeader last :: after)
      with ([CallWriteHeader first]
              ++ (between ++ CallWriteHeader last :: after)).
    rewrite performAll_app. apply Hkeep. reflexivity.
  - change (CallWriteHeader first :: between ++ CallWriteHeader last :: after)
      with ((CallWriteHeader first :: between)
              ++ [CallWriteHeader last] ++ after).
    rewrite app_assoc, performAll_app, performAll_snoc.
    set (rw1 := perform _ (CallWriteHeader last)).
    assert (H1 : proxy.InstrumentedResponseWriter.statusCode rw1 = last)
      by reflexivity.
    clearbody rw1.
    induction after as [|c after IH] using rev_ind; [exact H1|].
    rewrite Forall_app, Forall_singleton in Hafter.
    destruct Hafter as [Hafter Hc].
    rewrite performAll_snoc. specialize (IH Hafter).
    destruct c as [code|now b|]; cbn in Hc; try discriminate;
      cbn [perform]; [|exact IH].
    unfold proxy.InstrumentedResponseWriter.Write.
    destruct (proxy.InstrumentedResponseWriter.firstByte _);
      destruct (http.ResponseWriter_Write _ _) as [[? ?] ?]; exact IH.
Qed.

End InstrumentedMore.

Lemma ttft_is_first_write_witness :
  (proxy.InstrumentedResponseWriter.GetMetrics
     (performAll (proxy.NewInstrumentedResponseWriter scenario.client 5)
        ([CallWriteHeader 200; CallFlush]
           ++ CallWrite 42 (bytes.of_string "data: ")
           :: [CallWrite 90 (bytes.of_string "more"); CallFlush]))).2
  = 42 - 5.
Proof.
  apply (ttft_is_first_write scenario.client 5 42
           [CallWriteHeader 200; CallFlush]
           [CallWrite 90 (bytes.of_string "more"); CallFlush]).
  repeat constructor.
Defined.

Lemma status_recorded_is_last_witness :
  let rw :=
    performAll (proxy.NewInstrumentedResponseWriter
                  (http.newResponseWriter None) 0)
      (CallWriteHeader 200
         :: [CallWrite 3 (bytes.of_string "partial")]
         ++ CallWriteHeader 502 :: [CallFlush]) in
  http.status (proxy.InstrumentedResponseWriter.w rw) = Some 200
  /\ (proxy.InstrumentedResponseWriter.GetMetrics rw).1.1 = 502.
Proof.
  apply (status_recorded_is_last None 0 200 502
           [CallWrite 3 (bytes.of_string "partial")] [CallFlush]).
  - right. lia.
  - repeat constructor.
Defined.

(** ** The chaos rules *)

Section ChaosRules.

Context `{chaos.Lib}.

Lemma evalRules_step (rule : config.ChaosRule)
    (rest : list config.ChaosRule) (modelName : string) (rand : nat -> Q)
    (i : nat) :
  chaos.evalRules (rule :: rest) modelName rand i
  = if appliesTo rule modelName then
      if chaos.Qltb (rand i) (config.Rate rule) then (firing rule, S i)
      else chaos.evalRules rest modelName rand (S i)
    else chaos.evalRules rest modelName rand i.
Proof.
  cbn [chaos.evalRules]. unfold appliesTo, firing. cbv zeta.
  destruct (String.eqb (config.Model rule) "*");
    destruct (chaos.strings_EqualFold (config.Model rule) modelName);
    cbn [negb andb orb]; try reflexivity;
    destruct (chaos.Qltb (rand i) (config.Rate rule)); try reflexivity;
    repeat (cbn [chaos.Action chaos.StatusCode chaos.Message
                 chaos.ShouldInject chaos.Delay chaos.RuleDescription andb];
            match goal with
            | |- context [if ?b then _ else _] => destruct b eqn:?
            end);
    cbn [chaos.Action chaos.StatusCode chaos.Message
         chaos.ShouldInject chaos.Delay chaos.RuleDescription andb] in *;
    first [reflexivity | congruence].
Qed.

(** X9. [Evaluate] asks for an injection only on behalf of a configured
    rule that applies to the model and whose draw fell below its rate,
    with chaos enabled; the result is what that rule says, [500] and
    [Chaos Injection Error] filling in for an [error] rule without a
    status code or message. *)
Theorem Evaluate_injects_from_rule (m : chaos.Manager) (modelName : string)
    (rand : nat -> Q) (i : nat) :
  chaos.ShouldInject (chaos.Evaluate m modelName rand i).1 = true ->
  config.ChaosEnabled (chaos.cfg m) = true
  /\ exists rule k,
       rule ∈ config.ChaosRules (chaos.cfg m)
       /\ appliesTo rule modelName = true
       /\ (i <= k)%nat
       /\ chaos.Qltb (rand k) (config.Rate rule) = true
       /\ chaos.Evaluate m modelName rand i = (firing rule, S k).
Proof.
  unfold chaos.Evaluate.
  destruct (config.ChaosEnabled (chaos.cfg m)); cbn [negb];
    [|discriminate].
  intros Hinj. split; [reflexivity|].
  revert i Hinj.
  induction (config.ChaosRules (chaos.cfg m)) as [|rule rest IH];
    intros i Hinj; [discriminate|].
  rewrite evalRules_step in Hinj |- *.
  destruct (appliesTo rule modelName) eqn:Happ.
  - destruct (chaos.Qltb (rand i) (config.Rate rule)) eqn:Hdraw.
    + exists rule, i. repeat split; auto. now left.
    + destruct (IH _ Hinj) as (r & k & Hin & Ha & Hk & Hd & Heq).
      exists r, k. repeat split; auto; [now right|lia].
  - destruct (IH _ Hinj) as (r & k & Hin & Ha & Hk & Hd & Heq).
    exists r, k. repeat split; auto. now right.
Qed.

(** X10. Rules that do not apply to the model are passed over without
    a draw: the first rule that applies takes the next draw and, if the
    draw is below its rate, decides the result. *)
Theorem Evaluate_first_applicable (m : chaos.Manager)
    (skipped : list config.ChaosRule) (rule : config.ChaosRule)
    (rest : list config.ChaosRule) (modelName : string) (rand : nat -> Q)
    (i : nat) :
  config.ChaosEnabled (chaos.cfg m) = true ->
  config.ChaosRules (chaos.cfg m) = skipped ++ rule :: rest ->
  Forall (fun r => appliesTo r modelName = false) skipped ->
  appliesTo rule modelName = true ->
  chaos.Qltb (rand i) (config.Rate rule) = true ->
  chaos.Evaluate m modelName rand i = (firing rule, S i).
Proof.
  intros Hen Hrules Hskip Happ Hdraw.
  unfold chaos.Evaluate. rewrite Hen, Hrules. cbn [negb]. clear Hrules.
  induction Hskip as [|r skipped Hr _ IH]; cbn [app].
  - now rewrite evalRules_step, Happ, Hdraw.
  - now rewrite evalRules_step, Hr.
Qed.

(** X11. No injection, and the draws are left alone, when chaos is
    disabled or no rule applies to the model; no injection either when
    every rule that applies has a rate of zero or less and the draws are
    not negative. *)
Theorem Evaluate_quiet (m : chaos.Manager) (modelName : string)
    (rand : nat -> Q) (i : nat) :
  (config.ChaosEnabled (chaos.cfg m) = false
   \/ Forall (fun r => appliesTo r modelName = false)
        (config.ChaosRules (chaos.cfg m)) ->
   chaos.Evaluate m modelName rand i = (chaos.noInject, i))
  /\ ((forall k, (0 <= rand k)%Q) ->
      Forall (fun r => appliesTo r modelName = true ->
                       (config.Rate r <= 0)%Q)
        (config.ChaosRules (chaos.cfg m)) ->
      (chaos.Evaluate m modelName rand i).1 = chaos.noInject).
Proof.
  unfold chaos.Evaluate. split.
  - intros [-> | Hnone]; [reflexivity|].
    destruct (config.ChaosEnabled (chaos.cfg m)); [|reflexivity].
    cbn [negb]. induction Hnone as [|r rules Hr _ IH]; [reflexivity|].
    now rewrite evalRules_step, Hr.
  - intros Hrand Hrates.
    destruct (config.ChaosEnabled (chaos.cfg m)); [|reflexivity].
    cbn [negb]. revert i.
    induction Hrates as [|r rules Hr _ IH]; intros i; [reflexivity|].
    rewrite evalRules_step.
    destruct (appliesTo r modelName); [|apply IH].
    assert (Hno : chaos.Qltb (rand i) (config.Rate r) = false).
    { specialize (Hr eq_refl). specialize (Hrand i).
      unfold chaos.Qltb, Qle in *. cbn in Hr, Hrand.
      apply Z.ltb_ge. nia. }
    rewrite Hno. apply IH.
Qed.

End ChaosRules.

Lemma Evaluate_injects_from_rule_witness :
  exists rule k,
    rule ∈ [rule429]
    /\ appliesTo rule "qwen3-max" = true
    /\ chaos.Evaluate (chaos.New (scenario.configOf [rule429])) "qwen3-max"
         (fun _ => 0%Q) 0
       = (firing rule, S k).
Proof.
  destruct (Evaluate_injects_from_rule
              (chaos.New (scenario.configOf [rule429])) "qwen3-max"
              (fun _ => 0%Q) 0)
    as (_ & rule & k & Hin & Happ & _ & _ & Heq).
  - vm_compute. reflexivity.
  - exists rule, k. split; [exact Hin|]. split; [exact Happ|exact Heq].
Defined.

Lemma Evaluate_first_applicable_witness :
  let other :=
    {| config.Model := "gpt-4o"; config.Rate := 1%Q;
       config.Action := "delay"; config.Delay := 1000;
       config.StatusCode := 0; config.Message := "" |} in
  let mine :=
    {| config.Model := "QWEN3-MAX"; config.Rate := (1 # 2)%Q;
       config.Action := "error"; config.Delay := 0;
       config.StatusCode := 0; config.Message := "" |} in
  chaos.Evaluate (chaos.New (scenario.configOf [other; mine; rule429]))
    "qwen3-max" (fun _ => (1 # 4)%Q) 7
  = (firing mine, 8%nat).
Proof.
  intros other mine.
  apply (Evaluate_first_applicable
           (chaos.New (scenario.configOf [other; mine; rule429]))
           [other] mine [rule429]).
  - reflexivity.
  - reflexivity.
  - repeat constructor.
  - vm_compute. reflexivity.
  - reflexivity.
Defined.

Lemma Evaluate_quiet_witness :
  let off :=
    {| config.Model := "*"; config.Rate := 0%Q;
       config.Action := "error"; config.Delay := 0;
       config.StatusCode := 429; config.Message := "" |} in
  (chaos.Evaluate (chaos.New (scenario.configOf [off])) "qwen3-max"
     (fun k => (Z.of_nat k # 10)%Q) 0).1
  = chaos.noInject.
Proof.
  intros off.
  apply (Evaluate_quiet (chaos.New (scenario.configOf [off])) "qwen3-max"
           (fun k => (Z.of_nat k # 10)%Q) 0).
  - intros k. unfold Qle. cbn. lia.
  - repeat constructor. intros _. unfold Qle. cbn. lia.
Defined.

(** ** [PrepareLogFile]: when it succeeds, and what it leaves *)

Section PrepareMore.

Context `{recorder.Lib}.

#[local] Opaque recorder.padding.

Lemma Write_through (f : os.File) (b : list byte) :
  os.closed f = false -> os.offset f = length (os.data f) ->
  hd None (os.faults f) = None ->
  os.Write f b =
    ({| os.data := os.data f ++ b;
        os.offset := length (os.data f ++ b);
        os.closed := false;
        os.faults := tl (os.faults f) |}, length b, None).
Proof.
  intros Hc Ho Hh. unfold os.Write. rewrite Hc, Ho, store_at_end, length_app.
  destruct (os.faults f) as [|[k|] rest]; [reflexivity|discriminate|reflexivity].
Qed.


Lemma setup_ok (sched : list (option nat)) :
  (forall i k, (i < 3)%nat -> sched !! i <> Some (Some k)) <->
  hd None sched = None /\ hd None (tl sched) = None
  /\ hd None (tl (tl sched)) = None.
Proof.
  split.
  - intros Hno. repeat split.
    + destruct sched as [|[a|] ?]; cbn; try reflexivity.
      exfalso. apply (Hno 0%nat a); [lia|reflexivity].
    + destruct sched as [|? [|[b|] ?]]; cbn; try reflexivity.
      exfalso. apply (Hno 1%nat b); [lia|reflexivity].
    + destruct sched as [|? [|? [|[c|] ?]]]; cbn; try reflexivity.
      exfalso. apply (Hno 2%nat c); [lia|reflexivity].
  - intros (H0 & H1 & H2) i k Hi.
    destruct sched as [|a [|b [|c rest]]]; cbn in *; subst;
      destruct i as [|[|[|i]]]; cbn; try discriminate; lia.
Qed.

Lemma workingDisk_setup (env : recorder.Env) :
  workingDisk env -> ~ setupFails env.
Proof.
  intros (Hm & Hc & Hr) [Hm' | [Hc' | (i & k & _ & Hi)]];
    [congruence|congruence|].
  unfold reliable in Hr. rewrite Forall_lookup in Hr.
  specialize (Hr _ _ Hi). discriminate.
Qed.

(** The model name is never left empty. *)
Lemma modelName_nonempty (body : list byte) (path : string) :
  let modelName :=
    if (0 <? length body)%nat then
      match recorder.json_Unmarshal_model body with
      | Some m => if String.eqb m "" then "unknown-model"%string else m
      | None => "unknown-model"%string
      end
    else "unknown-model"%string in
  (if String.eqb modelName "unknown-model" then
     if strings.HasSuffix path "/models"
     then "list_models"%string else modelName
   else modelName) <> ""%string.
Proof.
  cbv zeta.
  match goal with
  | |- (if String.eqb ?x _ then _ else _) <> _ =>
      assert (Hx : x <> ""%string); [|generalize dependent x]
  end.
  - destruct (0 <? length body)%nat; [|discriminate].
    destruct (recorder.json_Unmarshal_model body) as [m|]; [|discriminate].
    destruct (String.eqb_spec m ""); [discriminate|assumption].
  - intros x Hx. destruct (String.eqb x "unknown-model"); [|assumption].
    destruct (strings.HasSuffix path "/models"); [discriminate|assumption].
Qed.

(** The call on a disk that lets the three writes through. *)
Lemma PrepareLogFile_ok (r : recorder.Recorder) (req : http.Request)
    (siteURL : string) (env : recorder.Env) :
  ~ setupFails env ->
  exists req' info f,
    recorder.PrepareLogFile r req siteURL env = (req', inl info)
    /\ recorder.File info = Some f
    /\ os.closed f = false
    /\ os.offset f = length (os.data f)
    /\ os.faults f = tl (tl (tl (recorder.device env)))
    /\ os.data f
       = recorder.padding ++ httputil.DumpRequest (loggedRequest r req)
           ++ io.pending (http.Body req)
    /\ recorder.Layout (recorder.Header info)
       = {| recorder.ReqHeaderLen :=
              Z.of_nat (length (httputil.DumpRequest (loggedRequest r req)));
            recorder.ReqBodyLen :=
              Z.of_nat (length (io.pending (http.Body req)));
            recorder.ResHeaderLen := 0; recorder.ResBodyLen := 0;
            recorder.IsStream := false |}
    /\ recorder.Usage (recorder.Header info) = recorder.zeroUsage
    /\ recorder.Model (recorder.Meta (recorder.Header info)) <> ""%string
    /\ http.Body req' = io.NopCloser (io.pending (http.Body req))
    /\ http.Get (http.ReqHeader req') "Authorization"
       = http.Get (http.ReqHeader req) "Authorization"
    /\ (forall k, k <> "Authorization"%string ->
        http.ReqHeader req' !! k = http.ReqHeader req !! k).
Proof.
  intros Hok.
  assert (Hm : recorder.mkdirErr env = None).
  { destruct (recorder.mkdirErr env) eqn:E; [|reflexivity].
    exfalso. apply Hok. left. congruence. }
  assert (Hc : recorder.createErr env = None).
  { destruct (recorder.createErr env) eqn:E; [|reflexivity].
    exfalso. apply Hok. right. left. congruence. }
  assert (Hs : forall i k, (i < 3)%nat ->
                 recorder.device env !! i <> Some (Some k)).
  { intros i k Hi Hl. apply Hok. right. right. eauto. }
  apply setup_ok in Hs as (H0 & H1 & H2).
  unfold recorder.PrepareLogFile, io.ReadAll. cbv beta iota zeta.
  rewrite Hm, Hc.
  rewrite (Write_through (os.create _)) by (first [reflexivity | exact H0]).
  cbv beta iota zeta.
  match goal with
  | |- context [os.Write ?f ?d] =>
      rewrite (Write_through f d) by (first [reflexivity | exact H1])
  end.
  cbv beta iota zeta.
  match goal with
  | |- context [os.Write ?f ?d] =>
      rewrite (Write_through f d) by (first [reflexivity | exact H2])
  end.
  cbv beta iota zeta.
  cbn [os.data os.create os.faults app http.withBody http.ReqHeader].
  eexists _, _, _. split; [reflexivity|].
  cbn [recorder.File recorder.Header recorder.Layout recorder.Usage
       recorder.Meta recorder.Model os.closed os.offset os.data os.faults].
  split; [reflexivity|]. split; [reflexivity|]. split; [reflexivity|].
  split; [reflexivity|].
  unfold loggedRequest.
  destruct (recorder.MaskKey r
            && negb (String.eqb
                       (http.Get (http.ReqHeader req) "Authorization") ""))
    eqn:Hmask.
  - split; [now rewrite <- app_assoc|]. split; [reflexivity|].
    split; [reflexivity|].
    split.
    { apply modelName_nonempty. }
    cbn [http.withHeader http.Body http.ReqHeader]. unfold http.Set_.
    rewrite insert_insert_eq. split; [reflexivity|].
    split; [unfold http.Get; now rewrite lookup_insert_eq|].
    intros k Hk. now apply lookup_insert_ne.
  - split; [now rewrite <- app_assoc|]. split; [reflexivity|].
    split; [reflexivity|].
    split.
    { apply modelName_nonempty. }
    cbn [http.withBody http.Body http.ReqHeader].
    split; [reflexivity|]. split; [reflexivity|]. reflexivity.
Qed.


(** X12. Unless the directory or the file cannot be created or one of
    its three writes is cut short, [PrepareLogFile] succeeds: the file
    then holds the placeholder, the dump of the request (with the key
    masked when masking applies) and the request body, the handle is open
    at the end of the file, the layout gives the lengths of the dump and
    of the body and zero for the response, and the recorded model name is
    not empty. The request is left with its body readable again and its
    headers reading as they came. *)
Theorem PrepareLogFile_contents (r : recorder.Recorder) (req : http.Request)
    (siteURL : string) (env : recorder.Env) :
  ~ setupFails env ->
  exists req' info f,
    recorder.PrepareLogFile r req siteURL env = (req', inl info)
    /\ recorder.File info = Some f
    /\ os.closed f = false
    /\ os.offset f = length (os.data f)
    /\ os.data f
       = recorder.padding ++ httputil.DumpRequest (loggedRequest r req)
           ++ io.pending (http.Body req)
    /\ recorder.Layout (recorder.Header info)
       = {| recorder.ReqHeaderLen :=
              Z.of_nat (length (httputil.DumpRequest (loggedRequest r req)));
            recorder.ReqBodyLen :=
              Z.of_nat (length (io.pending (http.Body req)));
            recorder.ResHeaderLen := 0; recorder.ResBodyLen := 0;
            recorder.IsStream := false |}
    /\ recorder.Model (recorder.Meta (recorder.Header info)) <> ""%string
    /\ http.Body req' = io.NopCloser (io.pending (http.Body req))
    /\ http.Get (http.ReqHeader req') "Authorization"
       = http.Get (http.ReqHeader req) "Authorization"
    /\ (forall k, k <> "Authorization"%string ->
        http.ReqHeader req' !! k = http.ReqHeader req !! k).
Proof.
  intros Hok.
  destruct (PrepareLogFile_ok r req siteURL env Hok)
    as (req' & info & f & HP & Hf & Hc & Ho & _ & Hd & Hl & _ & Hm & Hb
        & Hg & Hk).
  exists req', info, f. repeat (split; [assumption|]). assumption.
Qed.

End PrepareMore.

Lemma PrepareLogFile_contents_witness :
  exists req' info f,
    recorder.PrepareLogFile (recorder.New "logs" false)
      (scenario.chatRequest sample.chatBody) "https://api.example.com"
      (proxy.fileEnv (scenario.worldOf scenario.okResponse))
    = (req', inl info)
    /\ recorder.File info = Some f
    /\ os.data f
       = recorder.padding
           ++ httputil.DumpRequest (scenario.chatRequest sample.chatBody)
           ++ sample.chatBody.
Proof.
  destruct (PrepareLogFile_contents (recorder.New "logs" false)
              (scenario.chatRequest sample.chatBody)
              "https://api.example.com"
              (proxy.fileEnv (scenario.worldOf scenario.okResponse)))
    as (req' & info & f & HP & Hf & _ & _ & Hd & _).
  - apply workingDisk_setup. repeat split. constructor.
  - exists req', info, f. split; [exact HP|]. split; [exact Hf|exact Hd].
Defined.

(** ** The request pipeline *)

Section ServeMore.

Context `{recorder.Lib} `{chaos.Lib} `{proxy.Lib}.

#[local] Opaque recorder.padding.

(** The session [PrepareLogFile] returns on a working disk. *)
Lemma PrepareLogFile_working (r : recorder.Recorder) (req : http.Request)
    (siteURL : string) (env : recorder.Env) :
  workingDisk env ->
  exists req' info,
    recorder.PrepareLogFile r req siteURL env = (req', inl info)
    /\ recording info recorder.padding
         (httputil.DumpRequest (loggedRequest r req))
         (io.pending (http.Body req)) [] [] []
    /\ recorder.IsStream (recorder.Layout (recorder.Header info)) = false.
Proof.
  intros Hw.
  destruct (PrepareLogFile_ok r req siteURL env (workingDisk_setup _ Hw))
    as (req' & info & f & HP & Hf & Hc & Ho & Hfa & Hd & Hl & _).
  exists req', info. split; [exact HP|]. split; [|now rewrite Hl].
  exists f. split; [exact Hf|]. split.
  - split; [exact Hc|]. split; [exact Ho|]. rewrite Hfa.
    destruct Hw as (_ & _ & Hr). now do 3 apply reliable_tl.
  - unfold regions. rewrite Hl, Hd, !app_nil_r, padding_length.
    repeat split; reflexivity.
Qed.

(** [ModifyResponse] on a recording session. *)
Lemma ModifyResponse_exact (resp : http.Response) (info : recorder.LogInfo)
    (slot dump body : list byte) :
  recording info slot dump body [] [] [] ->
  exists info',
    proxy.ModifyResponse resp (Some info)
    = Some (info',
            {| proxy.UsageSniffer.IsStream := proxy.isStreamResponse resp;
               proxy.UsageSniffer.lineBuf := [];
               proxy.UsageSniffer.tailBuf := [] |})
    /\ recording info' slot dump body [bytes.LF] (responseHead resp) []
    /\ recorder.Meta (recorder.Header info')
       = recorder.Meta (recorder.Header info)
    /\ recorder.IsStream (recorder.Layout (recorder.Header info'))
       = proxy.isStreamResponse resp
         || recorder.IsStream (recorder.Layout (recorder.Header info)).
Proof.
  intros (f & Hf & Ha & Hd & Hs & Hdump & Hbody & Hrh & Hrb).
  unfold proxy.ModifyResponse.
  destruct (fileWrite_recording info f [bytes.LF] Hf Ha)
    as (f1 & -> & Hd1 & Ha1).
  cbv beta iota zeta.
  fold (responseHead resp).
  destruct (fileWrite_recording (recorder.withFile info (Some f1)) f1
              (responseHead resp) eq_refl Ha1) as (f2 & -> & Hd2 & Ha2).
  cbv beta iota zeta.
  eexists. split; [reflexivity|].
  split; [|split; destruct (proxy.isStreamResponse resp); reflexivity].
  exists f2. split; [reflexivity|]. split; [assumption|].
  unfold regions.
  rewrite Hd2, Hd1, Hd.
  destruct (proxy.isStreamResponse resp);
    cbn [recorder.withLayout recorder.withFile recorder.Header
         recorder.Layout recorder.ReqHeaderLen recorder.ReqBodyLen
         recorder.ResHeaderLen recorder.ResBodyLen];
    rewrite !app_nil_r, <- !app_assoc;
    repeat split; assumption || reflexivity.
Qed.

(** A [Read] touches neither the meta data nor the stream flag. *)
Lemma Read_header (s : proxy.UsageSniffer.t) (info : recorder.LogInfo)
    (data : list byte) :
  let info' := (proxy.UsageSniffer.Read s info data).2 in
  recorder.Meta (recorder.Header info') = recorder.Meta (recorder.Header info)
  /\ recorder.IsStream (recorder.Layout (recorder.Header info'))
     = recorder.IsStream (recorder.Layout (recorder.Header info)).
Proof.
  cbv zeta. unfold proxy.UsageSniffer.Read.
  destruct (0 <? length data)%nat; [|now split].
  destruct (recorder.File info) as [f|].
  - destruct (os.Write f data) as [[f' n] [e|]];
      destruct (proxy.UsageSniffer.IsStream s);
      try destruct (proxy.UsageSniffer.sniffStream _ _ _) as [s' u];
      now split.
  - destruct (proxy.UsageSniffer.IsStream s);
      try destruct (proxy.UsageSniffer.sniffStream _ _ _) as [s' u];
      now split.
Qed.

Lemma Close_header (s : proxy.UsageSniffer.t) (info : recorder.LogInfo) :
  let info' := proxy.UsageSniffer.Close s info in
  recorder.Meta (recorder.Header info') = recorder.Meta (recorder.Header info)
  /\ recorder.IsStream (recorder.Layout (recorder.Header info'))
     = recorder.IsStream (recorder.Layout (recorder.Header info)).
Proof.
  cbv zeta. unfold proxy.UsageSniffer.Close.
  destruct (_ && _); now split.
Qed.

(** One [Write] on the instrumented writer. *)
Lemma Write_client (rw : proxy.InstrumentedResponseWriter.t) (now : Z)
    (data : list byte) :
  let res := proxy.InstrumentedResponseWriter.Write rw now data in
  let rw' := res.1.1 in
  let nw := res.1.2 in
  http.sent (proxy.InstrumentedResponseWriter.w rw')
  = http.sent (proxy.InstrumentedResponseWriter.w rw) ++ take nw data
  /\ (nw <= length data)%nat
  /\ proxy.InstrumentedResponseWriter.bytesWritten rw'
     = proxy.InstrumentedResponseWriter.bytesWritten rw + Z.of_nat nw
  /\ proxy.InstrumentedResponseWriter.statusCode rw'
     = proxy.InstrumentedResponseWriter.statusCode rw
  /\ (forall c, http.status (proxy.InstrumentedResponseWriter.w rw) = Some c ->
      http.status (proxy.InstrumentedResponseWriter.w rw') = Some c)
  /\ (http.room (proxy.InstrumentedResponseWriter.w rw) = None ->
      http.room (proxy.InstrumentedResponseWriter.w rw') = None
      /\ nw = length data /\ res.2 = false).
Proof.
  cbv zeta. unfold proxy.InstrumentedResponseWriter.Write.
  set (w0 := proxy.InstrumentedResponseWriter.w rw).
  assert (Hs : http.sent (http.WriteHeader w0 200) = http.sent w0)
    by (unfold http.WriteHeader; now destruct (http.status w0)).
  assert (Hr : http.room (http.WriteHeader w0 200) = http.room w0)
    by (unfold http.WriteHeader; now destruct (http.status w0)).
  assert (Hst : forall c, http.status w0 = Some c ->
                  http.status (http.WriteHeader w0 200) = Some c)
    by (intros c Hc; unfold http.WriteHeader; now rewrite Hc).
  unfold http.ResponseWriter_Write. rewrite Hr.
  destruct (proxy.InstrumentedResponseWriter.firstByte rw);
    (destruct (http.room w0) as [k|];
     [destruct (Nat.leb_spec (length data) k) as [Hle|Hgt]|]);
    cbn [fst snd proxy.InstrumentedResponseWriter.w
         proxy.InstrumentedResponseWriter.bytesWritten
         proxy.InstrumentedResponseWriter.statusCode
         http.sent http.status http.room];
    rewrite Hs, ?firstn_all;
    (repeat split; try reflexivity; try lia; auto; try discriminate).
Qed.

(** The copy loop: what reaches the file and what reaches the client. *)
Lemma copyResponse_bytes (reads : list (list byte)) :
  forall s info rw clock tick slot dump body delim resHead resBody,
  recording info slot dump body delim resHead resBody ->
  exists kept got,
    let res := proxy.copyResponse reads s info rw clock tick in
    recording res.1.1.2 slot dump body delim resHead (resBody ++ kept)
    /\ recorder.Meta (recorder.Header res.1.1.2)
       = recorder.Meta (recorder.Header info)
    /\ recorder.IsStream (recorder.Layout (recorder.Header res.1.1.2))
       = recorder.IsStream (recorder.Layout (recorder.Header info))
    /\ http.sent (proxy.InstrumentedResponseWriter.w res.1.2)
       = http.sent (proxy.InstrumentedResponseWriter.w rw) ++ got
    /\ proxy.InstrumentedResponseWriter.bytesWritten res.1.2
       = proxy.InstrumentedResponseWriter.bytesWritten rw
         + Z.of_nat (length got)
    /\ proxy.InstrumentedResponseWriter.statusCode res.1.2
       = proxy.InstrumentedResponseWriter.statusCode rw
    /\ (forall c,
        http.status (proxy.InstrumentedResponseWriter.w rw) = Some c ->
        http.status (proxy.InstrumentedResponseWriter.w res.1.2) = Some c)
    /\ got `prefix_of` kept
    /\ kept `prefix_of` concat reads
    /\ (http.room (proxy.InstrumentedResponseWriter.w rw) = None ->
        got = concat reads /\ kept = concat reads).
Proof.
  induction reads as [|data rest IH]; intros s info rw clock tick
    slot dump body delim resHead resBody Hrec.
  - exists [], []. cbn [proxy.copyResponse fst snd concat length].
    rewrite !app_nil_r, Z.add_0_r. repeat split; auto.
  - cbn [proxy.copyResponse].
    pose proof (Read_recording s info data _ _ _ _ _ _ Hrec) as Hrec'.
    pose proof (Read_header s info data) as (Hm1 & Hi1).
    destruct (proxy.UsageSniffer.Read s info data) as [s1 info1].
    cbn [snd] in Hrec', Hm1, Hi1.
    destruct (Nat.ltb_spec 0 (length data)) as [Hpos|Hzero].
    + pose proof (Write_client rw (clock tick) data)
        as (Hsent & Hle & Hbw & Hsc & Hst & Hroom).
      destruct (proxy.InstrumentedResponseWriter.Write rw (clock tick) data)
        as [[rw1 nw] werr].
      cbn [fst snd] in Hsent, Hle, Hbw, Hsc, Hst, Hroom.
      destruct (werr || negb (nw =? length data)%nat) eqn:Hstop.
      * exists data, (take nw data). cbn [fst snd].
        split; [exact Hrec'|]. split; [exact Hm1|]. split; [exact Hi1|].
        split; [exact Hsent|].
        split; [rewrite length_take; rewrite Hbw; f_equal; lia|].
        split; [exact Hsc|]. split; [exact Hst|].
        split; [exists (drop nw data); now rewrite take_drop|].
        split; [exists (concat rest); reflexivity|].
        intros Hnone. destruct (Hroom Hnone) as (_ & -> & ->).
        rewrite Nat.eqb_refl in Hstop. discriminate.
      * apply orb_false_iff in Hstop as [-> Hn].
        apply negb_false_iff, Nat.eqb_eq in Hn. subst nw.
        rewrite firstn_all in Hsent.
        destruct (IH s1 info1 rw1 clock (S tick) _ _ _ _ _ _ Hrec')
          as (kept & got & Hrec2 & Hm2 & Hi2 & Hsent2 & Hbw2 & Hsc2 & Hst2
              & Hp1 & Hp2 & Hroom2).
        exists (data ++ kept), (data ++ got).
        cbv zeta in *.
        destruct (proxy.copyResponse rest s1 info1 rw1 clock (S tick))
          as [[[s2 info2] rw2] tick2].
        cbn [fst snd] in *.
        split; [now rewrite app_assoc|].
        split; [congruence|]. split; [congruence|].
        split; [now rewrite Hsent2, Hsent, app_assoc|].
        split; [rewrite Hbw2, Hbw, length_app; lia|].
        split; [congruence|]. split; [auto|].
        split; [now apply prefix_app|].
        split; [now apply prefix_app|].
        intros Hnone. destruct (Hroom Hnone) as (Hnone1 & _).
        destruct (Hroom2 Hnone1) as [-> ->]. now split.
    + assert (data = []) as ->
        by (destruct data; [reflexivity|simpl in Hzero; lia]).
      rewrite app_nil_r in Hrec'.
      destruct (IH s1 info1 rw clock tick _ _ _ _ _ _ Hrec')
        as (kept & got & Hrec2 & Hm2 & Hi2 & Hrest).
      exists kept, got. cbv zeta in *.
      destruct (proxy.copyResponse rest s1 info1 rw clock tick)
        as [[[s2 info2] rw2] tick2].
      cbn [fst snd concat app] in *.
      split; [exact Hrec2|]. split; [congruence|]. split; [congruence|].
      exact Hrest.
Qed.

(** The deferred finalization of a recording session: the metrics go
    into the header, the slot is rewritten if the header can be
    serialized, and the file is closed. *)
Lemma finalize_outcome (info : recorder.LogInfo)
    (irw : proxy.InstrumentedResponseWriter.t) (duration : Z)
    (slot dump body delim resHead resBody : list byte) :
  recording info slot dump body delim resHead resBody ->
  exists info' f' slot',
    (proxy.finalize info irw duration).1 = info'
    /\ recorder.File info' = Some f'
    /\ os.closed f' = true
    /\ regions info' f' slot' dump body delim resHead resBody
    /\ recorder.Layout (recorder.Header info')
       = recorder.Layout (recorder.Header info)
    /\ recorder.StatusCode (recorder.Meta (recorder.Header info'))
       = proxy.InstrumentedResponseWriter.statusCode irw
    /\ recorder.ContentLength (recorder.Meta (recorder.Header info'))
       = proxy.InstrumentedResponseWriter.bytesWritten irw
    /\ match recorder.json_Marshal_header (recorder.Header info') with
       | inl js => slot' = recorder.finalBlock js
                   /\ (proxy.finalize info irw duration).2 = None
       | inr e => slot' = slot
                  /\ (proxy.finalize info irw duration).2 = Some e
       end.
Proof.
  intros Hr. unfold proxy.finalize, proxy.InstrumentedResponseWriter.GetMetrics.
  cbv beta iota zeta.
  match goal with
  | |- context [recorder.UpdateLogFile (recorder.withMeta info ?m)] =>
      apply (recording_withMeta _ m) in Hr;
      assert (Hl : recorder.Layout (recorder.Header (recorder.withMeta info m))
                   = recorder.Layout (recorder.Header info)) by reflexivity;
      assert (Hsc : recorder.StatusCode
                      (recorder.Meta
                         (recorder.Header (recorder.withMeta info m)))
                    = proxy.InstrumentedResponseWriter.statusCode irw)
        by reflexivity;
      assert (Hcl : recorder.ContentLength
                      (recorder.Meta
                         (recorder.Header (recorder.withMeta info m)))
                    = proxy.InstrumentedResponseWriter.bytesWritten irw)
        by reflexivity;
      set (infoM := recorder.withMeta info m) in *
  end.
  clearbody infoM.
  destruct Hr as (f & Hf & (Hc & Ho & Hrel) & Hd & Hs & Hrest).
  destruct (recorder.json_Marshal_header (recorder.Header infoM))
    as [js|e] eqn:Hjs.
  - rewrite (UpdateLogFile_open infoM f js Hf Hc Hrel Hjs).
    eexists _, _, (recorder.finalBlock js). cbn [fst snd].
    split; [reflexivity|].
    cbn [recorder.withFile recorder.File recorder.Header].
    split; [reflexivity|]. split; [reflexivity|].
    split.
    { unfold regions. cbn [os.data recorder.withFile recorder.Header].
      rewrite finalBlock_blockOf, blockOf_length, Hd.
      rewrite <- Hs, drop_app_length.
      split; [reflexivity|]. split; [now rewrite Hs|]. exact Hrest. }
    split; [exact Hl|]. split; [exact Hsc|]. split; [exact Hcl|].
    rewrite Hjs. now split.
  - unfold recorder.UpdateLogFile. rewrite Hf, Hjs.
    eexists _, _, slot. cbn [fst snd].
    split; [reflexivity|].
    cbn [recorder.withFile recorder.File recorder.Header].
    split; [reflexivity|].
    split; [unfold os.Close; now rewrite Hc|].
    split.
    { unfold regions, os.Close. rewrite Hc.
      cbn [fst os.data recorder.withFile recorder.Header].
      split; [exact Hd|]. split; [exact Hs|]. exact Hrest. }
    split; [exact Hl|]. split; [exact Hsc|]. split; [exact Hcl|].
    rewrite Hjs. now split.
Qed.

(** A request that is logged on a working disk and answered by the
    upstream. *)
Lemma ServeHTTP_served (h : proxy.Handler) (w : http.ResponseWriter)
    (r : http.Request) (world : proxy.World) (resp : http.Response) :
  workingDisk (proxy.fileEnv world) ->
  let out := proxy.ServeHTTP h w r world in
  let req := proxy.ensureStreamOptions r in
  Forall (fun q => proxy.upstream world q = proxy.Served resp)
    (proxy.forwarded out) ->
  exists info f slot kept got,
    proxy.logInfo out = Some info
    /\ recorder.File info = Some f
    /\ os.closed f = true
    /\ regions info f slot
         (httputil.DumpRequest (loggedRequest (proxy.recorder_ h) req))
         (io.pending (http.Body req)) [bytes.LF] (responseHead resp) kept
    /\ match recorder.json_Marshal_header (recorder.Header info) with
       | inl js => slot = recorder.finalBlock js
                   /\ proxy.updateErr out = None
       | inr e => slot = recorder.padding /\ proxy.updateErr out = Some e
       end
    /\ http.sent (proxy.client out) = http.sent w ++ got
    /\ (http.status w = None ->
        http.status (proxy.client out) = Some (http.StatusCode resp))
    /\ got `prefix_of` kept
    /\ kept `prefix_of` concat (http.RespBody resp)
    /\ (http.room w = None ->
        got = concat (http.RespBody resp)
        /\ kept = concat (http.RespBody resp))
    /\ recorder.StatusCode (recorder.Meta (recorder.Header info))
       = http.StatusCode resp
    /\ recorder.ContentLength (recorder.Meta (recorder.Header info))
       = Z.of_nat (length got)
    /\ recorder.IsStream (recorder.Layout (recorder.Header info))
       = proxy.isStreamResponse resp.
Proof.
  intros Hw. cbv zeta. unfold proxy.ServeHTTP. cbv zeta.
  destruct (PrepareLogFile_working (proxy.recorder_ h)
              (proxy.ensureStreamOptions r)
              (config.UpstreamBaseURL (proxy.cfg h)) (proxy.fileEnv world) Hw)
    as (req' & info0 & -> & Hrec0 & His0).
  destruct (chaos.Evaluate _ _ _ _) as [chaosRes i].
  unfold proxy.reverseProxy.
  destruct (proxy.upstream world (proxy.Director h req')) as [resp0|err]
    eqn:Hup.
  - destruct (ModifyResponse_exact resp0 info0 _ _ _ Hrec0)
      as (info1 & -> & Hrec1 & Hm1 & Hi1).
    set (rw1 := proxy.InstrumentedResponseWriter.WriteHeader
                  (proxy.NewInstrumentedResponseWriter w
                     (proxy.clock world 1)) (http.StatusCode resp0)).
    set (sn1 := proxy.UsageSniffer.mk (proxy.isStreamResponse resp0) [] []).
    destruct (copyResponse_bytes (http.RespBody resp0) sn1 info1 rw1
                (proxy.clock world) 2 _ _ _ _ _ _ Hrec1)
      as (kept & got & Hcopy).
    cbv zeta in Hcopy.
    destruct (proxy.copyResponse (http.RespBody resp0) sn1 info1 rw1
                (proxy.clock world) 2) as [[[s2 info2] rw2] tick2].
    cbn [fst snd] in Hcopy.
    destruct Hcopy as (Hrec2 & Hm2 & Hi2 & Hsent & Hbw & Hsc & Hst
                       & Hp1 & Hp2 & Hroom).
    apply (Close_recording s2) in Hrec2.
    pose proof (Close_header s2 info2) as (Hm3 & Hi3). cbv zeta in Hm3, Hi3.
    destruct (finalize_outcome (proxy.UsageSniffer.Close s2 info2) rw2
                (proxy.clock world tick2 - proxy.clock world 0)
                _ _ _ _ _ _ Hrec2)
      as (info' & f' & slot' & Hfin & Hf' & Hc' & Hreg & Hl' & Hsc' & Hcl'
          & Hslot).
    destruct (proxy.finalize _ _ _) as [info'' uErr].
    cbn [fst snd] in Hfin, Hslot. subst info''.
    cbn [proxy.logInfo proxy.forwarded proxy.client proxy.updateErr].
    rewrite Forall_singleton, Hup. intros [= ->].
    exists info', f', slot', kept, got.
    split; [reflexivity|]. split; [exact Hf'|]. split; [exact Hc'|].
    split; [rewrite app_nil_l in Hreg; exact Hreg|].
    split; [exact Hslot|].
    split.
    { rewrite Hsent. subst rw1.
      cbn [proxy.InstrumentedResponseWriter.WriteHeader
           proxy.InstrumentedResponseWriter.w
           proxy.NewInstrumentedResponseWriter].
      unfold http.WriteHeader. now destruct (http.status w). }
    split.
    { intros Hnone. apply Hst. subst rw1.
      cbn [proxy.InstrumentedResponseWriter.WriteHeader
           proxy.InstrumentedResponseWriter.w
           proxy.NewInstrumentedResponseWriter].
      unfold http.WriteHeader. now rewrite Hnone. }
    split; [exact Hp1|]. split; [exact Hp2|].
    split.
    { intros Hnone. apply Hroom. subst rw1.
      cbn [proxy.InstrumentedResponseWriter.WriteHeader
           proxy.InstrumentedResponseWriter.w
           proxy.NewInstrumentedResponseWriter].
      unfold http.WriteHeader. now destruct (http.status w). }
    split; [rewrite Hsc', Hsc; reflexivity|].
    split; [rewrite Hcl', Hbw; subst rw1; cbn; reflexivity|].
    rewrite Hl', Hi3, Hi2, Hi1, His0. apply orb_false_r.
  - unfold proxy.ErrorHandler. cbv beta iota zeta.
    destruct (proxy.finalize _ _ _) as [info'' uErr].
    cbn [proxy.forwarded]. rewrite Forall_singleton, Hup. discriminate.
Qed.




(** A request that is logged on a working disk and whose upstream
    cannot be reached. *)
Lemma ServeHTTP_failed (h : proxy.Handler)
    (w : http.ResponseWriter) (r : http.Request) (world : proxy.World)
    (err : string) :
  workingDisk (proxy.fileEnv world) ->
  http.status w = None -> http.room w = None ->
  let out := proxy.ServeHTTP h w r world in
  let req := proxy.ensureStreamOptions r in
  Forall (fun q => proxy.upstream world q = proxy.Failed err)
    (proxy.forwarded out) ->
  http.status (proxy.client out) = Some 502
  /\ http.sent (proxy.client out) = http.sent w ++ proxyErrorBody err
  /\ (exists e, proxy.updateErr out = Some e)
  /\ exists info f,
       proxy.logInfo out = Some info
       /\ recorder.File info = Some f
       /\ os.closed f = true
       /\ os.data f
          = recorder.padding
              ++ httputil.DumpRequest
                   (loggedRequest (proxy.recorder_ h) req)
              ++ io.pending (http.Body req)
       /\ recorder.StatusCode (recorder.Meta (recorder.Header info)) = 502.
Proof.
  intros Hw Hst Hroom. cbv zeta. unfold proxy.ServeHTTP. cbv zeta.
  destruct (PrepareLogFile_working (proxy.recorder_ h)
              (proxy.ensureStreamOptions r)
              (config.UpstreamBaseURL (proxy.cfg h)) (proxy.fileEnv world) Hw)
    as (req' & info0 & -> & Hrec0 & His0).
  destruct (chaos.Evaluate _ _ _ _) as [chaosRes i].
  unfold proxy.reverseProxy.
  destruct (proxy.upstream world (proxy.Director h req')) as [resp0|err0]
    eqn:Hup.
  { destruct (proxy.ModifyResponse resp0 _) as [[i1 s1]|].
    - destruct (proxy.copyResponse _ _ _ _ _ _) as [[[? ?] ?] ?].
      destruct (proxy.finalize _ _ _) as [info' uErr].
      cbn [proxy.forwarded]. rewrite Forall_singleton, Hup. discriminate.
    - destruct (proxy.copyPlain _ _ _ _) as [? ?].
      destruct (proxy.finalize _ _ _) as [info' uErr].
      cbn [proxy.forwarded]. rewrite Forall_singleton, Hup. discriminate. }
  destruct Hrec0 as (f0 & Hf0 & (Hc0 & Ho0 & Hrel0) & Hd0 & _).
  rewrite !app_nil_r in Hd0.
  unfold proxy.ErrorHandler. rewrite Hf0. cbv beta iota zeta.
  unfold proxy.finalize. cbv beta iota zeta.
  set (irw := proxy.httpError _ _ _ _).
  destruct (proxy.InstrumentedResponseWriter.GetMetrics irw)
    as [[code written] ttft] eqn:Hmet.
  match goal with
  | |- context [recorder.UpdateLogFile ?i] =>
      destruct (UpdateLogFile_closed i (os.Close f0).1 eq_refl) as (e & ->);
      [unfold os.Close; now rewrite Hc0|]
  end.
  cbn [proxy.forwarded proxy.client proxy.updateErr proxy.logInfo].
  rewrite Forall_singleton, Hup. intros [= <-].
  assert (Hirw : http.status (proxy.InstrumentedResponseWriter.w irw)
                 = Some 502
                 /\ http.sent (proxy.InstrumentedResponseWriter.w irw)
                    = http.sent w ++ proxyErrorBody err0
                 /\ proxy.InstrumentedResponseWriter.statusCode irw = 502).
  { subst irw. unfold proxy.httpError, proxy.InstrumentedResponseWriter.Write,
      proxy.InstrumentedResponseWriter.WriteHeader,
      proxy.NewInstrumentedResponseWriter, http.ResponseWriter_Write,
      http.WriteHeader.
    cbn [proxy.InstrumentedResponseWriter.w
         proxy.InstrumentedResponseWriter.firstByte
         proxy.InstrumentedResponseWriter.statusCode].
    rewrite Hst. cbn [http.status http.room http.sent]. rewrite Hroom.
    cbn [fst snd proxy.InstrumentedResponseWriter.w
         proxy.InstrumentedResponseWriter.statusCode http.status http.sent].
    repeat split. }
  destruct Hirw as (Hs1 & Hs2 & Hs3).
  split; [exact Hs1|]. split; [exact Hs2|]. split; [now exists e|].
  eexists _, _. split; [reflexivity|].
  cbn [recorder.withMeta recorder.withFile recorder.File recorder.Header
       recorder.Meta recorder.StatusCode].
  split; [reflexivity|].
  split; [unfold os.Close; now rewrite Hc0|].
  split; [unfold os.Close; rewrite Hc0; exact Hd0|].
  unfold proxy.InstrumentedResponseWriter.GetMetrics in Hmet.
  injection Hmet as <- _ _. exact Hs3.
Qed.


(** X17. The director's rewrite. A request whose log file could be set
    up makes exactly one round trip, and the request the director hands
    on for it has [Authorization] set to the configured upstream key
    alone (whatever keys the client sent, and whether or not the log
    masks them), [Accept-Encoding: identity], the upstream host, every
    other header as [ensureStreamOptions] left it and, when its length
    is not [0], the body that was recorded. (Before it goes out the
    reverse proxy still takes the hop-by-hop headers from it and adds
    [X-Forwarded-For].) *)
Theorem director_rewrites_request (h : proxy.Handler)
    (w : http.ResponseWriter) (r : http.Request) (world : proxy.World) :
  ~ setupFails (proxy.fileEnv world) ->
  let req := proxy.ensureStreamOptions r in
  exists q,
    proxy.forwarded (proxy.ServeHTTP h w r world) = [q]
    /\ http.ReqHeader q !! "Authorization"%string
       = Some ["Bearer " ++ config.UpstreamApiKey (proxy.cfg h)]%string
    /\ http.ReqHeader q !! "Accept-Encoding"%string
       = Some ["identity"%string]
    /\ http.Host q = proxy.targetHost h
    /\ (forall k, k <> "Authorization"%string ->
        k <> "Accept-Encoding"%string ->
        http.ReqHeader q !! k = http.ReqHeader req !! k)
    /\ (http.ContentLength req <> 0 ->
        http.Body q = io.NopCloser (io.pending (http.Body req))).
Proof.
  intros Hok. cbv zeta. unfold proxy.ServeHTTP. cbv zeta.
  destruct (PrepareLogFile_ok (proxy.recorder_ h)
              (proxy.ensureStreamOptions r)
              (config.UpstreamBaseURL (proxy.cfg h)) (proxy.fileEnv world)
              Hok)
    as (req' & info0 & f0 & -> & _ & _ & _ & _ & _ & _ & _ & _ & Hb & _ & Hk).
  destruct (chaos.Evaluate _ _ _ _) as [chaosRes i].
  exists (proxy.Director h req').
  split.
  { unfold proxy.reverseProxy.
    destruct (proxy.upstream world _) as [resp|err].
    - destruct (proxy.ModifyResponse resp _) as [[i1 s1]|].
      + destruct (proxy.copyResponse _ _ _ _ _ _) as [[[? ?] ?] ?].
        now destruct (proxy.finalize _ _ _).
      + destruct (proxy.copyPlain _ _ _ _) as [? ?].
        now destruct (proxy.finalize _ _ _).
    - destruct (proxy.ErrorHandler _ _ _ _) as [? ?].
      now destruct (proxy.finalize _ _ _). }
  unfold proxy.Director. cbn [http.ReqHeader http.Host http.Body].
  unfold http.Set_.
  split; [now rewrite lookup_insert_ne, lookup_insert_eq|].
  split; [now rewrite lookup_insert_eq|].
  split; [reflexivity|].
  split; [|intros _; exact Hb].
  intros k Hk1 Hk2. rewrite !lookup_insert_ne by congruence. now apply Hk.
Qed.

End ServeMore.





Lemma director_rewrites_request_witness :
  exists q,
    proxy.forwarded
      (proxy.ServeHTTP (scenario.handlerOf []) scenario.client
         (scenario.chatRequest sample.streamBody)
         (scenario.worldOf scenario.streamResponse)) = [q]
    /\ http.ReqHeader q !! "Authorization"%string
       = Some ["Bearer sk-upstream"%string]
    /\ http.Body q = io.NopCloser sample.injectedBody.
Proof.
  destruct (director_rewrites_request (scenario.handlerOf [])
              scenario.client (scenario.chatRequest sample.streamBody)
              (scenario.worldOf scenario.streamResponse))
    as (q & Hq & Ha & _ & _ & _ & Hb).
  - apply workingDisk_setup. repeat split. constructor.
  - exists q. split; [exact Hq|]. split; [exact Ha|].
    rewrite Hb; vm_compute; [reflexivity|discriminate].
Defined.

(** ** From the recorder to the replay transport *)

Section RecordReplay.

Context `{recorder.Lib} `{chaos.Lib} `{proxy.Lib} `{replay.Lib}.

Lemma IndexByte_spaces (n : nat) :
  bytes.IndexByte (replicate n bytes.SP) bytes.LF = None.
Proof. induction n as [|n IH]; [reflexivity|]. cbn. now rewrite IH. Qed.

(** The first line of a slot that holds a short header without line
    feeds is that header followed by spaces. *)
Lemma slot_first_line (n : nat) (js : list byte) :
  (length js <= n)%nat ->
  bytes.IndexByte js bytes.LF = None ->
  bytes.IndexByte (blockOf n js) bytes.LF = Some n
  /\ take n (blockOf n js) = js ++ replicate (n - length js) bytes.SP.
Proof.
  intros Hle Hno. rewrite blockOf_short by assumption. split.
  - rewrite IndexByte_app_absent by assumption.
    rewrite IndexByte_app_absent by apply IndexByte_spaces.
    rewrite IndexByte_head, length_replicate. cbn. f_equal. lia.
  - rewrite app_assoc. apply take_app_length'.
    rewrite length_app, length_replicate. lia.
Qed.



End RecordReplay.


(** ** [ensureStreamOptions]: what the injection leaves alone *)

Section StreamOptionsMore.

Context `{proxy.Lib}.

Lemma injectStreamOptions_fresh (p : gmap string json.value) :
  (forall opts, p !! "stream_options"%string <> Some (json.Object opts)) ->
  proxy.injectStreamOptions p
  = (<["stream_options"%string :=
         json.Object {["include_usage"%string := json.Bool true]}]> p, true).
Proof.
  intros Hno. unfold proxy.injectStreamOptions.
  destruct (p !! "stream_options"%string) as [[| | | | |opts]|];
    try reflexivity.
  now destruct (Hno opts).
Qed.

Lemma injectStreamOptions_add (p opts : gmap string json.value) :
  p !! "stream_options"%string = Some (json.Object opts) ->
  opts !! "include_usage"%string <> Some (json.Bool true) ->
  proxy.injectStreamOptions p
  = (<["stream_options"%string :=
         json.Object (<["include_usage"%string := json.Bool true]> opts)]> p,
     true).
Proof.
  intros Hso Hiu. unfold proxy.injectStreamOptions. rewrite Hso.
  destruct (opts !! "include_usage"%string) as [[|[|]| | | |]|];
    try reflexivity.
  now destruct Hiu.
Qed.

(** X19. The injection of step 5 sets [stream_options.include_usage] to
    [true] and touches nothing else: every other field of the payload is
    kept, and when [stream_options] was an object its other entries are
    kept (anything else under that name is replaced by an object with the
    one entry). It reports no change exactly when the payload already
    carried the option, and then the payload is the one it was given. *)
Theorem injectStreamOptions_preserves (p : gmap string json.value) :
  let p' := (proxy.injectStreamOptions p).1 in
  (forall k, k <> "stream_options"%string -> p' !! k = p !! k)
  /\ (exists opts',
        p' !! "stream_options"%string = Some (json.Object opts')
        /\ opts' !! "include_usage"%string = Some (json.Bool true)
        /\ (forall opts k,
              p !! "stream_options"%string = Some (json.Object opts) ->
              k <> "include_usage"%string -> opts' !! k = opts !! k)
        /\ ((forall opts,
               p !! "stream_options"%string <> Some (json.Object opts)) ->
            opts' = {["include_usage"%string := json.Bool true]}))
  /\ ((proxy.injectStreamOptions p).2 = false <->
      exists opts,
        p !! "stream_options"%string = Some (json.Object opts)
        /\ opts !! "include_usage"%string = Some (json.Bool true))
  /\ ((proxy.injectStreamOptions p).2 = false -> p' = p).
Proof.
  cbv zeta.
  assert (Hcases :
    (exists opts, p !! "stream_options"%string = Some (json.Object opts))
    \/ (forall opts,
          p !! "stream_options"%string <> Some (json.Object opts))).
  { destruct (p !! "stream_options"%string) as [[| | | | |opts]|];
      try (right; intros opts; discriminate).
    left. now exists opts. }
  destruct Hcases as [(opts & Hso) | Hno].
  - assert (Hdec : opts !! "include_usage"%string = Some (json.Bool true)
                   \/ opts !! "include_usage"%string
                      <> Some (json.Bool true)).
    { destruct (opts !! "include_usage"%string) as [[|[|]| | | |]|];
        first [left; reflexivity | right; discriminate]. }
    destruct Hdec as [Hiu|Hiu].
    + assert (Hsame : proxy.injectStreamOptions p = (p, false))
        by (unfold proxy.injectStreamOptions; now rewrite Hso, Hiu).
      rewrite Hsame. cbn [fst snd].
      split; [reflexivity|].
      split.
      { exists opts. split; [exact Hso|]. split; [exact Hiu|].
        split.
        - intros opts0 k Hso0 _. rewrite Hso in Hso0. now injection Hso0 as <-.
        - intros Hno. now destruct (Hno opts). }
      split; [|reflexivity].
      split; [|reflexivity]. intros _. now exists opts.
    + rewrite (injectStreamOptions_add p opts Hso Hiu). cbn [fst snd].
      split; [intros k Hk; now rewrite lookup_insert_ne|].
      split.
      { eexists. split; [apply lookup_insert_eq|].
        split; [apply lookup_insert_eq|].
        split.
        - intros opts0 k Hso0 Hk. rewrite Hso in Hso0. injection Hso0 as <-.
          now rewrite lookup_insert_ne.
        - intros Hno. now destruct (Hno opts). }
      split; [|discriminate].
      split; [discriminate|].
      intros (opts0 & Hso0 & Hiu0). rewrite Hso in Hso0.
      injection Hso0 as <-. now destruct Hiu.
  - rewrite (injectStreamOptions_fresh p Hno). cbn [fst snd].
    split; [intros k Hk; now rewrite lookup_insert_ne|].
    split.
    { eexists. split; [apply lookup_insert_eq|].
      split; [apply lookup_singleton_eq|].
      split; [|reflexivity].
      intros opts k Hso _. now destruct (Hno opts). }
    split; [|discriminate].
    split; [discriminate|].
    intros (opts & Hso & _). now destruct (Hno opts).
Qed.

(** X20. [ensureStreamOptions] keeps the length fields in step with the
    body: if the body can be read and [ContentLength] was its length,
    it still is afterwards, and a [Content-Length] header that agreed
    with the field still agrees. The method and every header other than
    [Content-Length] are as they came, and the body read afterwards is
    either the body that came or the serialized payload after the
    injection. *)
Theorem ensureStreamOptions_lengths (req : http.Request) :
  io.fails (http.Body req) = false ->
  http.ContentLength req = Z.of_nat (length (io.pending (http.Body req))) ->
  let req1 := proxy.ensureStreamOptions req in
  http.ContentLength req1 = Z.of_nat (length (io.pending (http.Body req1)))
  /\ io.fails (http.Body req1) = false
  /\ (http.Get (http.ReqHeader req) "Content-Length"
      = strings.itoa (http.ContentLength req) ->
      http.Get (http.ReqHeader req1) "Content-Length"
      = strings.itoa (http.ContentLength req1))
  /\ http.Method req1 = http.Method req
  /\ (forall k, k <> "Content-Length"%string ->
      http.ReqHeader req1 !! k = http.ReqHeader req !! k)
  /\ (io.pending (http.Body req1) = io.pending (http.Body req)
      \/ exists p,
           proxy.json_Unmarshal_payload (io.pending (http.Body req)) = Some p
           /\ p !! "stream"%string = Some (json.Bool true)
           /\ proxy.json_Marshal_payload (proxy.injectStreamOptions p).1
              = Some (io.pending (http.Body req1))).
Proof.
  intros Hfails Hlen. cbv zeta. unfold proxy.ensureStreamOptions.
  destruct (_ || _).
  { repeat split; auto. }
  unfold io.ReadAll. cbv beta iota zeta. rewrite Hfails.
  assert (Hkeep :
    let req1 := proxy.restoreBody req (io.pending (http.Body req)) in
    http.ContentLength req1 = Z.of_nat (length (io.pending (http.Body req1)))
    /\ io.fails (http.Body req1) = false
    /\ (http.Get (http.ReqHeader req) "Content-Length"
        = strings.itoa (http.ContentLength req) ->
        http.Get (http.ReqHeader req1) "Content-Length"
        = strings.itoa (http.ContentLength req1))
    /\ http.Method req1 = http.Method req
    /\ (forall k, k <> "Content-Length"%string ->
        http.ReqHeader req1 !! k = http.ReqHeader req !! k)
    /\ (io.pending (http.Body req1) = io.pending (http.Body req)
        \/ exists p,
             proxy.json_Unmarshal_payload (io.pending (http.Body req))
             = Some p
             /\ p !! "stream"%string = Some (json.Bool true)
             /\ proxy.json_Marshal_payload (proxy.injectStreamOptions p).1
                = Some (io.pending (http.Body req1)))).
  { cbv zeta. unfold proxy.restoreBody.
    cbn [http.withBody http.ContentLength http.Body http.ReqHeader
         http.Method io.NopCloser io.pending io.fails].
    repeat split; auto. }
  cbv zeta in Hkeep.
  destruct (proxy.json_Unmarshal_payload _) as [p|] eqn:Hp; [|exact Hkeep].
  destruct (p !! "stream"%string) as [[|[|]| | | |]|] eqn:Hstream;
    try exact Hkeep.
  destruct (proxy.injectStreamOptions p) as [p' updated] eqn:Hinj.
  destruct updated; [|exact Hkeep].
  destruct (proxy.json_Marshal_payload p') as [newBytes|] eqn:Hm;
    [|exact Hkeep].
  unfold proxy.restoreBody.
  cbn [http.withBody http.withHeader http.withContentLength
       http.ContentLength http.Body http.ReqHeader http.Method
       io.NopCloser io.pending io.fails].
  split; [reflexivity|]. split; [reflexivity|].
  split; [intros _; unfold http.Get, http.Set_; now rewrite lookup_insert_eq|].
  split; [reflexivity|].
  split; [intros k Hk; unfold http.Set_; now rewrite lookup_insert_ne|].
  right. exists p. split; [reflexivity|]. split; [exact Hstream|].
  rewrite Hinj. exact Hm.
Qed.

End StreamOptionsMore.

Lemma ensureStreamOptions_lengths_witness :
  let req1 :=
    proxy.ensureStreamOptions (scenario.chatRequest sample.streamBody) in
  http.ContentLength req1 = Z.of_nat (length sample.injectedBody)
  /\ io.pending (http.Body req1) = sample.injectedBody
  /\ http.Get (http.ReqHeader req1) "Authorization"
     = "Bearer sk-secret"%string.
Proof.
  intros req1.
  destruct (ensureStreamOptions_lengths
              (scenario.chatRequest sample.streamBody))
    as (Hcl & _ & _ & _ & Hk & _).
  - reflexivity.
  - reflexivity.
  - fold req1 in Hcl, Hk.
    assert (Hbody : io.pending (http.Body req1) = sample.injectedBody)
      by (vm_compute; reflexivity).
    split; [now rewrite Hcl, Hbody|]. split; [exact Hbody|].
    unfold http.Get. rewrite Hk by discriminate.
    vm_compute. reflexivity.
Defined.

(** ** Disk faults after the set-up *)

Section DiskFaults.

Context `{recorder.Lib} `{chaos.Lib} `{proxy.Lib}.

#[local] Opaque recorder.padding.

(** The request [PrepareLogFile] hands on does not depend on the disk. *)
Lemma PrepareLogFile_request (r : recorder.Recorder) (req : http.Request)
    (siteURL : string) (env env' : recorder.Env) (req1 req2 : http.Request)
    (i1 i2 : recorder.LogInfo) :
  recorder.PrepareLogFile r req siteURL env = (req1, inl i1) ->
  recorder.PrepareLogFile r req siteURL env' = (req2, inl i2) ->
  req1 = req2.
Proof.
  unfold recorder.PrepareLogFile, io.ReadAll. cbv beta iota zeta.
  destruct (recorder.mkdirErr env); [discriminate|].
  destruct (recorder.createErr env); [discriminate|].
  destruct (recorder.mkdirErr env'); [intros _; discriminate|].
  destruct (recorder.createErr env'); [intros _; discriminate|].
  repeat match goal with
         | |- context [os.Write ?f ?b] =>
             destruct (os.Write f b) as [[? ?] [?|]];
             [try discriminate; intros _; discriminate|]
         end.
  intros [= <- _] [= <- _]. reflexivity.
Qed.

Lemma ModifyResponse_some (resp : http.Response) (info : recorder.LogInfo) :
  exists info' s, proxy.ModifyResponse resp (Some info) = Some (info', s).
Proof.
  unfold proxy.ModifyResponse.
  destruct (proxy.fileWrite info _) as [info1 n1].
  destruct (proxy.fileWrite info1 _) as [info2 n2]. eauto.
Qed.

(** What the copy loop sends to the client does not depend on the
    session. *)
Lemma copyResponse_client (reads : list (list byte)) :
  forall s info s' info' rw clock tick,
  (proxy.copyResponse reads s info rw clock tick).1.2
  = (proxy.copyResponse reads s' info' rw clock tick).1.2
  /\ (proxy.copyResponse reads s info rw clock tick).2
     = (proxy.copyResponse reads s' info' rw clock tick).2.
Proof.
  induction reads as [|data rest IH]; intros s info s' info' rw clock tick;
    [now split|].
  cbn [proxy.copyResponse].
  destruct (proxy.UsageSniffer.Read s info data) as [s1 info1].
  destruct (proxy.UsageSniffer.Read s' info' data) as [s1' info1'].
  destruct (0 <? length data)%nat; [|apply IH].
  destruct (proxy.InstrumentedResponseWriter.Write rw (clock tick) data)
    as [[rw1 nw] werr].
  destruct (werr || negb (nw =? length data)%nat); [now split|apply IH].
Qed.

(** X21. Once the log file is set up, faults of the disk do not reach
    the client: on two disks that both let the set-up through, whatever
    happens to the later writes, the same request is sent upstream and
    the client is sent the same status and the same bytes. *)
Theorem client_unaffected_by_disk_faults (h : proxy.Handler)
    (w : http.ResponseWriter) (r : http.Request) (world : proxy.World)
    (env' : recorder.Env) :
  ~ setupFails (proxy.fileEnv world) -> ~ setupFails env' ->
  let world' :=
    {| proxy.fileEnv := env'; proxy.clock := proxy.clock world;
       proxy.rand := proxy.rand world;
       proxy.server := proxy.server world |} in
  proxy.client (proxy.ServeHTTP h w r world')
  = proxy.client (proxy.ServeHTTP h w r world)
  /\ proxy.forwarded (proxy.ServeHTTP h w r world')
     = proxy.forwarded (proxy.ServeHTTP h w r world).
Proof.
  intros Hok Hok'. cbv zeta. unfold proxy.ServeHTTP. cbv zeta.
  cbn [proxy.fileEnv proxy.clock proxy.rand].
  destruct (PrepareLogFile_ok (proxy.recorder_ h)
              (proxy.ensureStreamOptions r)
              (config.UpstreamBaseURL (proxy.cfg h)) (proxy.fileEnv world)
              Hok) as (req1 & info1 & f1 & HP1 & _).
  destruct (PrepareLogFile_ok (proxy.recorder_ h)
              (proxy.ensureStreamOptions r)
              (config.UpstreamBaseURL (proxy.cfg h)) env' Hok')
    as (req2 & info2 & f2 & HP2 & _).
  pose proof (PrepareLogFile_request _ _ _ _ _ _ _ _ _ HP1 HP2) as ->.
  rewrite HP1, HP2.
  destruct (chaos.Evaluate _ _ _ _) as [chaosRes i].
  destruct (chaos.Evaluate _ _ _ _) as [chaosRes' i'].
  unfold proxy.reverseProxy.
  cbn [proxy.fileEnv proxy.clock proxy.rand].
  match goal with
  | |- context [proxy.upstream (proxy.mkWorld ?e ?c ?x ?u) ?q] =>
      change (proxy.upstream (proxy.mkWorld e c x u) q)
        with (proxy.upstream world q)
  end.
  destruct (proxy.upstream world (proxy.Director h req2)) as [resp|err].
  - destruct (ModifyResponse_some resp info1) as (j1 & s1 & ->).
    destruct (ModifyResponse_some resp info2) as (j2 & s2 & ->).
    match goal with
    | |- context [proxy.copyResponse ?reads s2 j2 ?rw ?clock ?tick] =>
        pose proof (copyResponse_client reads s2 j2 s1 j1 rw clock tick)
          as [Hrw Htick]
    end.
    destruct (proxy.copyResponse _ s2 j2 _ _ _) as [[[? ?] rw2] tick2].
    destruct (proxy.copyResponse _ s1 j1 _ _ _) as [[[? ?] rw1] tick1].
    cbn [fst snd] in Hrw, Htick. subst rw2 tick2.
    destruct (proxy.finalize _ _ _) as [? ?].
    destruct (proxy.finalize _ _ _) as [? ?].
    now split.
  - unfold proxy.ErrorHandler. cbv beta iota zeta.
    destruct (proxy.finalize _ _ _) as [? ?].
    destruct (proxy.finalize _ _ _) as [? ?].
    now split.
Qed.

End DiskFaults.

Lemma client_unaffected_by_disk_faults_witness :
  let faulty :=
    {| recorder.now := 1700000000; recorder.mkdirErr := None;
       recorder.createErr := None;
       recorder.device := [None; None; None; Some 0%nat; Some 3%nat] |} in
  let world' :=
    {| proxy.fileEnv := faulty;
       proxy.clock := proxy.clock (scenario.worldOf scenario.okResponse);
       proxy.rand := proxy.rand (scenario.worldOf scenario.okResponse);
       proxy.server :=
         proxy.server (scenario.worldOf scenario.okResponse) |} in
  http.sent
    (proxy.client
       (proxy.ServeHTTP (scenario.handlerOf []) scenario.client
          (scenario.chatRequest sample.chatBody) world'))
  = concat (http.RespBody scenario.okResponse).
Proof.
  intros faulty world'.
  destruct (client_unaffected_by_disk_faults (scenario.handlerOf [])
              scenario.client (scenario.chatRequest sample.chatBody)
              (scenario.worldOf scenario.okResponse) faulty) as [Hc _].
  - apply workingDisk_setup. repeat split. constructor.
  - intros [Hm | [Hc | (i & k & Hi & Hl)]];
      [now apply Hm | now apply Hc |].
    destruct i as [|[|[|i]]]; [discriminate..|lia].
  - fold world' in Hc. rewrite Hc. vm_compute. reflexivity.
Defined.

(** ** The monitor reads what the recorder wrote *)

Section MonitorReads.

Context `{monitor.Lib}.

Lemma monitor_wrap64_small (z : Z) :
  - 2 ^ 63 <= z < 2 ^ 63 -> monitor.wrap64 z = z.
Proof.
  intros Hz. unfold monitor.wrap64.
  change (2 ^ 64) with (2 * 2 ^ 63) in *.
  rewrite Z.mod_small by lia. lia.
Qed.

(** The slice that covers the middle one of three parts. *)
Lemma slice_middle (pre mid post : list byte) :
  monitor.slice (pre ++ mid ++ post) (Z.of_nat (length pre))
    (Z.of_nat (length pre) + Z.of_nat (length mid))
  = Some mid.
Proof.
  unfold monitor.slice. rewrite !length_app.
  destruct (Z.leb_spec 0 (Z.of_nat (length pre))) as [_|]; [|lia].
  destruct (Z.leb_spec (Z.of_nat (length pre))
              (Z.of_nat (length pre) + Z.of_nat (length mid))) as [_|]; [|lia].
  destruct (Z.leb_spec (Z.of_nat (length pre) + Z.of_nat (length mid))
              (Z.of_nat (length pre + (length mid + length post))%nat))
    as [_|]; [|lia].
  cbn [andb]. rewrite Nat2Z.id, drop_app_length.
  replace (Z.to_nat (Z.of_nat (length pre) + Z.of_nat (length mid)
                     - Z.of_nat (length pre))) with (length mid) by lia.
  now rewrite take_app_length.
Qed.

Lemma slice_prefix (pre post : list byte) :
  monitor.slice (pre ++ post) 0 (Z.of_nat (length pre)) = Some pre.
Proof.
  pose proof (slice_middle [] pre post) as Hs.
  cbn [app length] in Hs. exact Hs.
Qed.

Lemma slice_suffix (pre post : list byte) :
  monitor.slice (pre ++ post) (Z.of_nat (length pre))
    (Z.of_nat (length (pre ++ post)))
  = Some post.
Proof.
  pose proof (slice_middle pre post []) as Hs.
  rewrite app_nil_r in Hs. rewrite length_app, Nat2Z.inj_add. exact Hs.
Qed.

Lemma IndexByte_found (s : list byte) (c : byte) :
  c ∈ s -> exists i, bytes.IndexByte s c = Some i.
Proof.
  induction s as [|b s IH]; [intros Hc; inversion Hc|].
  intros Hc. cbn [bytes.IndexByte].
  destruct (Byte.eqb b c) eqn:E; [now exists 0%nat|].
  apply elem_of_cons in Hc as [->|Hc].
  - now rewrite (Byte.byte_dec_lb eq_refl) in E.
  - destruct (IH Hc) as (i & ->). now exists (S i).
Qed.

(** A file made of the six regions, with a header that gives the lengths
    of the request dump, the request body and the response header. *)
Lemma ParseLogFile_regions (slot dump body resHead resBody : list byte)
    (header : recorder.RecordHeader) :
  let content := slot ++ dump ++ body ++ [bytes.LF] ++ resHead ++ resBody in
  let l := recorder.Layout header in
  length slot = 2048%nat ->
  monitor.json_Unmarshal_header (monitor.firstLine content) = Some header ->
  recorder.ReqHeaderLen l = Z.of_nat (length dump) ->
  recorder.ReqBodyLen l = Z.of_nat (length body) ->
  recorder.ResHeaderLen l = Z.of_nat (length resHead) ->
  Z.of_nat (length content) < 2 ^ 63 ->
  monitor.ParseLogFile content
  = monitor.Ok
      {| monitor.Header := header;
         monitor.ReqFull := slot ++ dump ++ body;
         monitor.ResFull := resHead ++ resBody;
         monitor.ChatMessages := monitor.requestMessages body;
         monitor.AIContent :=
           (monitor.parseAIContent resBody (recorder.IsStream l)).1;
         monitor.AIReasoning :=
           (monitor.parseAIContent resBody (recorder.IsStream l)).2 |}.
Proof.
  intros content l Hs Hdec Ha Hb Hc Hsize.
  assert (Hlen : Z.of_nat (length content)
                 = 2048 + Z.of_nat (length dump) + Z.of_nat (length body) + 1
                   + Z.of_nat (length resHead) + Z.of_nat (length resBody)).
  { subst content. rewrite !length_app, Hs. cbn [length]. lia. }
  assert (HLF : bytes.LF ∈ content).
  { subst content. rewrite !elem_of_app. right. right. right. left.
    apply list_elem_of_singleton. reflexivity. }
  destruct (IndexByte_found content bytes.LF HLF) as (i & Hi).
  unfold monitor.firstLine in Hdec. rewrite Hi in Hdec.
  unfold monitor.ParseLogFile. rewrite Hi, Hdec. cbv zeta. fold l.
  change (Z.of_nat recorder.HeaderLen) with 2048.
  rewrite Ha, Hb, Hc.
  rewrite (monitor_wrap64_small (2048 + _)) by lia.
  rewrite (monitor_wrap64_small (2048 + _ + _)) by lia.
  destruct (Z.ltb_spec (Z.of_nat (length content))
              (2048 + Z.of_nat (length dump) + Z.of_nat (length body)))
    as [Hlt|_]; [lia|].
  rewrite (monitor_wrap64_small (2048 + _ + _ + 1)) by lia.
  assert (S1 : monitor.slice content (2048 + Z.of_nat (length dump))
                 (2048 + Z.of_nat (length dump) + Z.of_nat (length body))
               = Some body).
  { pose proof (slice_middle (slot ++ dump) body
                  ([bytes.LF] ++ resHead ++ resBody)) as Hm.
    rewrite length_app, Hs, Nat2Z.inj_add in Hm.
    change (Z.of_nat 2048) with 2048 in Hm.
    subst content. rewrite <- !app_assoc in Hm. exact Hm. }
  rewrite S1.
  assert (S2 : monitor.slice content 0
                 (2048 + Z.of_nat (length dump) + Z.of_nat (length body))
               = Some (slot ++ dump ++ body)).
  { pose proof (slice_prefix (slot ++ dump ++ body)
                  ([bytes.LF] ++ resHead ++ resBody)) as Hm.
    rewrite !length_app, Hs, !Nat2Z.inj_add in Hm.
    change (Z.of_nat 2048) with 2048 in Hm.
    rewrite Z.add_assoc in Hm.
    subst content. rewrite <- !app_assoc in Hm. exact Hm. }
  rewrite S2.
  assert (S3 : monitor.slice content
                 (2048 + Z.of_nat (length dump) + Z.of_nat (length body) + 1)
                 (Z.of_nat (length content))
               = Some (resHead ++ resBody)).
  { pose proof (slice_suffix (slot ++ dump ++ body ++ [bytes.LF])
                  (resHead ++ resBody)) as Hm.
    rewrite (length_app slot), (length_app dump), (length_app body), Hs in Hm.
    cbn [length] in Hm. rewrite !Nat2Z.inj_add in Hm.
    change (Z.of_nat 2048) with 2048 in Hm.
    change (Z.of_nat 1) with 1 in Hm.
    rewrite !Z.add_assoc in Hm.
    subst content. rewrite <- !app_assoc in Hm. exact Hm. }
  rewrite S3.
  assert (S4 :
    (if 2048 + Z.of_nat (length dump) + Z.of_nat (length body) + 1
        <? Z.of_nat (length content)
     then
       if monitor.wrap64
            (2048 + Z.of_nat (length dump) + Z.of_nat (length body) + 1
             + Z.of_nat (length resHead)) <? Z.of_nat (length content)
       then monitor.slice content
              (monitor.wrap64
                 (2048 + Z.of_nat (length dump) + Z.of_nat (length body) + 1
                  + Z.of_nat (length resHead)))
              (Z.of_nat (length content))
       else Some []
     else Some []) = Some resBody).
  { rewrite monitor_wrap64_small by lia.
    destruct (Z.ltb_spec (2048 + Z.of_nat (length dump)
                          + Z.of_nat (length body) + 1)
                (Z.of_nat (length content))) as [_|Hge].
    - destruct (Z.ltb_spec (2048 + Z.of_nat (length dump)
                            + Z.of_nat (length body) + 1
                            + Z.of_nat (length resHead))
                  (Z.of_nat (length content))) as [_|Hge].
      + pose proof (slice_suffix
                      (slot ++ dump ++ body ++ [bytes.LF] ++ resHead)
                      resBody) as Hm.
        rewrite (length_app slot), (length_app dump), (length_app body),
          (length_app [bytes.LF]), Hs in Hm.
        cbn [length] in Hm. rewrite !Nat2Z.inj_add in Hm.
        change (Z.of_nat 2048) with 2048 in Hm.
        change (Z.of_nat 1) with 1 in Hm.
        rewrite !Z.add_assoc in Hm.
        subst content. rewrite <- !app_assoc in Hm. exact Hm.
      + assert (length resBody = 0%nat) by lia.
        destruct resBody; [reflexivity|discriminate].
    - assert (length resBody = 0%nat) by lia.
      destruct resBody; [reflexivity|discriminate]. }
  rewrite S4.
  destruct (monitor.parseAIContent resBody (recorder.IsStream l))
    as [contentStr reasoningStr].
  reflexivity.
Qed.

(** What decides between a result and a panic once the header is read. *)
Lemma ParseLogFile_bounds (content : list byte) (i : nat)
    (header : recorder.RecordHeader) :
  let l := recorder.Layout header in
  let a := recorder.ReqHeaderLen l in
  let b := recorder.ReqBodyLen l in
  let c := recorder.ResHeaderLen l in
  bytes.IndexByte content bytes.LF = Some i ->
  monitor.json_Unmarshal_header (take (i + 1) content) = Some header ->
  0 <= a -> 0 <= b -> 0 <= c -> 2048 + a + b + 1 + c < 2 ^ 63 ->
  (Z.of_nat (length content) <= 2048 + a + b ->
   monitor.ParseLogFile content = monitor.Panic)
  /\ (2048 + a + b < Z.of_nat (length content) ->
      exists d, monitor.ParseLogFile content = monitor.Ok d).
Proof.
  intros l a b c Hi Hdec Ha Hb Hc Hsum.
  unfold monitor.ParseLogFile. rewrite Hi, Hdec. cbv zeta.
  fold l. fold a. fold b. fold c.
  change (Z.of_nat recorder.HeaderLen) with 2048.
  set (len := Z.of_nat (length content)).
  assert (Hlen : 0 <= len) by (subst len; lia).
  rewrite (monitor_wrap64_small (2048 + a)) by lia.
  rewrite (monitor_wrap64_small (2048 + a + b)) by lia.
  split.
  - intros Hshort.
    assert (Hend : (if len <? 2048 + a + b then len else 2048 + a + b) = len).
    { destruct (Z.ltb_spec len (2048 + a + b)); lia. }
    rewrite Hend.
    rewrite (monitor_wrap64_small (len + 1)) by lia.
    destruct (monitor.slice content (2048 + a) len); [|reflexivity].
    destruct (Z.ltb_spec (len + 1) len) as [Hlt|_]; [lia|].
    destruct (monitor.parseAIContent _ _) as [? ?].
    assert (Hno : monitor.slice content (len + 1) len = None).
    { unfold monitor.slice.
      destruct (Z.leb_spec (len + 1) len) as [Hle|_]; [lia|].
      now rewrite andb_false_r. }
    rewrite Hno. now destruct (monitor.slice content 0 len).
  - intros Hlong.
    destruct (Z.ltb_spec len (2048 + a + b)) as [Hlt|_]; [lia|].
    rewrite (monitor_wrap64_small (2048 + a + b + 1)) by lia.
    assert (Hslice : forall lo hi, 0 <= lo -> lo <= hi -> hi <= len ->
                       exists s, monitor.slice content lo hi = Some s).
    { intros lo hi H0 H1 H2. unfold monitor.slice. fold len.
      destruct (Z.leb_spec 0 lo); [|lia].
      destruct (Z.leb_spec lo hi); [|lia].
      destruct (Z.leb_spec hi len); [|lia]. cbn [andb]. eauto. }
    destruct (Hslice (2048 + a) (2048 + a + b)) as (s1 & ->); try lia.
    destruct (Hslice 0 (2048 + a + b)) as (s2 & ->); try lia.
    destruct (Hslice (2048 + a + b + 1) len) as (s3 & ->); try lia.
    rewrite (monitor_wrap64_small (2048 + a + b + 1 + c)) by lia.
    destruct (Z.ltb_spec (2048 + a + b + 1) len) as [_|_].
    + destruct (Z.ltb_spec (2048 + a + b + 1 + c) len) as [Hin|_].
      * destruct (Hslice (2048 + a + b + 1 + c) len) as (s4 & ->); try lia.
        destruct (monitor.parseAIContent _ _) as [? ?]. eauto.
      * destruct (monitor.parseAIContent _ _) as [? ?]. eauto.
    + destruct (monitor.parseAIContent _ _) as [? ?]. eauto.
Qed.

(** X22. [ParseLogFile] reads a record file as the recorder lays it
    out: on a file made of the slot, the request dump, the request body,
    the line feed, the response header and the response body, whose
    first line is read back as the session's header, the result carries
    that header, the request shown is everything up to the end of the
    request body (the 2048-byte slot included), the response shown is
    the response header with the response body, the messages are taken
    from the request body and the answer from the response body. *)
Theorem ParseLogFile_reads_record (info : recorder.LogInfo) (f : os.File)
    (slot dump body resHead resBody : list byte) :
  regions info f slot dump body [bytes.LF] resHead resBody ->
  monitor.json_Unmarshal_header (monitor.firstLine (os.data f))
  = Some (recorder.Header info) ->
  Z.of_nat (length (os.data f)) < 2 ^ 63 ->
  exists d,
    monitor.ParseLogFile (os.data f) = monitor.Ok d
    /\ monitor.Header d = recorder.Header info
    /\ monitor.ReqFull d = slot ++ dump ++ body
    /\ monitor.ResFull d = resHead ++ resBody
    /\ monitor.ChatMessages d = monitor.requestMessages body
    /\ (monitor.AIContent d, monitor.AIReasoning d)
       = monitor.parseAIContent resBody
           (recorder.IsStream (recorder.Layout (recorder.Header info))).
Proof.
  intros (Hd & Hs & Ha & Hb & Hc & _) Hdec Hsize.
  rewrite Hd in Hdec, Hsize |- *.
  eexists. split;
    [exact (ParseLogFile_regions slot dump body resHead resBody
              (recorder.Header info) Hs Hdec (eq_sym Ha) (eq_sym Hb)
              (eq_sym Hc) Hsize)|].
  cbn [monitor.Header monitor.ReqFull monitor.ResFull monitor.ChatMessages
       monitor.AIContent monitor.AIReasoning].
  repeat split. now destruct (monitor.parseAIContent _ _).
Qed.

(** X23. Once the first line is read as a header whose lengths are byte
    counts, [ParseLogFile] panics on a slice out of range exactly when
    the request region reaches the end of the file, that is when nothing
    follows the request body; otherwise it returns a result. *)
Theorem ParseLogFile_panics_at_end (content : list byte) (i : nat)
    (header : recorder.RecordHeader) :
  let l := recorder.Layout header in
  let a := recorder.ReqHeaderLen l in
  let b := recorder.ReqBodyLen l in
  let c := recorder.ResHeaderLen l in
  bytes.IndexByte content bytes.LF = Some i ->
  monitor.json_Unmarshal_header (take (i + 1) content) = Some header ->
  0 <= a -> 0 <= b -> 0 <= c -> 2048 + a + b + 1 + c < 2 ^ 63 ->
  (monitor.ParseLogFile content = monitor.Panic
   <-> Z.of_nat (length content) <= 2048 + a + b)
  /\ (monitor.ParseLogFile content <> monitor.Panic ->
      exists d, monitor.ParseLogFile content = monitor.Ok d).
Proof.
  intros l a b c Hi Hdec Ha Hb Hc Hsum.
  destruct (ParseLogFile_bounds content i header Hi Hdec Ha Hb Hc Hsum)
    as [Hshort Hlong].
  fold l a b in Hshort, Hlong.
  destruct (Z.le_gt_cases (Z.of_nat (length content)) (2048 + a + b))
    as [Hle|Hgt].
  - split; [split; [intros _; exact Hle|exact Hshort]|].
    intros Hnp. now destruct (Hnp (Hshort Hle)).
  - destruct (Hlong Hgt) as (d & Hd). split; [|eauto].
    split; [rewrite Hd; discriminate|lia].
Qed.

End MonitorReads.

Lemma ParseLogFile_reads_record_witness :
  exists d,
    monitor.ParseLogFile recorded.recordedFile = monitor.Ok d
    /\ monitor.Header d = recorder.Header recorded.recordedSession
    /\ monitor.ResFull d
       = responseHead scenario.okResponse
           ++ concat (http.RespBody scenario.okResponse).
Proof.
  destruct (ServeHTTP_served (scenario.handlerOf []) scenario.client
              (scenario.chatRequest sample.chatBody)
              (scenario.worldOf scenario.okResponse) scenario.okResponse)
    as (info & f & slot & kept & got & Hi & Hf & _ & Hreg & _ & _ & _ & _ & _
        & Hroom & _).
  - repeat split. constructor.
  - apply Forall_forall. intros q _. reflexivity.
  - destruct (Hroom eq_refl) as [_ ->].
    assert (Hinfo : info = recorded.recordedSession)
      by (unfold recorded.recordedSession; now rewrite Hi).
    subst info.
    assert (Hfile : os.data f = recorded.recordedFile)
      by (unfold recorded.recordedFile; now rewrite Hf).
    destruct (ParseLogFile_reads_record recorded.recordedSession f _ _ _ _ _
                Hreg) as (d & Hd & Hh & _ & Hres & _).
    + rewrite Hfile. vm_compute. reflexivity.
    + rewrite Hfile. apply Z.ltb_lt. vm_compute. reflexivity.
    + exists d. rewrite <- Hfile. split; [exact Hd|].
      split; [exact Hh|exact Hres].
Defined.

Lemma ParseLogFile_panics_at_end_witness :
  let l := recorder.Layout (recorder.Header recorded.recordedSession) in
  let n :=
    Z.to_nat (2048 + recorder.ReqHeaderLen l + recorder.ReqBodyLen l) in
  monitor.ParseLogFile (take n recorded.recordedFile) = monitor.Panic.
Proof.
  intros l n.
  destruct (ParseLogFile_panics_at_end (take n recorded.recordedFile) 2047
              (recorder.Header recorded.recordedSession)) as [[_ Hpanic] _].
  - vm_compute. reflexivity.
  - vm_compute. reflexivity.
  - apply Z.leb_le. vm_compute. reflexivity.
  - apply Z.leb_le. vm_compute. reflexivity.
  - apply Z.leb_le. vm_compute. reflexivity.
  - apply Z.ltb_lt. vm_compute. reflexivity.
  - apply Hpanic. apply Z.leb_le. vm_compute. reflexivity.
Defined.

(** ** The monitor's list *)

Section MonitorList.

Context `{monitor.Lib}.

Lemma visit_grows (entries : list monitor.LogEntry)
    (item : monitor.WalkItem) :
  (exists e, monitor.visit entries item = entries ++ [e]
             /\ monitor.walkErr item = false /\ monitor.isDir item = false
             /\ strings.HasSuffix (monitor.name item) ".http" = true
             /\ monitor.LogPath e = monitor.path item
             /\ exists content,
                  monitor.file item = Some content
                  /\ monitor.json_Unmarshal_header (monitor.firstLine content)
                     = Some (monitor.RecordHeader e))
  \/ monitor.visit entries item = entries.
Proof.
  unfold monitor.visit.
  destruct (monitor.walkErr item); [now right|].
  destruct (monitor.isDir item); [now right|].
  destruct (strings.HasSuffix _ _); [|now right]. cbn [negb andb].
  destruct (monitor.file item) as [content|]; [|now right].
  destruct (monitor.json_Unmarshal_header _) as [header|] eqn:Hh;
    [|now right].
  left. eexists. split; [reflexivity|].
  repeat split. exists content. now split.
Qed.

Lemma collected_length (items : list monitor.WalkItem) :
  forall acc,
  (length (foldl monitor.visit acc items) <= length acc + length items)%nat.
Proof.
  induction items as [|item items IH]; intros acc; cbn [foldl length]; [lia|].
  specialize (IH (monitor.visit acc item)).
  destruct (visit_grows acc item) as [(e & He & _)|He]; rewrite He in IH |- *.
  - rewrite length_app in IH. cbn [length] in IH. lia.
  - lia.
Qed.

(** The counting loop without overflow. *)
Lemma count_fold (entries : list monitor.LogEntry) :
  forall s f t tt,
  0 <= s -> 0 <= f -> s + f + Z.of_nat (length entries) < 2 ^ 63 ->
  exists t' tt',
    foldl monitor.count (s, f, t, tt) entries
    = (s + Z.of_nat (length (filter (fun e => succeeded e = true) entries)),
       f + Z.of_nat (length (filter (fun e => succeeded e <> true) entries)),
       t', tt').
Proof.
  induction entries as [|e entries IH]; intros s f t tt Hs Hf Hb.
  - exists t, tt. cbn. now rewrite !Z.add_0_r.
  - cbn [foldl length] in *. unfold monitor.count at 2.
    fold (succeeded e). rewrite !filter_cons.
    destruct (succeeded e) eqn:Hsucc.
    + rewrite (monitor_wrap64_small (s + 1)) by lia.
      destruct (IH (s + 1) f
                  (monitor.wrap64
                     (t + recorder.TotalTokens
                            (recorder.Usage (monitor.RecordHeader e))))
                  (monitor.wrap64
                     (tt + recorder.TTFTMs
                             (recorder.Meta (monitor.RecordHeader e)))))
        as (t' & tt' & ->); try lia.
      exists t', tt'.
      destruct (decide (true = true)) as [_|Hn]; [|now destruct Hn].
      destruct (decide (true <> true)) as [Hn|_]; [now destruct Hn|].
      cbn [length]. f_equal. f_equal. f_equal. lia.
    + rewrite (monitor_wrap64_small (f + 1)) by lia.
      destruct (IH s (f + 1) t tt) as (t' & tt' & ->); try lia.
      exists t', tt'.
      destruct (decide (false = true)) as [Hn|_]; [discriminate|].
      destruct (decide (false <> true)) as [_|Hn];
        [|exfalso; apply Hn; discriminate].
      cbn [length]. f_equal. f_equal. f_equal. lia.
Qed.

Lemma filter_split_length (entries : list monitor.LogEntry) :
  (length (filter (fun e => succeeded e = true) entries)
   + length (filter (fun e => succeeded e <> true) entries)
   = length entries)%nat.
Proof.
  induction entries as [|e entries IH]; [reflexivity|].
  rewrite !filter_cons.
  destruct (decide (succeeded e = true)) as [Ht|Hf];
    destruct (decide (succeeded e <> true)) as [Hf'|Ht'];
    cbn [length]; try lia.
  - now destruct Hf'.
  - exfalso. apply Ht'. exact Hf.
Qed.

(** X24. The statistics of [ScanLogs] cover every record file of the
    walk whose first line is read as a header, while the list keeps at
    most 500 of them: the total is the number of such files, successes
    (status 200 to 299) and failures add up to the total, the list has
    [min 500 total] entries, all of them among those files, the success
    rate lies between 0 and 1 and the average TTFT is never negative. *)
Theorem ScanLogs_stats (items : list monitor.WalkItem) :
  (forall less l, monitor.sort_Slice less l ≡ₚ l) ->
  Z.of_nat (length items) < 2 ^ 63 ->
  let data := monitor.ScanLogs items in
  let st := monitor.Stats data in
  let entries := collected items in
  monitor.TotalRequest st = Z.of_nat (length entries)
  /\ (length entries <= length items)%nat
  /\ monitor.SuccessRequest st
     = Z.of_nat (length (filter (fun e => succeeded e = true) entries))
  /\ monitor.SuccessRequest st + monitor.FailedRequest st
     = monitor.TotalRequest st
  /\ length (monitor.Logs data) = (500 `min` length entries)%nat
  /\ (forall e, e ∈ monitor.Logs data -> e ∈ entries)
  /\ (0 <= monitor.SuccessRate st <= 1)%Q
  /\ 0 <= monitor.AvgTTFT st.
Proof.
  intros Hsort Hsize. cbv zeta. unfold monitor.ScanLogs, collected.
  cbv zeta.
  set (entries := foldl monitor.visit [] items).
  pose proof (collected_length items []) as Hlen.
  fold entries in Hlen. cbn [length] in Hlen.
  destruct (count_fold entries 0 0 0 0) as (t' & tt' & Hcount); try lia.
  rewrite Hcount. cbv beta iota zeta.
  pose proof (filter_split_length entries) as Hsplit.
  set (ns := length (filter (fun e => succeeded e = true) entries)) in *.
  set (nf := length (filter (fun e => succeeded e <> true) entries)) in *.
  cbn [monitor.Stats monitor.Logs monitor.TotalRequest
       monitor.SuccessRequest monitor.FailedRequest monitor.SuccessRate
       monitor.AvgTTFT].
  rewrite !Z.add_0_l.
  split; [reflexivity|]. split; [lia|]. split; [reflexivity|].
  split; [lia|].
  set (sorted := monitor.sort_Slice _ entries).
  assert (Hperm : sorted ≡ₚ entries) by apply Hsort.
  split.
  { destruct (Nat.ltb_spec 500 (length sorted)) as [Hgt|Hle].
    - rewrite length_take, (Permutation_length Hperm). reflexivity.
    - rewrite (Permutation_length Hperm) in Hle |- *. lia. }
  split.
  { intros e He. rewrite <- Hperm.
    destruct (500 <? length sorted)%nat; [|exact He].
    apply elem_of_take in He as (i & Hi & _).
    now apply list_elem_of_lookup_2 in Hi. }
  split.
  { rewrite (monitor_wrap64_small (Z.of_nat ns + Z.of_nat nf)) by lia.
    destruct (Z.ltb_spec 0 (Z.of_nat ns + Z.of_nat nf)) as [Hpos|_].
    - unfold Qle. cbn [Qnum Qden]. rewrite Z2Pos.id by lia. lia.
    - split; unfold Qle; cbn; lia. }
  destruct (Z.ltb_spec 0 tt') as [Htt|_]; [|cbn [andb]; lia].
  destruct (Z.ltb_spec 0 (Z.of_nat ns)) as [Hs|_]; [|cbn [andb]; lia].
  cbn [andb]. apply Z.quot_pos; lia.
Qed.

End MonitorList.

Lemma ScanLogs_stats_witness :
  let items :=
    [recordItem "logs/a.http" recorded.recordedFile;
     recordItem "logs/notes.txt" recorded.recordedFile;
     recordItem "logs/b.http" (take 100 recorded.recordedFile);
     recordItem "logs/c.http" recorded.recordedFile] in
  let data := monitor.ScanLogs items in
  monitor.TotalRequest (monitor.Stats data) = 2
  /\ monitor.SuccessRequest (monitor.Stats data)
     + monitor.FailedRequest (monitor.Stats data) = 2
  /\ length (monitor.Logs data) = 2%nat.
Proof.
  intros items data.
  destruct (ScanLogs_stats items)
    as (Ht & _ & _ & Hsum & Hl & _).
  - intros less l. apply merge_sort_Permutation.
  - apply Z.ltb_lt. reflexivity.
  - fold data in Ht, Hsum, Hl.
    assert (Hn : length (collected items) = 2%nat)
      by (vm_compute; reflexivity).
    rewrite Hn in Ht, Hl. rewrite Ht in Hsum.
    split; [exact Ht|]. split; [exact Hsum|exact Hl].
Defined.

(** ** A failed exchange, seen from the monitor *)

Section FailedExchange.

Context `{recorder.Lib} `{chaos.Lib} `{proxy.Lib} `{monitor.Lib}.

Lemma IndexByte_app_present (a b : list byte) (c : byte) (i : nat) :
  bytes.IndexByte a c = Some i -> bytes.IndexByte (a ++ b) c = Some i.
Proof.
  revert i. induction a as [|x a IH]; intros i; [discriminate|].
  cbn [app bytes.IndexByte]. destruct (Byte.eqb x c); [trivial|].
  destruct (bytes.IndexByte a c) as [j|]; [|discriminate].
  now rewrite (IH j eq_refl).
Qed.

Lemma firstLine_padding (rest : list byte) :
  monitor.firstLine (recorder.padding ++ rest) = recorder.padding.
Proof.
  unfold monitor.firstLine.
  assert (Hp : recorder.padding = blockOf 2047 []) by reflexivity.
  destruct (slot_first_line 2047 [] ltac:(cbn; lia) eq_refl) as [Hi _].
  rewrite Hp, (IndexByte_app_present _ rest _ _ Hi).
  change (2047 + 1)%nat with 2048%nat.
  rewrite <- (blockOf_length 2047 []) at 1. apply take_app_length.
Qed.

(** X25. An exchange whose upstream could not be reached does not show
    in the monitor. Its record file still starts with the blank
    placeholder, so (a blank line being no JSON document) [ScanLogs]
    passes the file over, counting it neither as a request nor as a
    failure, and [ParseLogFile] reports an invalid header. *)
Theorem failed_exchange_is_not_listed (h : proxy.Handler)
    (w : http.ResponseWriter) (r : http.Request) (world : proxy.World)
    (err : string) :
  workingDisk (proxy.fileEnv world) ->
  http.status w = None -> http.room w = None ->
  let out := proxy.ServeHTTP h w r world in
  Forall (fun q => proxy.upstream world q = proxy.Failed err)
    (proxy.forwarded out) ->
  monitor.json_Unmarshal_header recorder.padding = None ->
  exists info f,
    proxy.logInfo out = Some info
    /\ recorder.File info = Some f
    /\ monitor.ParseLogFile (os.data f) = monitor.Err monitor.ErrHeaderJSON
    /\ (forall items path,
          monitor.ScanLogs (items ++ [recordItem path (os.data f)])
          = monitor.ScanLogs items).
Proof.
  intros Hw Hst Hroom out Hall Hblank.
  destruct (ServeHTTP_failed h w r world err Hw Hst Hroom Hall)
    as (_ & _ & _ & info & f & Hi & Hf & _ & Hd & _).
  exists info, f. split; [exact Hi|]. split; [exact Hf|].
  pose proof (firstLine_padding
                (httputil.DumpRequest
                   (loggedRequest (proxy.recorder_ h)
                      (proxy.ensureStreamOptions r))
                 ++ io.pending (http.Body (proxy.ensureStreamOptions r))))
    as Hfirst.
  rewrite <- Hd in Hfirst.
  split.
  - unfold monitor.ParseLogFile.
    unfold monitor.firstLine in Hfirst.
    destruct (bytes.IndexByte (os.data f) bytes.LF) as [i|] eqn:Hidx.
    + now rewrite Hfirst, Hblank.
    + exfalso.
      assert (Hlen : length (os.data f) = length recorder.padding)
        by now rewrite Hfirst.
      rewrite Hd, length_app in Hlen.
      assert (Hin : bytes.LF ∈ os.data f).
      { rewrite Hfirst. apply list_elem_of_lookup_2 with 2047%nat.
        reflexivity. }
      destruct (IndexByte_found _ _ Hin) as (j & Hj). congruence.
  - intros items path.
    assert (Hv : forall entries,
              monitor.visit entries (recordItem path (os.data f)) = entries).
    { intros entries. unfold monitor.visit.
      cbn [recordItem monitor.walkErr monitor.isDir monitor.file].
      rewrite Hfirst, Hblank.
      now destruct (negb false && negb false && _). }
    unfold monitor.ScanLogs. rewrite foldl_app. cbn [foldl].
    rewrite Hv. reflexivity.
Qed.

End FailedExchange.

Lemma failed_exchange_is_not_listed_witness :
  exists info f,
    proxy.logInfo
      (proxy.ServeHTTP (scenario.handlerOf []) scenario.client
         (scenario.chatRequest sample.chatBody) unreachable) = Some info
    /\ recorder.File info = Some f
    /\ monitor.ParseLogFile (os.data f) = monitor.Err monitor.ErrHeaderJSON.
Proof.
  destruct (failed_exchange_is_not_listed (scenario.handlerOf [])
              scenario.client (scenario.chatRequest sample.chatBody)
              unreachable "connection refused")
    as (info & f & Hi & Hf & Hp & _).
  - repeat split. constructor.
  - reflexivity.
  - reflexivity.
  - apply Forall_forall. intros q _. reflexivity.
  - vm_compute. reflexivity.
  - exists info, f. split; [exact Hi|]. split; [exact Hf|exact Hp].
Defined.

(** ** The URL of the connectivity check *)

Section TargetURL.

Lemma HasSuffix_spec (s suffix : list byte) :
  upstream.HasSuffix s suffix = true <-> exists pre, s = pre ++ suffix.
Proof.
  unfold upstream.HasSuffix. rewrite andb_true_iff, bool_decide_eq_true.
  split.
  - intros [Hlen Hdrop]. exists (take (length s - length suffix) s).
    set (n := (length s - length suffix)%nat) in *.
    rewrite <- Hdrop. now rewrite take_drop.
  - intros (pre & ->). rewrite length_app. split.
    + apply Nat.leb_le. lia.
    + replace (length pre + length suffix - length suffix)%nat
        with (length pre) by lia.
      apply drop_app_length.
Qed.

Lemma TrimSuffix_app (pre suffix : list byte) :
  upstream.TrimSuffix (pre ++ suffix) suffix = pre.
Proof.
  unfold upstream.TrimSuffix.
  assert (Hs : upstream.HasSuffix (pre ++ suffix) suffix = true)
    by (apply HasSuffix_spec; now exists pre).
  rewrite Hs, length_app.
  replace (length pre + length suffix - length suffix)%nat
    with (length pre) by lia.
  apply take_app_length.
Qed.

Lemma TrimSuffix_none (s suffix : list byte) :
  upstream.HasSuffix s suffix = false -> upstream.TrimSuffix s suffix = s.
Proof. intros Hs. unfold upstream.TrimSuffix. now rewrite Hs. Qed.

(** A string that ends in neither of two suffixes with different last
    bytes still does not after one of them is appended and removed. *)
Lemma HasSuffix_last (s suffix : list byte) (a b : byte) :
  a <> b ->
  upstream.HasSuffix (s ++ [a]) (suffix ++ [b]) = false.
Proof.
  intros Hab.
  destruct (upstream.HasSuffix (s ++ [a]) (suffix ++ [b])) eqn:E;
    [|reflexivity].
  apply HasSuffix_spec in E as (p & Hp).
  rewrite app_assoc in Hp. apply app_inj_tail in Hp as [_ Heq].
  now destruct Hab.
Qed.

(** The three cases of the construction are one formula. *)
Lemma targetURL_formula (baseURL : list byte) :
  upstream.targetURL baseURL
  = upstream.TrimSuffix
      (upstream.TrimSuffix baseURL (bytes.of_string "/"))
      (bytes.of_string "/v1")
    ++ bytes.of_string "/v1/models".
Proof.
  unfold upstream.targetURL. cbv zeta.
  destruct (upstream.HasSuffix baseURL (bytes.of_string "/v1")
            || upstream.HasSuffix baseURL (bytes.of_string "/v1/"))
    eqn:Hv1; [reflexivity|].
  apply orb_false_iff in Hv1 as [Hv1a Hv1s].
  destruct (upstream.HasSuffix baseURL (bytes.of_string "/")) eqn:Hslash.
  - apply HasSuffix_spec in Hslash as (pre & ->).
    rewrite TrimSuffix_app.
    assert (Hpre : upstream.HasSuffix pre (bytes.of_string "/v1") = false).
    { destruct (upstream.HasSuffix pre (bytes.of_string "/v1")) eqn:E;
        [|reflexivity].
      apply HasSuffix_spec in E as (p & ->).
      assert (Hc : upstream.HasSuffix
                     ((p ++ bytes.of_string "/v1") ++ bytes.of_string "/")
                     (bytes.of_string "/v1/") = true).
      { apply HasSuffix_spec. exists p. now rewrite <- app_assoc. }
      congruence. }
    rewrite (TrimSuffix_none _ _ Hpre), <- app_assoc. reflexivity.
  - now rewrite (TrimSuffix_none _ _ Hslash), (TrimSuffix_none _ _ Hv1a).
Qed.

(** X26. The connectivity check reaches the same URL however the base
    URL is spelled: for a base that ends neither in [/] nor in [/v1], the
    base itself, the base with a trailing slash, the base with [/v1] and
    the base with [/v1/] all give [base/v1/models]. In general the URL
    is the base URL without one trailing slash and then without one
    trailing [/v1], followed by [/v1/models]. *)
Theorem targetURL_spellings (base : list byte) :
  upstream.HasSuffix base (bytes.of_string "/") = false ->
  upstream.HasSuffix base (bytes.of_string "/v1") = false ->
  let url := base ++ bytes.of_string "/v1/models" in
  upstream.targetURL base = url
  /\ upstream.targetURL (base ++ bytes.of_string "/") = url
  /\ upstream.targetURL (base ++ bytes.of_string "/v1") = url
  /\ upstream.targetURL (base ++ bytes.of_string "/v1/") = url
  /\ (forall s,
        upstream.targetURL s
        = upstream.TrimSuffix
            (upstream.TrimSuffix s (bytes.of_string "/"))
            (bytes.of_string "/v1")
          ++ bytes.of_string "/v1/models").
Proof.
  intros Hslash Hv1. cbv zeta. rewrite !targetURL_formula.
  split.
  { now rewrite (TrimSuffix_none _ _ Hslash), (TrimSuffix_none _ _ Hv1). }
  split.
  { now rewrite TrimSuffix_app, (TrimSuffix_none _ _ Hv1). }
  split.
  { rewrite (TrimSuffix_none (base ++ bytes.of_string "/v1")).
    - now rewrite TrimSuffix_app.
    - change (bytes.of_string "/v1") with (bytes.of_string "/v" ++ ["1"%byte]).
      rewrite app_assoc.
      change (bytes.of_string "/") with ([] ++ ["/"%byte]).
      apply HasSuffix_last. discriminate. }
  split; [|exact targetURL_formula].
  change (bytes.of_string "/v1/")
    with (bytes.of_string "/v1" ++ bytes.of_string "/").
  rewrite app_assoc, TrimSuffix_app. now rewrite TrimSuffix_app.
Qed.

End TargetURL.

Lemma targetURL_spellings_witness :
  upstream.targetURL (bytes.of_string "https://api.example.com/v1/")
  = bytes.of_string "https://api.example.com/v1/models"
  /\ upstream.targetURL (bytes.of_string "https://api.example.com")
     = bytes.of_string "https://api.example.com/v1/models".
Proof.
  destruct (targetURL_spellings (bytes.of_string "https://api.example.com"))
    as (H0 & _ & _ & H3 & _).
  - vm_compute. reflexivity.
  - vm_compute. reflexivity.
  - split; [exact H3|exact H0].
Defined.
